(** * pbtranscript: collapsing, counting and chaining of isoform samples

    A shallow embedding of the parts of pbtranscript that decide how group
    files are parsed (io/GroupIO.py), how merge operations are checked and
    written (io/MergeGroupIO.py), how samples are chained and resolved
    (counting/chain_samples.py), how the count runner validates its inputs
    (counting/Count.py) and how the collapse runner sequences its stages
    (collapsing/CollapseIsoforms.py); further, where the mapping task takes
    its GMAP database from (tasks/map_isoforms_to_genome.py) and how the
    logs of the polishing chunks are merged (ice/IceQuiverMerge.py).

    Python [str] values are [string]s of 8-bit characters, dictionaries are
    finite maps, exceptions are values of [Exn] carried by [Res]. *)

From Stdlib Require Import ZArith QArith Ascii String List Lia Bool.
From stdpp Require Import base option list gmap strings.

Open Scope string_scope.
Open Scope list_scope.

(** ** Exceptions and results *)

(** The exception classes that the modelled code raises or lets through;
    [OrderingViolation] is the error of the grouping stage on unsorted input. *)
Inductive Exn : Type :=
| IOError (msg : string)
| ValueError (args : list string)
| KeyError (key : list string)
| IndexError
| TypeError
| EOFError
| UnpicklingError
| AssertionError
| OverflowError
| OrderingViolation.

Inductive Res (A : Type) : Type :=
| Ok (a : A)
| Raise (e : Exn).
Arguments Ok {A} a.
Arguments Raise {A} e.

Definition bindR {A B} (r : Res A) (k : A -> Res B) : Res B :=
  match r with
  | Ok a => k a
  | Raise e => Raise e
  end.

Declare Scope res_scope.
Delimit Scope res_scope with res.
Notation "x <- r ;; k" := (bindR r (fun x => k))
  (at level 100, r at next level, right associativity) : res_scope.

Definition is_ok {A} (r : Res A) : bool :=
  match r with Ok _ => true | Raise _ => false end.

(** [[f(x) for x in l]], stopping at the first [x] on which [f] raises. *)
Fixpoint map_res {A B} (f : A -> Res B) (l : list A) : Res (list B) :=
  match l with
  | [] => Ok []
  | x :: l' =>
      match f x with
      | Raise e => Raise e
      | Ok y =>
          match map_res f l' with
          | Raise e => Raise e
          | Ok ys => Ok (y :: ys)
          end
      end
  end.

(** ** Calls to code outside the embedding

    A computation that calls external code (another module of the package,
    the file system) records each call and asks an oracle whether the call
    returns or raises. The oracle may depend on the calls made so far, so
    every behaviour of the external code is covered. *)

Module Eff.
Section WithCalls.
Context {Call : Type}.

Definition Oracle : Type := list Call -> Call -> option Exn.

Definition M (A : Type) : Type := Oracle -> list Call -> list Call * Res A.

Definition ret {A} (a : A) : M A := fun _ tr => (tr, Ok a).

Definition bind {A B} (m : M A) (k : A -> M B) : M B :=
  fun o tr =>
    match m o tr with
    | (tr', Ok a) => k a o tr'
    | (tr', Raise e) => (tr', Raise e)
    end.

Definition lift {A} (r : Res A) : M A := fun _ tr => (tr, r).

Definition call (c : Call) : M unit :=
  fun o tr =>
    (tr ++ [c], match o tr c with Some e => Raise e | None => Ok tt end).

(** Run from the empty history. *)
Definition run {A} (m : M A) (o : Oracle) : list Call * Res A := m o [].

(** The oracle under which every external call returns. *)
Definition no_failure : Oracle := fun _ _ => None.
End WithCalls.
Arguments Oracle Call : clear implicits.
Arguments M Call A : clear implicits.
End Eff.

Declare Scope eff_scope.
Delimit Scope eff_scope with eff.
Notation "x <- m ;; k" := (Eff.bind m (fun x => k))
  (at level 100, m at next level, right associativity) : eff_scope.

(** ** Python string primitives *)

Module PyStr.

Definition tab : ascii := "009"%char.
Definition comma : ascii := ","%char.

(** [str.isspace] on one 8-bit character in the C locale:
    space, \t, \n, \v, \f, \r. *)
Definition isspace (c : ascii) : bool :=
  let n := nat_of_ascii c in
  Nat.eqb n 32 || (Nat.leb 9 n && Nat.leb n 13).

Fixpoint lstrip (s : string) : string :=
  match s with
  | EmptyString => EmptyString
  | String c s' => if isspace c then lstrip s' else s
  end.

Fixpoint rstrip (s : string) : string :=
  match s with
  | EmptyString => EmptyString
  | String c s' =>
      match rstrip s' with
      | EmptyString => if isspace c then EmptyString else String c EmptyString
      | r => String c r
      end
  end.

(** [s.strip()] *)
Definition strip (s : string) : string := rstrip (lstrip s).

(** [s.split(sep)] for a one-character separator: always at least one
    field, empty fields are kept. *)
Fixpoint split (sep : ascii) (s : string) : list string :=
  match s with
  | EmptyString => [EmptyString]
  | String c s' =>
      if Ascii.eqb c sep then EmptyString :: split sep s'
      else match split sep s' with
           | [] => [String c EmptyString]
           | f :: fs => String c f :: fs
           end
  end.

(** [sep.join(l)] *)
Fixpoint join (sep : string) (l : list string) : string :=
  match l with
  | [] => EmptyString
  | [x] => x
  | x :: xs => x +:+ sep +:+ join sep xs
  end.

(** [c in s] for a character [c] *)
Fixpoint contains (c : ascii) (s : string) : bool :=
  match s with
  | EmptyString => false
  | String d s' => Ascii.eqb d c || contains c s'
  end.

End PyStr.


(** ** Python's [%e] conversion *)

Module PyFormat.
Local Open Scope Z_scope.

(** One decimal digit, [0 <= d <= 9]. *)
Definition digit_char (d : Z) : ascii := ascii_of_nat (48 + Z.to_nat d).

(** The [w] low decimal digits of [n], most significant first. *)
Fixpoint fixed_digits (w : nat) (n : Z) : string :=
  match w with
  | O => EmptyString
  | S w' => fixed_digits w' (n / 10) +:+ String (digit_char (n mod 10)) EmptyString
  end.

(** Number of decimal digits of [n > 0] ([fuel] bounds the recursion). *)
Fixpoint ndigits_fuel (fuel : nat) (n : Z) : Z :=
  match fuel with
  | O => 1
  | S f => if n <? 10 then 1 else 1 + ndigits_fuel f (n / 10)
  end.

Definition ndigits (n : Z) : Z := ndigits_fuel (Z.to_nat (Z.log2 n)) n.

(** All decimal digits of [n >= 0]. *)
Definition decimal (n : Z) : string := fixed_digits (Z.to_nat (ndigits n)) n.

(** [10 ^ e] for an exponent of either sign, as a fraction
    [pow10_num e / pow10_den e]. *)
Definition pow10_num (e : Z) : Z := 10 ^ Z.max e 0.
Definition pow10_den (e : Z) : Z := 10 ^ Z.max (- e) 0.

(** [a / b >= 10 ^ e], for [a, b > 0]. *)
Definition ge_pow10 (a b e : Z) : bool :=
  b * pow10_num e <=? a * pow10_den e.

(** [floor (log10 (a / b))], for [a, b > 0]. *)
Definition exponent10 (a b : Z) : Z :=
  let e0 := ndigits a - ndigits b in
  if ge_pow10 a b e0 then e0 else e0 - 1.

(** Nearest integer to [num / den] ([den > 0]), ties to even. *)
Definition round_half_even (num den : Z) : Z :=
  let q := num / den in
  let r := num mod den in
  if 2 * r <? den then q
  else if den <? 2 * r then q + 1
  else if Z.even q then q else q + 1.

(** Mantissa (an integer of [prec + 1] digits) and decimal exponent of
    [a / b > 0] rounded to [prec] digits after the point. *)
Definition sci_parts (prec : nat) (a b : Z) : Z * Z :=
  let p := Z.of_nat prec in
  let d := exponent10 a b in
  let m := round_half_even (a * pow10_num (p - d)) (b * pow10_den (p - d)) in
  if 10 ^ (p + 1) <=? m then (10 ^ p, d + 1) else (m, d).

Definition render_exponent (d : Z) : string :=
  (if d <? 0 then "-" else "+") +:+
  (if Z.abs d <? 10 then "0" else "") +:+ decimal (Z.abs d).

Definition render_mantissa (prec : nat) (m : Z) : string :=
  String (digit_char (m / 10 ^ Z.of_nat prec))
         (match prec with
          | O => EmptyString
          | _ => "." +:+ fixed_digits prec m
          end).

(** ["%.<prec>e" % x] for a finite float [x], given by its exact value. A
    number that is not a float is converted first, see [to_float]. *)
Definition format_e (prec : nat) (x : Q) : string :=
  let a := Z.abs (Qnum x) in
  let b := Zpos (Qden x) in
  let '(m, d) := if a =? 0 then (0, 0) else sci_parts prec a b in
  (if Qnum x <? 0 then "-" else "") +:+
  render_mantissa prec m +:+ "e" +:+ render_exponent d.

(** *** Conversion to a double

    The % operator formats a float; an int is converted to a float
    first. A number is given by its exact value, and its conversion is the
    double nearest to it, ties to the even mantissa; an int too large for
    a double raises OverflowError. *)

(** [floor (log2 (a / b))], for [a, b > 0]. *)
Definition floor_log2 (a b : Z) : Z :=
  let e0 := Z.log2 a - Z.log2 b in
  if b * 2 ^ Z.max e0 0 <=? a * 2 ^ Z.max (- e0) 0 then e0 else e0 - 1.

(** Mantissa [m] and exponent [q] of the double nearest to [a / b > 0]:
    that double is [m * 2 ^ q], with [m] of at most 53 bits (or [2 ^ 53]
    when the rounding carries) and [q >= -1074]. *)
Definition double_parts (a b : Z) : Z * Z :=
  let q := Z.max (floor_log2 a b - 52) (-1074) in
  (round_half_even (a * 2 ^ Z.max (- q) 0) (b * 2 ^ Z.max q 0), q).

(** [float(x)] *)
Definition to_float (x : Q) : Res Q :=
  let a := Z.abs (Qnum x) in
  let b := Zpos (Qden x) in
  if a =? 0 then Ok (0 # 1)
  else
    let '(m, q) := double_parts a b in
    if (0 <=? q) && (2 ^ 1024 <=? m * 2 ^ q) then Raise OverflowError
    else Ok (Qred (Qmake (Z.sgn (Qnum x) * m * 2 ^ Z.max q 0)
                         (Z.to_pos (2 ^ Z.max (- q) 0)))).

End PyFormat.
(** ** io/GroupIO.py *)

Module GroupIO.
Import PyStr.

(** [GroupRecord]: [members] is a list by typing, so the constructor's
    [isinstance(members, list)] check always passes. *)
Record GroupRecord : Type := mkGroupRecord {
  name : string;
  members : list string
}.

(** [GroupRecord.__str__] *)
Definition to_str (r : GroupRecord) : string :=
  name r +:+ String tab EmptyString +:+ join (String comma EmptyString) (members r).

(** [GroupRecord.__eq__] *)
Definition eq (a b : GroupRecord) : bool :=
  String.eqb (name a) (name b) &&
  bool_decide (members a = members b).

Definition not_valid_msg (line : string) : string :=
  "Could not recognize " +:+ line +:+ " as a valid GroupRecord.".

(** [GroupRecord.fromString] *)
Definition fromString (line : string) : Res GroupRecord :=
  let fields := split tab (strip line) in
  match fields with
  | [f0; f1] => Ok (mkGroupRecord f0 (split comma f1))
  | _ => Raise (ValueError [not_valid_msg line])
  end.

End GroupIO.


(** ** io/MergeGroupIO.py *)

Module MergeGroupIO.
Import PyStr.

(** The values [MergeGroupOperation] may be handed: [None], a [str], a
    [GmapRecord] (of which only [seqid] is read) or anything else, kept as
    its [str()] rendering. *)
Inductive PyVal : Type :=
| PyNone
| PyString (s : string)
| PyGmapRecord (seqid : string)
| PyOther (rendering : string).

Definition is_None (v : PyVal) : bool :=
  match v with PyNone => true | _ => false end.
Definition is_str (v : PyVal) : bool :=
  match v with PyString _ => true | _ => false end.
Definition is_GmapRecord (v : PyVal) : bool :=
  match v with PyGmapRecord _ => true | _ => false end.

Record MergeGroupOperation : Type := mkOp {
  pbid : PyVal;
  group1 : PyVal;
  group2 : PyVal;
  master_group : PyVal
}.

(** [assert e] *)
Definition assert (b : bool) : Res unit :=
  if b then Ok tt else Raise AssertionError.

(** [MergeGroupOperation._sanity_check] *)
Definition _sanity_check (self : MergeGroupOperation) : Res unit :=
  (_ <- assert (is_str (pbid self));;
   _ <- assert (negb (is_None (group1 self) && is_None (group2 self)));;
   _ <- assert (is_GmapRecord (group1 self) || is_None (group1 self) || is_str (group1 self));;
   assert (is_GmapRecord (group2 self) || is_None (group2 self) || is_str (group2 self)))%res.

(** [MergeGroupOperation.__init__] *)
Definition new (pbid group1 group2 : PyVal) : Res MergeGroupOperation :=
  let self := mkOp pbid group1 group2 PyNone in
  (_ <- _sanity_check self;; Ok self)%res.

(** The local [to_str] of [__str__] *)
Definition to_str (group : PyVal) : string :=
  match group with
  | PyNone => "NA"
  | PyGmapRecord seqid => seqid
  | PyString s => s
  | PyOther rendering => rendering
  end.

(** [MergeGroupOperation.__str__] *)
Definition op_str (self : MergeGroupOperation) : string :=
  join (String tab EmptyString)
       (map to_str [pbid self; group1 self; group2 self]).

(** [MegaInfoWriter.__init__]: the header line written to the file *)
Definition header (prefix1 prefix2 : string) : string :=
  join (String tab EmptyString) ["pbid"; prefix1; prefix2] +:+ String "010"%char EmptyString.

(** [MegaInfoWriter.writeRecord]: the line appended to the file. The
    argument is a [MergeGroupOperation] by typing, so the ValueError branch
    is not reachable here. *)
Definition writeRecord (file : list string) (record : MergeGroupOperation) : list string :=
  file ++ [op_str record +:+ String "010"%char EmptyString].

End MergeGroupIO.

(** ** counting/chain_samples.py *)

Module ChainSamples.
Import PyStr PyFormat.

(** Modelled from the spec: [pbtranscript.io.SampleFiles] is not among the
    sources. Section 3, ChainConfig: an ordered list of named samples, each
    with its own collapsed GFF, group file and abundance file paths; these
    are the four attributes [chain_samples] reads of a sample. *)
Record SampleFiles : Type := mkSampleFiles {
  name : string;
  gff_fn : string;
  group_fn : string;
  abundance_fn : string
}.

(** [ChainFiles] *)
Record ChainFiles : Type := mkChainFiles {
  o_prefix : string;
  o_gff_fn : string;
  o_group_fn : string;
  o_mega_fn : string
}.

(** [ChainFiles.__init__], with the default [_pprefix='tmp_'] *)
Definition ChainFiles_of (sample_name : string) : ChainFiles :=
  let o_prefix := "tmp_" +:+ sample_name in
  mkChainFiles o_prefix
               (o_prefix +:+ ".gff")
               (o_prefix +:+ ".group.txt")
               (o_prefix +:+ ".mega_info.txt").

(** Modelled from the spec: the records of [pbtranscript.io.AbundanceReader]
    are not among the sources. Section 3, AbundanceRecord: per isoform id, a
    set of named count and normalized-count metrics. [hasattr] and [getattr]
    on a metric name are lookups in [metrics]; a number (an int of any
    size, or a finite float) is given by its exact value. *)
Record AbundanceRecord : Type := mkAbundanceRecord {
  pbid : string;
  metrics : gmap string Q
}.

(** The files as the readers see them: the records [AbundanceReader]
    yields for an abundance file, and the rows [MegaInfoReader] (a
    [DictReader], one dict per line keyed by the header) yields for a
    mega-info file once the fold steps have written it. A file that is not
    there cannot be opened. *)
Record Files : Type := mkFiles {
  abundance_files : gmap string (list AbundanceRecord);
  mega_info_files : gmap string (list (gmap string string))
}.

(** Modelled from the spec: [pbtranscript.io.AbundanceReader] is not among
    the sources. Section 6: the abundance file is a table keyed by
    transcript id with named count columns, read here as its list of
    records. *)
Definition AbundanceReader (fs : Files) (fn : string) : Res (list AbundanceRecord) :=
  match abundance_files fs !! fn with
  | Some rs => Ok rs
  | None => Raise (IOError fn)
  end.

(** [MegaInfoReader] of io/MergeGroupIO.py: the rows of the [DictReader]. *)
Definition MegaInfoReader (fs : Files) (fn : string) : Res (list (gmap string string)) :=
  match mega_info_files fs !! fn with
  | Some rs => Ok rs
  | None => Raise (IOError fn)
  end.

(** [d[k]] on a dict *)
Definition getitem (r : gmap string string) (k : string) : Res string :=
  match r !! k with
  | Some v => Ok v
  | None => Raise (KeyError [k])
  end.

Definition no_field_msg : string := "%s abundance file does not have field %s".

(** The inner loop of [get_abundance_info] over the records of one
    sample. *)
Fixpoint read_abundance (sample : SampleFiles) (field_to_use : string)
         (rs : list AbundanceRecord) (abundance_info : gmap (string * string) Q)
  : Res (gmap (string * string) Q) :=
  match rs with
  | [] => Ok abundance_info
  | r :: rs' =>
      match metrics r !! field_to_use with
      | Some v =>
          read_abundance sample field_to_use rs'
                         (<[(name sample, pbid r) := v]> abundance_info)
      | None =>
          Raise (ValueError [no_field_msg; abundance_fn sample; field_to_use])
      end
  end.

Fixpoint get_abundance_info_from (fs : Files) (samples : list SampleFiles)
         (field_to_use : string) (abundance_info : gmap (string * string) Q)
  : Res (gmap (string * string) Q) :=
  match samples with
  | [] => Ok abundance_info
  | sample :: samples' =>
      (rs <- AbundanceReader fs (abundance_fn sample);;
       info <- read_abundance sample field_to_use rs abundance_info;;
       get_abundance_info_from fs samples' field_to_use info)%res
  end.

(** [get_abundance_info] *)
Definition get_abundance_info (fs : Files) (samples : list SampleFiles)
           (field_to_use : string) : Res (gmap (string * string) Q) :=
  get_abundance_info_from fs samples field_to_use ∅.

Fixpoint read_mega_info (o_prefix : string) (rs : list (gmap string string))
         (mega_info : gmap (string * string) (gmap string string))
  : Res (gmap (string * string) (gmap string string)) :=
  match rs with
  | [] => Ok mega_info
  | r :: rs' =>
      (p <- getitem r "pbid";;
       read_mega_info o_prefix rs' (<[(o_prefix, p) := r]> mega_info))%res
  end.

Fixpoint get_mega_info_dict_from (fs : Files) (samples : list SampleFiles)
         (mega_info : gmap (string * string) (gmap string string))
  : Res (gmap (string * string) (gmap string string)) :=
  match samples with
  | [] => Ok mega_info
  | sample :: samples' =>
      let ofs := ChainFiles_of (name sample) in
      (rs <- MegaInfoReader fs (o_mega_fn ofs);;
       d <- read_mega_info (o_prefix ofs) rs mega_info;;
       get_mega_info_dict_from fs samples' d)%res
  end.

(** [get_mega_info_dict] *)
Definition get_mega_info_dict (fs : Files) (samples : list SampleFiles)
  : Res (gmap (string * string) (gmap string string)) :=
  get_mega_info_dict_from fs samples ∅.

(** *** Folding the samples *)

(** A [MegaPBTree] (pbtranscript.counting, not among the sources), known
    by the arguments it is constructed with. *)
Record MegaPBTree : Type := mkMegaPBTree {
  gff_filename : string;
  group_filename : string;
  self_prefix : string;
  max_fuzzy_junction : Z
}.

(** Calls made by [chain_samples] to code outside this file. *)
Inductive Call : Type :=
| MegaPBTree_init (o : MegaPBTree)
| add_sample (o : MegaPBTree)
             (gff_filename group_filename sample_prefix : string)
             (o_gff_fn o_group_fn o_mega_fn : string)
| copyfile (src dst : string).

Definition new_tree (o : MegaPBTree) : Eff.M Call MegaPBTree :=
  (_ <- Eff.call (MegaPBTree_init o);; Eff.ret o)%eff.

(** The loop [for sample in cfg.samples[1:]] *)
Fixpoint fold_samples (max_fuzzy_junction : Z) (o : MegaPBTree)
         (samples : list SampleFiles) : Eff.M Call MegaPBTree :=
  match samples with
  | [] => Eff.ret o
  | sample :: samples' =>
      let ofs := ChainFiles_of (name sample) in
      (_ <- Eff.call (add_sample o (gff_fn sample) (group_fn sample) (name sample)
                                 (o_gff_fn ofs) (o_group_fn ofs) (o_mega_fn ofs));;
       o' <- new_tree (mkMegaPBTree (o_gff_fn ofs) (o_group_fn ofs) (o_prefix ofs)
                                    max_fuzzy_junction);;
       fold_samples max_fuzzy_junction o' samples')%eff
  end.

(** *** Resolving one mega transcript *)

(** The two [defaultdict(lambda: 'NA')] of one row. A key that was never
    assigned reads as 'NA'; an abundance is a number or that default. *)
Record Resolved : Type := mkResolved {
  chain_to_pbid : gmap string string;
  chain_to_abundance : gmap string Q
}.

Definition unresolved : Resolved := mkResolved ∅ ∅.

(** [chain_to_pbid[c] = r[c]], then, unless that id is 'NA',
    [chain_to_abundance[c] = abundance_info[c, chain_to_pbid[c]]]: the
    assignment made for the last sample, for each middle sample and for
    the first sample. *)
Definition record_sample (abundance_info : gmap (string * string) Q)
           (c : string) (r : gmap string string) (d : Resolved) : Res Resolved :=
  (v <- getitem r c;;
   let pbids := <[c := v]> (chain_to_pbid d) in
   if String.eqb v "NA" then Ok (mkResolved pbids (chain_to_abundance d))
   else match abundance_info !! (c, v) with
        | Some n => Ok (mkResolved pbids (<[c := n]> (chain_to_abundance d)))
        | None => Raise (KeyError [c; v])
        end)%res.

(** [chain[::-1][1:-1]]: the samples between the last and the first, from
    the latest to the earliest. *)
Definition walk_order (chain : list string) : list string :=
  removelast (tl (rev chain)).

(** The loop [for c in chain[::-1][1:-1]], returning the current record
    [r], [saw_NA] and the two dicts. *)
Fixpoint walk (abundance_info : gmap (string * string) Q)
         (mega_info_d : gmap (string * string) (gmap string string))
         (cs : list string) (r : gmap string string) (d : Resolved)
  : Res (gmap string string * bool * Resolved) :=
  match cs with
  | [] => Ok (r, false, d)
  | c :: cs' =>
      let prefix := o_prefix (ChainFiles_of c) in
      (v <- getitem r prefix;;
       if String.eqb v "NA" then Ok (r, true, d)
       else match mega_info_d !! (prefix, v) with
            | None => Raise (KeyError [prefix; v])
            | Some r2 =>
                d' <- record_sample abundance_info c r2 d;;
                walk abundance_info mega_info_d cs' r2 d'
            end)%res
  end.

(** [chain[-1]] and [chain[0]] *)
Definition last_item (chain : list string) : Res string :=
  match rev chain with
  | c :: _ => Ok c
  | [] => Raise IndexError
  end.

Definition first_item (chain : list string) : Res string :=
  match chain with
  | c :: _ => Ok c
  | [] => Raise IndexError
  end.

(** The cell written to all_samples.chained_ids.txt for sample [c] *)
Definition id_cell (d : Resolved) (c : string) : string :=
  default "NA" (chain_to_pbid d !! c).

(** The cell written to all_samples.chained_count.txt for sample [c]:
    ["NA" if (n == 'NA') else "%.4e" % n]. The % operator converts the
    number to a float before it formats it. *)
Definition count_cell (d : Resolved) (c : string) : Res string :=
  match chain_to_abundance d !! c with
  | None => Ok "NA"
  | Some n => (x <- to_float n;; Ok (format_e 4 x))%res
  end.

(** The body of [for r in reader]: the pbid and the cells of the two
    output rows of one mega transcript. *)
Definition resolve_row (abundance_info : gmap (string * string) Q)
           (mega_info_d : gmap (string * string) (gmap string string))
           (chain : list string) (r0 : gmap string string)
  : Res (string * list string * list string) :=
  (c_last <- last_item chain;;
   d <- record_sample abundance_info c_last r0 unresolved;;
   w <- walk abundance_info mega_info_d (walk_order chain) r0 d;;
   let '(r, saw_NA, d) := w in
   d <- (if saw_NA : bool then Ok d
         else c_first <- first_item chain;;
              record_sample abundance_info c_first r d);;
   p <- getitem r0 "pbid";;
   counts <- map_res (count_cell d) chain;;
   Ok (p, map (id_cell d) chain, counts))%res.

Fixpoint resolve_rows (abundance_info : gmap (string * string) Q)
         (mega_info_d : gmap (string * string) (gmap string string))
         (chain : list string) (rows : list (gmap string string))
  : Res (list (string * list string * list string)) :=
  match rows with
  | [] => Ok []
  | r :: rows' =>
      (x <- resolve_row abundance_info mega_info_d chain r;;
       xs <- resolve_rows abundance_info mega_info_d chain rows';;
       Ok (x :: xs))%res
  end.

Definition nl : string := String "010"%char EmptyString.

(** One line of an output file: the first field, then a tab before each
    cell, then a newline. *)
Definition line (first : string) (cells : list string) : string :=
  first +:+ String.concat "" (map (fun c => String tab c) cells) +:+ nl.

(** [chain_samples]: the calls it makes, and on normal completion the
    contents of all_samples.chained_ids.txt and
    all_samples.chained_count.txt. *)
Definition chain_samples (fs : Files) (samples : list SampleFiles)
           (field_to_use : string) (max_fuzzy_junction : Z)
  : Eff.M Call (list string * list string) :=
  (abundance_info <- Eff.lift (get_abundance_info fs samples field_to_use);;
   sample <- Eff.lift (match samples with s :: _ => Ok s | [] => Raise IndexError end);;
   o <- new_tree (mkMegaPBTree (gff_fn sample) (group_fn sample) (name sample)
                               max_fuzzy_junction);;
   _ <- fold_samples max_fuzzy_junction o (tl samples);;
   let chain := map name samples in
   mega_info_d <- Eff.lift (get_mega_info_dict fs (tl samples));;
   c_last <- Eff.lift (last_item chain);;
   rows <- Eff.lift (MegaInfoReader fs (o_mega_fn (ChainFiles_of c_last)));;
   out <- Eff.lift (resolve_rows abundance_info mega_info_d chain rows);;
   _ <- Eff.call (copyfile (o_gff_fn (ChainFiles_of c_last)) "all_samples.chained.gff");;
   Eff.ret (line "superPBID" chain :: map (fun x => line (fst (fst x)) (snd (fst x))) out,
            line "superPBID" chain :: map (fun x => line (fst (fst x)) (snd x)) out))%eff.

End ChainSamples.

(** ** collapsing/CollapseIsoforms.py *)

Module CollapseIsoforms.
Import PyStr.
Local Open Scope Z_scope.

(** *** os.path (posixpath), as used to derive the output prefix *)

Definition slash : ascii := "/"%char.

(** [(p[:i], p[i:])] for [i = p.rfind('/') + 1] *)
Fixpoint split_last_slash (p : string) : string * string :=
  match p with
  | EmptyString => (EmptyString, EmptyString)
  | String c p' =>
      let '(h, t) := split_last_slash p' in
      match h with
      | String _ _ => (String c h, t)
      | EmptyString =>
          if Ascii.eqb c slash then (String c EmptyString, p')
          else (EmptyString, String c t)
      end
  end.

Fixpoint all_slashes (s : string) : bool :=
  match s with
  | EmptyString => true
  | String c s' => Ascii.eqb c slash && all_slashes s'
  end.

Fixpoint rstrip_slash (s : string) : string :=
  match s with
  | EmptyString => EmptyString
  | String c s' =>
      match rstrip_slash s' with
      | EmptyString => if Ascii.eqb c slash then EmptyString else String c EmptyString
      | r => String c r
      end
  end.

Definition dirname (p : string) : string :=
  let head := fst (split_last_slash p) in
  if all_slashes head then head else rstrip_slash head.

Definition basename (p : string) : string := snd (split_last_slash p).

Definition ends_with_slash (s : string) : bool :=
  negb (String.eqb (rstrip_slash s) s).

(** [os.path.join(a, b)] *)
Definition path_join (a b : string) : string :=
  match b with
  | String c _ =>
      if Ascii.eqb c slash then b
      else if String.eqb a EmptyString || ends_with_slash a then a +:+ b
           else a +:+ String slash b
  | EmptyString =>
      if String.eqb a EmptyString || ends_with_slash a then a
      else a +:+ String slash EmptyString
  end.

(** *** Constants *)

Definition MIN_ALN_COVERAGE_DEFAULT : Q := 99 # 100.
Definition MIN_ALN_IDENTITY_DEFAULT : Q := 95 # 100.
Definition MAX_FUZZY_JUNCTION_DEFAULT : Z := 5.
Definition MIN_FLNC_COVERAGE_DEFAULT : Z := 2.
Definition ALLOW_EXTRA_5EXON_DEFAULT : bool := false.
Definition SKIP_5_EXON_ALT_DEFAULT : bool := false.

(** *** Alignment records and calls to other modules *)

Inductive Strand : Type := Plus | Minus.

(** Modelled from the spec: the SAM reader of [pbtranscript.io] is not
    among the sources. Section 2, AlignmentRecord: a parsed alignment of one
    query to one reference contig, with reference id, strand, start and end,
    and alignment coverage and identity scores. *)
Record AlignmentRecord : Type := mkAlignmentRecord {
  qID : string;
  sID : string;
  strand : Strand;
  sStart : Z;
  sEnd : Z;
  qCoverage : Q;
  identity : Q
}.

(** A writer is the file it was opened on; [None] when the file name is
    empty. *)
Definition writer_of (fn : string) : option string :=
  if String.eqb fn EmptyString then None else Some fn.

Inductive Call : Type :=
| check_ids_unique (isoform_filename : string)
| name_to_len_dict (isoform_filename : string)
| write_ignored_id (ignored_ids_writer : option string) (id : string)
| collapse_sam_records (records : list AlignmentRecord) (cuff_index : Z)
                       (cov_threshold : Z)
                       (allow_extra_5exon skip_5_exon_alt : bool)
                       (good_gff_writer bad_gff_writer group_writer : option string)
                       (tolerate_end : Z)
| close_writer (writer : string)
| collapse_fuzzy_junctions (gff_filename group_filename : string)
                           (fuzzy_gff_filename fuzzy_group_filename : string)
                           (allow_extra_5exon : bool) (max_fuzzy_junction : Z)
| ln (src dst : string)
| pick_rep (isoform_filename gff_filename group_filename output_filename : string)
           (pick_least_err_instead : bool) (bad_gff_filename : string).

(** The files as the code finds them: which paths exist, and the records
    of each SAM file in file order. The specification orders a SAM file
    by reference id without saying how two reference ids compare:
    [ref_compare] is the comparison the grouping stage uses, whatever it
    is. *)
Record Env : Type := mkEnv {
  path_exists : string -> bool;
  sam_records : string -> list AlignmentRecord;
  ref_compare : string -> string -> comparison
}.

(** *** iter_gmap_sam *)

(** Modelled from the spec: what the generator [iter_gmap_sam] (not among
    the sources) does between two requests of its consumer, in order.
    Section 4.1: it diverts a record to the ignored ids, produces a group
    partitioned by strand, or fails. *)
Inductive Item : Type :=
| Ignored (id : string)
| Group (by_strand : list (list AlignmentRecord))
| Fails (e : Exn).

(** Modelled from the spec: the order of section 4.1, by reference id and
    then by reference start; [(sID, sStart)] of [a] is not after that of
    [b], the reference ids being compared by [cmp]. *)
Definition ref_le (cmp : string -> string -> comparison) (a b : AlignmentRecord) : bool :=
  match cmp (sID a) (sID b) with
  | Lt => true
  | Eq => sStart a <=? sStart b
  | Gt => false
  end.


(** Modelled from the spec: section 4.1, a group is partitioned by strand,
    and a group without records is not produced. *)
Definition is_plus (r : AlignmentRecord) : bool :=
  match strand r with Plus => true | Minus => false end.

(** Modelled from the spec: section 4.1, two records never share a group
    if their strands differ. *)
Definition sep_by_strand (records : list AlignmentRecord) : list (list AlignmentRecord) :=
  [List.filter is_plus records; List.filter (fun r => negb (is_plus r)) records].

(** Modelled from the spec: section 4.1, the groups are produced one after
    the other; nothing is produced before the first record is grouped. *)
Definition yield_group (records : list AlignmentRecord) : list Item :=
  match records with
  | [] => []
  | _ => [Group (sep_by_strand records)]
  end.

(** Modelled from the spec: section 4.1, a record whose alignment coverage
    or identity falls below the configured threshold is ignored. *)
Definition below_thresholds (min_aln_coverage min_aln_identity : Q)
           (r : AlignmentRecord) : bool :=
  negb (Qle_bool min_aln_coverage (qCoverage r)) ||
  negb (Qle_bool min_aln_identity (identity r)).

(** Modelled from the spec: section 4.1, a record joins the group being
    built when it is on the same reference and its span overlaps the spans
    read so far. *)
Definition overlaps (records : list AlignmentRecord) (r : AlignmentRecord) : bool :=
  match records with
  | [] => false
  | r0 :: _ =>
      String.eqb (sID r) (sID r0) &&
      (sStart r <=? fold_right Z.max (sEnd r0) (map sEnd records))
  end.

(** Modelled from the spec: [pbtranscript.io.iter_gmap_sam] is not among
    the sources. Section 4.1: the stream must be sorted by (reference id,
    reference start) and the stage fails with an ordering violation when a
    record is found out of order; records below the coverage or identity
    threshold are diverted to the ignored ids and excluded from grouping;
    a group is a maximal run of records of one reference whose spans
    overlap transitively, split by strand. [prev] is the record read
    before, [records] the group being built. *)
Fixpoint iter_gmap_sam_from (cmp : string -> string -> comparison)
         (min_aln_coverage min_aln_identity : Q)
         (prev : option AlignmentRecord) (records : list AlignmentRecord)
         (rs : list AlignmentRecord) : list Item :=
  match rs with
  | [] => yield_group records
  | r :: rs' =>
      if match prev with Some p => negb (ref_le cmp p r) | None => false end
      then [Fails OrderingViolation]
      else if below_thresholds min_aln_coverage min_aln_identity r
      then Ignored (qID r)
           :: iter_gmap_sam_from cmp min_aln_coverage min_aln_identity (Some r) records rs'
      else if overlaps records r
      then iter_gmap_sam_from cmp min_aln_coverage min_aln_identity (Some r)
                              (records ++ [r]) rs'
      else yield_group records
           ++ iter_gmap_sam_from cmp min_aln_coverage min_aln_identity (Some r) [r] rs'
  end.

(** Modelled from the spec: [iter_gmap_sam] on the records of a SAM file,
    from its first record. *)
Definition iter_gmap_sam (env : Env) (sam_filename : string)
           (min_aln_coverage min_aln_identity : Q) : list Item :=
  iter_gmap_sam_from (ref_compare env) min_aln_coverage min_aln_identity None []
                     (sam_records env sam_filename).

(** *** Branch *)

Record Branch : Type := mkBranch {
  b_isoform_filename : string;
  b_sam_filename : string;
  cov_threshold : Z;
  b_min_aln_coverage : Q;
  b_min_aln_identity : Q
}.

(** [Branch.__init__] *)
Definition Branch_init (isoform_filename sam_filename : string)
           (cov_threshold : Z) (min_aln_coverage min_aln_identity : Q)
  : Eff.M Call Branch :=
  (_ <- Eff.call (name_to_len_dict isoform_filename);;
   Eff.ret (mkBranch isoform_filename sam_filename cov_threshold
                     min_aln_coverage min_aln_identity))%eff.

(** The loop [for records in recs.itervalues()] over one yielded group. *)
Fixpoint collapse_group (self : Branch) (allow_extra_5exon skip_5_exon_alt : bool)
         (good_gff_writer bad_gff_writer group_writer : option string)
         (tolerate_end : Z)
         (by_strand : list (list AlignmentRecord)) (cuff_index : Z) : Eff.M Call Z :=
  match by_strand with
  | [] => Eff.ret cuff_index
  | records :: rest =>
      match records with
      | [] =>
          collapse_group self allow_extra_5exon skip_5_exon_alt
                         good_gff_writer bad_gff_writer group_writer tolerate_end
                         rest cuff_index
      | _ =>
          (_ <- Eff.call (collapse_sam_records records cuff_index (cov_threshold self)
                                               allow_extra_5exon skip_5_exon_alt
                                               good_gff_writer bad_gff_writer group_writer
                                               tolerate_end);;
           collapse_group self allow_extra_5exon skip_5_exon_alt
                          good_gff_writer bad_gff_writer group_writer tolerate_end
                          rest (cuff_index + 1))%eff
      end
  end.

(** The loop [for recs in iter_gmap_sam(...)] *)
Fixpoint collapse_items (self : Branch) (allow_extra_5exon skip_5_exon_alt : bool)
         (ignored_ids_writer good_gff_writer bad_gff_writer group_writer : option string)
         (tolerate_end : Z)
         (items : list Item) (cuff_index : Z) : Eff.M Call Z :=
  match items with
  | [] => Eff.ret cuff_index
  | Ignored id :: items' =>
      (_ <- Eff.call (write_ignored_id ignored_ids_writer id);;
       collapse_items self allow_extra_5exon skip_5_exon_alt
                      ignored_ids_writer good_gff_writer bad_gff_writer group_writer
                      tolerate_end items' cuff_index)%eff
  | Group by_strand :: items' =>
      (i <- collapse_group self allow_extra_5exon skip_5_exon_alt
                           good_gff_writer bad_gff_writer group_writer tolerate_end
                           by_strand cuff_index;;
       collapse_items self allow_extra_5exon skip_5_exon_alt
                      ignored_ids_writer good_gff_writer bad_gff_writer group_writer
                      tolerate_end items' i)%eff
  | Fails e :: _ => Eff.lift (Raise e)
  end.

Fixpoint close_writers (writers : list (option string)) : Eff.M Call unit :=
  match writers with
  | [] => Eff.ret tt
  | None :: ws => close_writers ws
  | Some w :: ws => (_ <- Eff.call (close_writer w);; close_writers ws)%eff
  end.

(** [Branch.run] *)
Definition Branch_run (env : Env) (self : Branch)
           (allow_extra_5exon skip_5_exon_alt : bool)
           (ignored_ids_fn good_gff_fn bad_gff_fn group_fn : string)
           (tolerate_end : Z) : Eff.M Call unit :=
  let ignored_ids_writer := writer_of ignored_ids_fn in
  let good_gff_writer := writer_of good_gff_fn in
  let bad_gff_writer := writer_of bad_gff_fn in
  let group_writer := writer_of group_fn in
  (_ <- collapse_items self allow_extra_5exon skip_5_exon_alt
                       ignored_ids_writer good_gff_writer bad_gff_writer group_writer
                       tolerate_end
                       (iter_gmap_sam env (b_sam_filename self)
                                      (b_min_aln_coverage self) (b_min_aln_identity self))
                       1;;
   close_writers [ignored_ids_writer; good_gff_writer; bad_gff_writer; bad_gff_writer])%eff.

(** *** CollapsedFiles *)

Record CollapsedFiles : Type := mkCollapsedFiles {
  prefix : string;
  cf_allow_extra_5exon : bool
}.

Definition has_5merge_str (self : CollapsedFiles) : string :=
  if cf_allow_extra_5exon self then "5merge" else "no5merge".

Definition good_gff_fn (self : CollapsedFiles) : string :=
  prefix self +:+ "." +:+ has_5merge_str self +:+ ".collapsed.good.gff".
Definition bad_gff_fn (self : CollapsedFiles) : string :=
  prefix self +:+ "." +:+ has_5merge_str self +:+ ".collapsed.bad.gff".
Definition group_fn (self : CollapsedFiles) : string :=
  prefix self +:+ "." +:+ has_5merge_str self +:+ ".collapsed.group.txt".
Definition ignored_ids_txt_fn (self : CollapsedFiles) : string :=
  prefix self +:+ "." +:+ has_5merge_str self +:+ ".ignored_ids.txt".
Definition good_fuzzy_gff_fn (self : CollapsedFiles) : string := good_gff_fn self +:+ ".fuzzy".
Definition good_unfuzzy_gff_fn (self : CollapsedFiles) : string := good_gff_fn self +:+ ".unfuzzy".
Definition bad_fuzzy_gff_fn (self : CollapsedFiles) : string := bad_gff_fn self +:+ ".fuzzy".
Definition bad_unfuzzy_gff_fn (self : CollapsedFiles) : string := bad_gff_fn self +:+ ".unfuzzy".
Definition fuzzy_group_fn (self : CollapsedFiles) : string := group_fn self +:+ ".fuzzy".
Definition unfuzzy_group_fn (self : CollapsedFiles) : string := group_fn self +:+ ".unfuzzy".

(** *** CollapseIsoformsRunner *)

Record CollapseIsoformsRunner : Type := mkRunner {
  files : CollapsedFiles;
  isoform_filename : string;
  sam_filename : string;
  collapsed_isoform_filename : string;
  min_aln_coverage : Q;
  min_aln_identity : Q;
  min_flnc_coverage : Z;
  max_fuzzy_junction : Z;
  skip_5_exon_alt : bool
}.

(** [self.allow_extra_5exon]: the attribute set by [CollapsedFiles] and
    set again, to the same truth value, by the runner. *)
Definition allow_extra_5exon (self : CollapseIsoformsRunner) : bool :=
  cf_allow_extra_5exon (files self).

(** [CollapseIsoformsRunner.__init__] *)
Definition new (isoform_filename sam_filename collapsed_isoform_filename : string)
           (min_aln_coverage min_aln_identity : Q)
           (min_flnc_coverage max_fuzzy_junction : Z)
           (allow_extra_5exon skip_5_exon_alt : bool) : CollapseIsoformsRunner :=
  let prefix :=
    path_join (dirname collapsed_isoform_filename)
              (hd EmptyString (split "."%char (basename collapsed_isoform_filename))) in
  mkRunner (mkCollapsedFiles prefix allow_extra_5exon)
           isoform_filename sam_filename collapsed_isoform_filename
           min_aln_coverage min_aln_identity
           min_flnc_coverage max_fuzzy_junction skip_5_exon_alt.

(** [shall_collapse_fuzzy_junctions] *)
Definition shall_collapse_fuzzy_junctions (self : CollapseIsoformsRunner) : bool :=
  0 <? max_fuzzy_junction self.

(** [CollapseIsoformsRunner.validate_inputs] *)
Definition validate_inputs (env : Env) (self : CollapseIsoformsRunner) : Eff.M Call unit :=
  if negb (path_exists env (isoform_filename self)) then
    Eff.lift (Raise (IOError ("Input isoforms file " +:+ isoform_filename self
                                                    +:+ " does not exist")))
  else if negb (path_exists env (sam_filename self)) then
    Eff.lift (Raise (IOError ("Input SAM file " +:+ sam_filename self
                                               +:+ " does not exist")))
  else Eff.call (check_ids_unique (isoform_filename self)).

(** [CollapseIsoformsRunner.run] *)
Definition run (env : Env) (self : CollapseIsoformsRunner) : Eff.M Call unit :=
  let f := files self in
  (_ <- validate_inputs env self;;
   b <- Branch_init (isoform_filename self) (sam_filename self)
                    (min_flnc_coverage self)
                    (min_aln_coverage self) (min_aln_identity self);;
   _ <- Branch_run env b (allow_extra_5exon self) (skip_5_exon_alt self)
                   (ignored_ids_txt_fn f) (good_unfuzzy_gff_fn f)
                   (bad_unfuzzy_gff_fn f) (unfuzzy_group_fn f) 100;;
   _ <- (if shall_collapse_fuzzy_junctions self then
           _ <- Eff.call (collapse_fuzzy_junctions
                            (good_unfuzzy_gff_fn f) (unfuzzy_group_fn f)
                            (good_fuzzy_gff_fn f) (fuzzy_group_fn f)
                            (allow_extra_5exon self) (max_fuzzy_junction self));;
           _ <- Eff.call (ln (good_fuzzy_gff_fn f) (good_gff_fn f));;
           Eff.call (ln (fuzzy_group_fn f) (group_fn f))
         else
           _ <- Eff.call (ln (good_unfuzzy_gff_fn f) (good_gff_fn f));;
           Eff.call (ln (unfuzzy_group_fn f) (group_fn f)));;
   let pick_least_err_instead := negb (allow_extra_5exon self) in
   Eff.call (pick_rep (isoform_filename self) (good_gff_fn f) (group_fn f)
                      (collapsed_isoform_filename self)
                      pick_least_err_instead (bad_gff_fn f)))%eff.

End CollapseIsoforms.

(** ** counting/Count.py *)

Module Count.

(** What [cPickle.load] may return: a dict from str to dicts (sample
    prefix to cluster output directory), or an object that cannot be
    indexed by a str. *)
Inductive PyObj : Type :=
| PyDict (entries : gmap string (gmap string string))
| PyNotIndexable.

(** The files as the code finds them: which paths exist, what
    [cPickle.load(open(fn, 'rb'))] does on a file, and the two pickle
    paths [IceFiles] derives from a cluster output directory. *)
Record Env : Type := mkEnv {
  path_exists : string -> bool;
  load_pickle : string -> Res PyObj;
  final_pickle_fn : string -> string;
  nfl_all_pickle_fn : string -> string
}.

Inductive Call : Type :=
| read_group_file (group_filename : string) (sample_prefixes : list string)
| output_read_count_FL (prefix_pickle_filename_tuples : list (string * string))
                       (output_filename output_mode : string)
| output_read_count_nFL (prefix_pickle_filename_tuples : list (string * string))
                        (output_filename output_mode : string)
| make_abundance_file (read_stat_filename output_filename : string).

Record CountRunner : Type := mkCountRunner {
  read_stat_fn : string;
  abundance_fn : string;
  group_filename : string;
  pickle_filename : string;
  prefix_dict : gmap string string
}.

Definition no_group_msg (fn : string) : string :=
  "Input group file " +:+ fn +:+ " does not exist".
Definition no_pickle_msg (fn : string) : string :=
  "Input hq lq prefix dict pickle file " +:+ fn +:+ " does not exist".
Definition not_loaded_msg (fn : string) : string :=
  "Could not load sample prefix dict (a['HQ']) from pickle " +:+ fn.

(** [CountRunner.validate_inputs] *)
Definition validate_inputs (env : Env) (group_filename pickle_filename : string)
  : Res unit :=
  if negb (path_exists env group_filename) then
    Raise (IOError (no_group_msg group_filename))
  else if negb (path_exists env pickle_filename) then
    Raise (IOError (no_pickle_msg pickle_filename))
  else Ok tt.

(** [o['HQ']] *)
Definition getitem (o : PyObj) (k : string) : Res (gmap string string) :=
  match o with
  | PyDict entries =>
      match entries !! k with
      | Some v => Ok v
      | None => Raise (KeyError [k])
      end
  | PyNotIndexable => Raise TypeError
  end.

(** The classes of [except (ValueError, KeyError, IOError)] *)
Definition caught (e : Exn) : bool :=
  match e with
  | ValueError _ | KeyError _ | IOError _ => true
  | _ => false
  end.

(** [CountRunner.__init__] *)
Definition new (env : Env) (group_filename pickle_filename : string)
           (output_read_stat_filename output_abundance_filename : string)
  : Res CountRunner :=
  (_ <- validate_inputs env group_filename pickle_filename;;
   prefix_dict <-
     match (o <- load_pickle env pickle_filename;; getitem o "HQ")%res with
     | Ok d => Ok d
     | Raise e =>
         if caught e then Raise (ValueError [not_loaded_msg pickle_filename])
         else Raise e
     end;;
   Ok (mkCountRunner output_read_stat_filename output_abundance_filename
                     group_filename pickle_filename prefix_dict))%res.

(** [k if not k.endswith('|') else k[0:-1]] *)
Fixpoint strip_bar (k : string) : string :=
  match k with
  | EmptyString => EmptyString
  | String c EmptyString => if Ascii.eqb c "|"%char then EmptyString else k
  | String c k' => String c (strip_bar k')
  end.

(** [CountRunner.sample_prefixes] *)
Definition sample_prefixes (self : CountRunner) : list string :=
  map (fun kv => strip_bar (fst kv)) (map_to_list (prefix_dict self)).

Fixpoint pickle_tuples (env : Env) (pickle_fn : string -> string) (kind : string)
         (items : list (string * string)) : Res (list (string * string)) :=
  match items with
  | [] => Ok []
  | (sample_prefix, cluster_out_d) :: items' =>
      let sample_prefix := strip_bar sample_prefix in
      let fn := pickle_fn cluster_out_d in
      if negb (path_exists env fn) then
        Raise (IOError (kind +:+ " pickle " +:+ fn +:+ " of sample prefix "
                             +:+ sample_prefix +:+ " does not exist."))
      else (ret <- pickle_tuples env pickle_fn kind items';;
            Ok ((sample_prefix, fn) :: ret))%res
  end.

(** [CountRunner.prefix_fl_pickle_tuples], [prefix_nfl_pickle_tuples] *)
Definition prefix_fl_pickle_tuples (env : Env) (self : CountRunner) :=
  pickle_tuples env (final_pickle_fn env) "FL" (map_to_list (prefix_dict self)).
Definition prefix_nfl_pickle_tuples (env : Env) (self : CountRunner) :=
  pickle_tuples env (nfl_all_pickle_fn env) "NFL" (map_to_list (prefix_dict self)).

(** [CountRunner.run]: the read-status and abundance outputs are produced
    by the calls it makes. *)
Definition run (env : Env) (self : CountRunner) : Eff.M Call unit :=
  (_ <- Eff.call (read_group_file (group_filename self) (sample_prefixes self));;
   fl <- Eff.lift (prefix_fl_pickle_tuples env self);;
   _ <- Eff.call (output_read_count_FL fl (read_stat_fn self) "w");;
   nfl <- Eff.lift (prefix_nfl_pickle_tuples env self);;
   _ <- Eff.call (output_read_count_nFL nfl (read_stat_fn self) "a");;
   Eff.call (make_abundance_file (read_stat_fn self) (abundance_fn self)))%eff.


End Count.

(** ** io/GroupIO.py: reading and writing group files *)

Module GroupFile.
Import PyStr GroupIO.

Definition newline : ascii := "010"%char.
Definition hash : ascii := "#"%char.

(** [len(line) > 0 and line[0] != "#"] *)
Definition is_record_line (line : string) : bool :=
  match line with
  | EmptyString => false
  | String c _ => negb (Ascii.eqb c hash)
  end.

Definition invalid_file_msg (file_name : string) : string :=
  "Invalid Group file " +:+ file_name +:+ ".".

(** The handler [except AssertionError] of [GroupReader.__iter__]: an
    AssertionError becomes a ValueError naming the file, any other
    exception passes. *)
Definition reraise (file_name : string) (e : Exn) : Exn :=
  match e with
  | AssertionError => ValueError [invalid_file_msg file_name]
  | _ => e
  end.

(** The loop [for line in lines] of the generator: what it yields, in
    order. An exception ends the stream. *)
Fixpoint iter_lines (file_name : string) (lines : list string) : list (Res GroupRecord) :=
  match lines with
  | [] => []
  | line :: lines' =>
      let line := strip line in
      if is_record_line line then
        match fromString line with
        | Ok r => Ok r :: iter_lines file_name lines'
        | Raise e => [Raise (reraise file_name e)]
        end
      else iter_lines file_name lines'
  end.

(** [GroupReader.__iter__] on a file with the given name and contents;
    [splitFileContents(f, "\n")] of pbcore yields the fields of
    [f.read().split("\n")]. *)
Definition GroupReader (file_name content : string) : list (Res GroupRecord) :=
  iter_lines file_name (split newline content).

(** [GroupWriter.writeRecord]: the contents of the file after the write.
    The argument is a [GroupRecord] by typing, so the ValueError branch is
    not reachable here. *)
Definition writeRecord (file : string) (record : GroupRecord) : string :=
  file +:+ to_str record +:+ String newline EmptyString.

End GroupFile.

(** ** tasks/map_isoforms_to_genome.py *)

Module MapIsoformsToGenome.
Import CollapseIsoforms.
Local Open Scope Z_scope.

Definition GMAP_NPROC_ID : string := "pbtranscript.task_options.gmap_nproc".
Definition GMAP_NPROC_DEFAULT : Z := 24.

(** What [GmapReferenceSet(fn)] of pbcore gives for a file: it raises, or
    it is a dataset, of which only the resource ids
    [externalResources.resources[i].externalResources.resources[j].resourceId]
    are read. *)
Record Env : Type := mkEnv {
  GmapReferenceSet : string -> Res (list (list string))
}.

(** [l[0]] *)
Definition first_of {A} (l : list A) : Res A :=
  match l with
  | x :: _ => Ok x
  | [] => Raise IndexError
  end.

(** [l[1]] *)
Definition second_of {A} (l : list A) : Res A :=
  match l with
  | _ :: x :: _ => Ok x
  | _ => Raise IndexError
  end.

Definition no_json_msg (gmap_ds_filename : string) : string :=
  "Could not get gmap_build.json file from " +:+ gmap_ds_filename.

(** [gmap_db_and_name_from_ds] *)
Definition gmap_db_and_name_from_ds (env : Env) (gmap_ds_filename : string)
  : Res (string * string) :=
  (gmap_ds <- GmapReferenceSet env gmap_ds_filename;;
   match (resource <- first_of gmap_ds;;
          json_fn <- first_of resource;;
          Ok (dirname (dirname json_fn), basename (dirname json_fn)))%res with
   | Ok r => Ok r
   | Raise (ValueError _) | Raise IndexError =>
       Raise (IOError (no_json_msg gmap_ds_filename))
   | Raise e => Raise e
   end)%res.

(** The parsed command line: [--gmap_name], [--gmap_db] and [--gmap_ds]
    default to [None]. *)
Record Args : Type := mkArgs {
  input_filename : string;
  sam_filename : string;
  gmap_name : option string;
  gmap_db : option string;
  gmap_ds : option string;
  gmap_nproc : Z
}.

(** The resolved tool contract, as far as it is read. *)
Record Rtc : Type := mkRtc {
  input_files : list string;
  output_files : list string;
  options : gmap string Z
}.

Inductive Call : Type :=
| map_isoforms_and_sort (input_filename sam_filename : string)
                        (gmap_db_dir gmap_db_name : option string) (gmap_nproc : Z).

(** [args_runner] *)
Definition args_runner (env : Env) (args : Args) : Eff.M Call Z :=
  (dn <- Eff.lift (match gmap_ds args with
                   | Some ds =>
                       (r <- gmap_db_and_name_from_ds env ds;;
                        Ok (Some (fst r), Some (snd r)))%res
                   | None => Ok (gmap_db args, gmap_name args)
                   end);;
   _ <- Eff.call (map_isoforms_and_sort (input_filename args) (sam_filename args)
                                        (fst dn) (snd dn) (gmap_nproc args));;
   Eff.ret 0)%eff.

(** [resolved_tool_contract_runner] *)
Definition resolved_tool_contract_runner (env : Env) (rtc : Rtc) : Eff.M Call Z :=
  (dn <- Eff.lift (ds <- second_of (input_files rtc);;
                   gmap_db_and_name_from_ds env ds)%res;;
   input <- Eff.lift (first_of (input_files rtc));;
   sam <- Eff.lift (first_of (output_files rtc));;
   nproc <- Eff.lift (match options rtc !! GMAP_NPROC_ID with
                      | Some n => Ok n
                      | None => Raise (KeyError [GMAP_NPROC_ID])
                      end);;
   _ <- Eff.call (map_isoforms_and_sort input sam (Some (fst dn)) (Some (snd dn)) nproc);;
   Eff.ret 0)%eff.

End MapIsoformsToGenome.

(** ** ice/IceQuiverMerge.py *)

Module IceQuiverMerge.
Import PyStr PyFormat.
Local Open Scope Z_scope.

(** [str(n)] for an int *)
Definition str_int (n : Z) : string :=
  if n <? 0 then "-" +:+ decimal (- n) else decimal n.

(** [range(0, n)] *)
Definition range (n : Z) : list Z := map Z.of_nat (seq 0 (Z.to_nat n)).

(** What the run finds: which files exist for [nfs_exists], the name
    [ICE_QUIVER_PY] of the script, and the two paths an [IceQuiver] object
    derives from its root directory (pbtranscript.ice.IceQuiver is not
    among the sources, the paths are whatever it gives). *)
Record Env : Type := mkEnv {
  nfs_exists : string -> bool;
  ICE_QUIVER_PY : string;
  submitted_quiver_jobs_log_of_chunk_i : string -> Z -> Z -> string;
  submitted_quiver_jobs_log : string -> string
}.

Inductive Call : Type :=
| IceQuiver_init (root_dir prog_name : string)
| add_log (msg : string)
| cat_files (src : list string) (dst : string)
| close_log.

Record IceQuiverMerge : Type := mkIceQuiverMerge {
  root_dir : string;
  N : Z
}.

(** [IceQuiverMerge.prog] *)
Definition prog (env : Env) : string := ICE_QUIVER_PY env +:+ " merge".

(** [IceQuiverMerge._cmd_str] *)
Definition _cmd_str (env : Env) (root_dir : string) (N : Z) : string :=
  join " " [prog env; root_dir; str_int N].

(** [IceQuiverMerge.cmd_str] *)
Definition cmd_str (env : Env) (self : IceQuiverMerge) : string :=
  _cmd_str env (root_dir self) (N self).

Definition no_log_msg (f : string) : string :=
  "Log " +:+ f +:+ " " +:+ "of submitted quiver jobs does not exist.".

(** The loop [for f in src] *)
Fixpoint check_logs (env : Env) (src : list string) : Res unit :=
  match src with
  | [] => Ok tt
  | f :: src' =>
      if negb (nfs_exists env f) then Raise (IOError (no_log_msg f))
      else check_logs env src'
  end.

Definition newline : string := String "010"%char EmptyString.

(** [IceQuiverMerge.run] *)
Definition run (env : Env) (self : IceQuiverMerge) : Eff.M Call unit :=
  (_ <- Eff.call (IceQuiver_init (root_dir self) "ice_quiver_merge");;
   _ <- Eff.call (add_log (cmd_str env self));;
   _ <- Eff.call (add_log ("root_dir: " +:+ root_dir self +:+ "."));;
   _ <- Eff.call (add_log ("Total number of chunks: N = " +:+ str_int (N self) +:+ "."));;
   let src := map (fun i => submitted_quiver_jobs_log_of_chunk_i env (root_dir self) i (N self))
                  (range (N self)) in
   _ <- Eff.lift (check_logs env src);;
   let dst := submitted_quiver_jobs_log env (root_dir self) in
   _ <- Eff.call (add_log ("Collecting submitted quiver jobs from:" +:+ newline
                             +:+ join newline src +:+ newline +:+ "to " +:+ dst +:+ "."));;
   _ <- Eff.call (cat_files src dst);;
   Eff.call close_log)%eff.

(** [IceQuiverMergeRunner.run]: the return code; any exception of the run
    is caught and logged. *)
Definition Runner_run (env : Env) (root_dir : string) (N : Z) : Eff.M Call Z :=
  fun oracle tr =>
    match run env (mkIceQuiverMerge root_dir N) oracle tr with
    | (tr', Ok _) => (tr', Ok 0)
    | (tr', Raise _) => (tr', Ok 1)
    end.

End IceQuiverMerge.

(** ** Significant digits of a formatted number *)

Module PyFormatSpec.
Import PyFormat.
Local Open Scope Z_scope.

(** [s] is written in scientific notation with [digits] significant digits:
    a mantissa of [digits] digits whose first digit is not zero, the point
    after the first digit. *)
Definition significant_digits (digits : nat) (s : string) : Prop :=
  exists (negative : bool) (m d : Z),
    10 ^ (Z.of_nat digits - 1) <= m < 10 ^ Z.of_nat digits /\
    1 <= m / 10 ^ (Z.of_nat digits - 1) <= 9 /\
    String.length (fixed_digits (digits - 1) m) = (digits - 1)%nat /\
    s = ((if negative then "-" else "") +:+
         render_mantissa (digits - 1) m +:+ "e" +:+ render_exponent d)%string.

End PyFormatSpec.

(** ** Records that a group file line can carry *)

Module GroupIOSpec.
Import PyStr GroupIO.

(** The conditions under which the specification promises the round trip:
    no tab in the name, a non-empty member list, no tab or comma in a
    member. *)
Definition well_delimited (r : GroupRecord) : Prop :=
  contains tab (name r) = false /\
  members r <> [] /\
  Forall (fun m => contains tab m = false /\ contains comma m = false) (members r).

End GroupIOSpec.

(** ** Abundance files without a field *)

Module ChainAbundanceSpec.
Import ChainSamples.

(** The abundance file of [s] has a record without the attribute
    [field]. *)
Definition lacks_field (fs : Files) (field : string) (s : SampleFiles) : Prop :=
  exists rs r,
    abundance_files fs !! abundance_fn s = Some rs /\
    r ∈ rs /\ metrics r !! field = None.

End ChainAbundanceSpec.

(** ** The left-associative chain of fold steps *)

Module ChainFoldSpec.
Import ChainSamples.

(** The tree built from the first sample, and the tree built from the
    files a fold step wrote for sample [s]: the accumulated result of the
    samples up to [s]. *)
Definition sample_tree (mfj : Z) (s : SampleFiles) : MegaPBTree :=
  mkMegaPBTree (gff_fn s) (group_fn s) (name s) mfj.

Definition chained_tree (mfj : Z) (s : SampleFiles) : MegaPBTree :=
  let ofs := ChainFiles_of (name s) in
  mkMegaPBTree (o_gff_fn ofs) (o_group_fn ofs) (o_prefix ofs) mfj.

(** One fold step: sample [s] is merged into the accumulated tree [acc],
    writing the gff, group and mega_info files named after [s]. *)
Definition fold_step (acc : MegaPBTree) (s : SampleFiles) : Call :=
  let ofs := ChainFiles_of (name s) in
  add_sample acc (gff_fn s) (group_fn s) (name s)
             (o_gff_fn ofs) (o_group_fn ofs) (o_mega_fn ofs).

(** The left-associative chain over [rest] starting from [acc]: the k-th
    sample of [rest] is merged into the tree chained from the (k-1)-th, the
    first one into [acc]. *)
Definition left_chain (mfj : Z) (acc : MegaPBTree) (rest : list SampleFiles) : list Call :=
  zip_with fold_step (acc :: map (chained_tree mfj) rest) rest.

(** The fold steps among the calls of a run, in order. *)
Definition is_add_sample (c : Call) : bool :=
  match c with add_sample _ _ _ _ _ _ _ => true | _ => false end.

(** The mega_info file a fold step writes. *)
Definition mega_fn_of (c : Call) : option string :=
  match c with add_sample _ _ _ _ _ _ m => Some m | _ => None end.

Definition add_samples (tr : list Call) : list Call :=
  List.filter is_add_sample tr.

End ChainFoldSpec.

(** ** The state of the backward walk *)

Module ChainResolveSpec.
Import PyFormat ChainSamples.

Implicit Types (ab : gmap (string * string) Q)
         (mi : gmap (string * string) (gmap string string))
         (r : gmap string string) (d : Resolved) (c s : string)
         (chain cs : list string).

(** The walk that starts from row [r0] has gone past the samples [before]
    without meeting 'NA', and holds the record [r] and the dicts [d]. *)
Definition walk_reaches ab mi chain (r0 : gmap string string) (before : list string)
           r d : Prop :=
  exists c_last d0,
    last_item chain = Ok c_last /\
    record_sample ab c_last r0 unresolved = Ok d0 /\
    walk ab mi before r0 d0 = Ok (r, false, d).

(** Each sample that was assigned an id other than 'NA' holds the
    abundance found under (sample, id); every other sample holds none. *)
Definition consistent ab d : Prop :=
  forall c,
    match chain_to_pbid d !! c with
    | None => chain_to_abundance d !! c = None
    | Some v =>
        (v = "NA" /\ chain_to_abundance d !! c = None) \/
        (v <> "NA" /\ exists n, ab !! (c, v) = Some n /\
                                chain_to_abundance d !! c = Some n)
    end.

(** Every abundance held for a sample was found in the abundance map
    under that sample's name. *)
Definition sourced ab d : Prop :=
  forall c n, chain_to_abundance d !! c = Some n ->
              exists id, ab !! (c, id) = Some n.

(** Scientific notation with [n] significant digits, in the words of the
    specification: one digit before the point and [n - 1] after it. *)
Definition scientific (n : nat) (x : Q) : string := format_e (n - 1) x.

(** A chain of two samples: the transcript is PB.1.1 in s1, with 30
    full-length reads, and absent from s2. *)
Definition two_sample_abundance : gmap (string * string) Q :=
  {[ ("s1", "PB.1.1") := 30 # 1 ]}.

Definition two_sample_row : gmap string string :=
  list_to_map [("pbid", "PB.1.1"); ("s1", "PB.1.1"); ("s2", "NA")].

(** A chain in which the first and the last sample have the same name: the
    transcript is PB.7.1 in the last sample, with 5 full-length reads, and
    has no counterpart in the chain up to B. *)
Definition repeated_name_chain : list string := ["A"; "B"; "A"].

Definition repeated_name_abundance : gmap (string * string) Q :=
  {[ ("A", "PB.7.1") := 5 # 1 ]}.

Definition repeated_name_row : gmap string string :=
  list_to_map [("pbid", "PB.2.1"); ("tmp_B", "NA"); ("A", "PB.7.1")].

End ChainResolveSpec.

(** ** Three samples to chain *)

Module ChainExampleData.
Import ChainSamples.

Definition s1 : SampleFiles := mkSampleFiles "s1" "1.gff" "1.group.txt" "1.abundance.txt".

Definition s2 : SampleFiles := mkSampleFiles "s2" "2.gff" "2.group.txt" "2.abundance.txt".

Definition s3 : SampleFiles := mkSampleFiles "s3" "3.gff" "3.group.txt" "3.abundance.txt".

Definition counts (fl nfl : Q) : gmap string Q :=
  {[ "count_fl" := fl; "count_nfl" := nfl ]}.

(** tmp_s2.mega_info.txt: PB.1.1 of s1 has no counterpart in s2. *)
Definition mega_s2 : list (gmap string string) :=
  [ list_to_map [("pbid", "PB.1.1"); ("s1", "PB.1.1"); ("s2", "NA")] ].

(** tmp_s3.mega_info.txt: that lineage has no counterpart in s3 either,
    and PB.2.1 is private to s3. *)
Definition mega_s3 : list (gmap string string) :=
  [ list_to_map [("pbid", "PB.1.1"); ("tmp_s2", "PB.1.1"); ("s3", "NA")];
    list_to_map [("pbid", "PB.2.1"); ("tmp_s2", "NA"); ("s3", "PB.7.1")] ].

Definition files : Files :=
  mkFiles
    {[ "1.abundance.txt" := [mkAbundanceRecord "PB.1.1" (counts (30 # 1) (12 # 1))];
       "2.abundance.txt" := [];
       "3.abundance.txt" := [mkAbundanceRecord "PB.7.1" (counts (5 # 1) (1 # 2))] ]}
    {[ "tmp_s2.mega_info.txt" := mega_s2;
       "tmp_s3.mega_info.txt" := mega_s3 ]}.

Definition abundance_info : gmap (string * string) Q :=
  {[ ("s1", "PB.1.1") := 30 # 1; ("s3", "PB.7.1") := 5 # 1 ]}.

Definition mega_info_d : gmap (string * string) (gmap string string) :=
  {[ ("tmp_s2", "PB.1.1") := list_to_map [("pbid", "PB.1.1"); ("s1", "PB.1.1"); ("s2", "NA")] ]}.

Definition private_row : gmap string string :=
  list_to_map [("pbid", "PB.2.1"); ("tmp_s2", "NA"); ("s3", "PB.7.1")].

End ChainExampleData.

(** ** The calls of a collapse run, by stage *)

Module CollapseIsoformsSpec.
Import CollapseIsoforms.
Local Open Scope Z_scope.

(** [m] extends the history only by calls that [P] rejects. *)
Definition silent (P : Call -> bool) {A} (m : Eff.M Call A) : Prop :=
  forall oracle tr tr' res,
    m oracle tr = (tr', res) ->
    exists ext, tr' = tr ++ ext /\ List.filter P ext = [].

(** The calls of the fuzzy stage and after: collapsing fuzzy junctions,
    linking the final files, picking representatives. *)
Definition is_late (c : Call) : bool :=
  match c with
  | collapse_fuzzy_junctions _ _ _ _ _ _ | ln _ _ | pick_rep _ _ _ _ _ _ => true
  | _ => false
  end.

Definition is_stage_call (c : Call) : bool :=
  match c with
  | collapse_fuzzy_junctions _ _ _ _ _ _ | ln _ _ => true
  | _ => false
  end.

Definition is_pick_rep (c : Call) : bool :=
  match c with
  | pick_rep _ _ _ _ _ _ => true
  | _ => false
  end.

(** The calls [run] makes from the fuzzy stage on, when nothing raises. *)
Definition late_calls (self : CollapseIsoformsRunner) : list Call :=
  let f := files self in
  (if shall_collapse_fuzzy_junctions self then
     [collapse_fuzzy_junctions (good_unfuzzy_gff_fn f) (unfuzzy_group_fn f)
                               (good_fuzzy_gff_fn f) (fuzzy_group_fn f)
                               (allow_extra_5exon self) (max_fuzzy_junction self);
      ln (good_fuzzy_gff_fn f) (good_gff_fn f);
      ln (fuzzy_group_fn f) (group_fn f)]
   else
     [ln (good_unfuzzy_gff_fn f) (good_gff_fn f);
      ln (unfuzzy_group_fn f) (group_fn f)])
  ++ [pick_rep (isoform_filename self) (good_gff_fn f) (group_fn f)
               (collapsed_isoform_filename self)
               (negb (allow_extra_5exon self)) (bad_gff_fn f)].

(** A sequence of calls made one after the other. *)
Fixpoint calls (cs : list Call) : Eff.M Call unit :=
  match cs with
  | [] => Eff.ret tt
  | c :: cs' => (_ <- Eff.call c;; calls cs')%eff
  end.

End CollapseIsoformsSpec.

(** ** Streams of the grouping stage *)

Module BranchSpec.
Import CollapseIsoforms.
Local Open Scope Z_scope.



End BranchSpec.

(** ** A small SAM file to collapse *)

Module CollapseExampleData.
Import CollapseIsoforms.
Local Open Scope Z_scope.

Definition aln (q s : string) (st : Strand) (a b : Z) : AlignmentRecord :=
  mkAlignmentRecord q s st a b 1 1.

Definition sorted_sam : list AlignmentRecord :=
  [aln "i0" "chr1" Plus 10 100; aln "i1" "chr1" Plus 50 120; aln "i2" "chr2" Minus 5 90].

Definition unsorted_sam : list AlignmentRecord :=
  [aln "i0" "chr1" Plus 10 100; aln "i2" "chr2" Minus 5 90; aln "i1" "chr1" Plus 50 120].

Definition env : Env :=
  mkEnv (fun _ => true)
        (fun fn => if String.eqb fn "sorted.sam" then sorted_sam else unsorted_sam)
        String.compare.



Definition runner (max_fuzzy_junction : Z) (allow_extra_5exon : bool)
  : CollapseIsoformsRunner :=
  new "hq.fasta" "sorted.sam" "out/collapsed.fastq"
      MIN_ALN_COVERAGE_DEFAULT MIN_ALN_IDENTITY_DEFAULT
      MIN_FLNC_COVERAGE_DEFAULT max_fuzzy_junction allow_extra_5exon
      SKIP_5_EXON_ALT_DEFAULT.

End CollapseExampleData.

(** ** Pickles of the count runner *)

Module CountSpec.
Import Count.




End CountSpec.

(** ** Records that survive a group file *)

Module GroupFileSpec.
Import PyStr GroupIO GroupIOSpec GroupFile.

(** A record whose line is read back as it was written: its fields are
    well delimited, the line has no white space at either end and no
    newline inside, and the name is not empty and does not start a
    comment. *)
Definition writable (r : GroupRecord) : Prop :=
  well_delimited r /\
  strip (to_str r) = to_str r /\
  contains newline (to_str r) = false /\
  is_record_line (name r) = true.

(** The contents of a new file after the records were written to it one
    after the other. *)
Definition writeRecords (records : list GroupRecord) : string :=
  fold_left writeRecord records EmptyString.

(** The same contents, line by line. *)
Definition written (records : list GroupRecord) : string :=
  fold_right (fun r s => to_str r +:+ String newline s) EmptyString records.

End GroupFileSpec.

(** ** Rows and calls of a chaining run *)

Module ChainRowSpec.
Import ChainSamples.

(** A row the backward walk may hold: the row being resolved, or a row of
    the mega-info map. *)
Definition known_row (mi : gmap (string * string) (gmap string string))
           (r0 r : gmap string string) : Prop :=
  r = r0 \/ exists key, mi !! key = Some r.

(** Every id assigned to a sample was read in the column of that sample
    of a known row. *)
Definition ids_read (mi : gmap (string * string) (gmap string string))
           (r0 : gmap string string) (d : Resolved) : Prop :=
  forall c v, chain_to_pbid d !! c = Some v ->
              exists r, known_row mi r0 r /\ r !! c = Some v.

Definition is_copyfile (c : Call) : bool :=
  match c with copyfile _ _ => true | _ => false end.

(** A row of tmp_s3.mega_info.txt that names an id of the chain up to s2
    which tmp_s2.mega_info.txt does not have. *)
Definition dangling_row : gmap string string :=
  list_to_map [("pbid", "PB.3.1"); ("tmp_s2", "PB.9.9"); ("s3", "NA")].

(** A row that names an id of s3 which the abundance file of s3 does not
    have. *)
Definition uncounted_row : gmap string string :=
  list_to_map [("pbid", "PB.4.1"); ("tmp_s2", "NA"); ("s3", "PB.8.8")].

End ChainRowSpec.

(** ** The columns of a mega-info line *)

Module MegaInfoSpec.
Import PyStr.

(** A line without its final newline. *)
Fixpoint chomp (line : string) : string :=
  match line with
  | EmptyString => EmptyString
  | String c EmptyString => if Ascii.eqb c "010"%char then EmptyString else line
  | String c rest => String c (chomp rest)
  end.

(** The tab-separated fields of a line of the file. *)
Definition fields (line : string) : list string := split tab (chomp line).

End MegaInfoSpec.

(** ** Files and calls of a collapse run *)

Module CollapseMoreSpec.
Import CollapseIsoforms.
Local Open Scope Z_scope.

(** The ten file names [CollapsedFiles] derives from a prefix. *)
Definition output_files (self : CollapsedFiles) : list string :=
  [good_gff_fn self; bad_gff_fn self; group_fn self; ignored_ids_txt_fn self;
   good_fuzzy_gff_fn self; good_unfuzzy_gff_fn self;
   bad_fuzzy_gff_fn self; bad_unfuzzy_gff_fn self;
   fuzzy_group_fn self; unfuzzy_group_fn self].

(** The [cuff_index] arguments of the calls of [collapse_sam_records], in
    the order of the calls. *)
Definition cuff_index_of (c : Call) : option Z :=
  match c with
  | collapse_sam_records _ i _ _ _ _ _ _ _ => Some i
  | _ => None
  end.

Definition cuff_indices (tr : list Call) : list Z := omap cuff_index_of tr.

(** [n] consecutive integers from [i]. *)
Fixpoint Z_from (i : Z) (n : nat) : list Z :=
  match n with
  | O => []
  | S n' => i :: Z_from (i + 1) n'
  end.

(** A call of [collapse_sam_records] as [Branch.run] makes it: on records,
    with the threshold of the branch, the flags and the writers of the
    run. *)
Definition collapses_for (self : Branch) (allow_extra_5exon skip_5_exon_alt : bool)
           (good_gff_writer bad_gff_writer group_writer : option string)
           (tolerate_end : Z) (c : Call) : Prop :=
  match c with
  | collapse_sam_records records _ cov a5 s5 gw bw grw te =>
      records <> [] /\ cov = cov_threshold self /\
      a5 = allow_extra_5exon /\ s5 = skip_5_exon_alt /\
      gw = good_gff_writer /\ bw = bad_gff_writer /\ grw = group_writer /\
      te = tolerate_end
  | _ => True
  end.

(** What the loops of [Branch.run] add to the history from index [i]: calls
    numbered consecutively from [i], each one made as [collapses_for]
    says; the index returned is the next one. *)
Definition numbered (self : Branch) (allow_extra_5exon skip_5_exon_alt : bool)
           (good_gff_writer bad_gff_writer group_writer : option string)
           (tolerate_end : Z) (i : Z) (ext : list Call) (res : Res Z) : Prop :=
  cuff_indices ext = Z_from i (length (cuff_indices ext)) /\
  (forall j, res = Ok j -> j = i + Z.of_nat (length (cuff_indices ext))) /\
  Forall (collapses_for self allow_extra_5exon skip_5_exon_alt
                        good_gff_writer bad_gff_writer group_writer tolerate_end) ext.

Definition is_loop_call (c : Call) : bool :=
  match c with
  | write_ignored_id _ _ | collapse_sam_records _ _ _ _ _ _ _ _ _ => true
  | _ => false
  end.

Definition is_close_writer (c : Call) : bool :=
  match c with close_writer _ => true | _ => false end.

(** The writers [Branch.run] closes when it completes, in order. *)
Definition closed_writers (ignored_ids_fn good_gff_fn bad_gff_fn : string) : list Call :=
  map close_writer (omap writer_of [ignored_ids_fn; good_gff_fn; bad_gff_fn; bad_gff_fn]).

(** The files of the example, without one of them. *)
Definition env_without (missing : string) : Env :=
  mkEnv (fun fn => negb (String.eqb fn missing)) (sam_records CollapseExampleData.env)
        (ref_compare CollapseExampleData.env).

End CollapseMoreSpec.

(** ** The calls of a count run *)

Module CountMoreSpec.
Import Count.

(** The calls [CountRunner.run] makes when no call raises: the group file
    is read, then the read status of the FL reads is written if every FL
    pickle is there, then that of the nFL reads is appended and the
    abundance file made if every nFL pickle is there. *)
Definition expected_calls (env : Env) (self : CountRunner) : list Call :=
  read_group_file (group_filename self) (sample_prefixes self) ::
  match prefix_fl_pickle_tuples env self with
  | Raise _ => []
  | Ok fl =>
      output_read_count_FL fl (read_stat_fn self) "w" ::
      match prefix_nfl_pickle_tuples env self with
      | Raise _ => []
      | Ok nfl =>
          [output_read_count_nFL nfl (read_stat_fn self) "a";
           make_abundance_file (read_stat_fn self) (abundance_fn self)]
      end
  end.

(** What a run raises when no call raises. *)
Definition expected_result (env : Env) (self : CountRunner) : Res unit :=
  match prefix_fl_pickle_tuples env self with
  | Raise e => Raise e
  | Ok _ =>
      match prefix_nfl_pickle_tuples env self with
      | Raise e => Raise e
      | Ok _ => Ok tt
      end
  end.

Definition missing_msg (kind fn sample_prefix : string) : string :=
  kind +:+ " pickle " +:+ fn +:+ " of sample prefix " +:+ sample_prefix
       +:+ " does not exist.".

(** Two samples clustered in d1 and d2; the nFL pickle of d2 is missing. *)
Definition two_samples : CountRunner :=
  mkCountRunner "read_stat.txt" "abundance.txt" "c.group.txt" "hq_lq_pre_dict.pickle"
                {[ "s1|" := "d1"; "s2" := "d2" ]}.

Definition no_nfl_env : Env :=
  mkEnv (fun fn => negb (String.eqb fn "d2/nfl.pickle"))
        (fun _ => Raise EOFError)
        (fun d => d +:+ "/final.pickle")
        (fun d => d +:+ "/nfl.pickle").

End CountMoreSpec.

(** ** A GMAP reference set and chunk logs *)

Module MapIsoformsSpec.
Import MapIsoformsToGenome.
Local Open Scope Z_scope.

(** One reference set whose gmap_build.json is in /db/SIRV, one without
    resources; no other file can be read. *)
Definition gmap_env : Env :=
  mkEnv (fun fn =>
           if String.eqb fn "sirv.gmapreferenceset.xml"
           then Ok [["/db" +:+ "/" +:+ "SIRV" +:+ "/" +:+ "gmap_build.json"]]
           else if String.eqb fn "empty.gmapreferenceset.xml" then Ok []
                else Raise (IOError fn)).

Definition with_ds (ds : string) : Args :=
  mkArgs "hq_isoforms.fastq" "out.sam" (Some "ignored_name") (Some "/ignored_db") (Some ds) 24.

End MapIsoformsSpec.

Module IceQuiverMergeSpec.
Import IceQuiverMerge.
Local Open Scope Z_scope.

(** The logs [run] collects, in order. *)
Definition chunk_logs (env : Env) (self : IceQuiverMerge) : list string :=
  map (fun i => submitted_quiver_jobs_log_of_chunk_i env (root_dir self) i (N self))
      (range (N self)).

(** The calls of a run in which no call fails, and what it returns. *)
Definition expected_calls (env : Env) (self : IceQuiverMerge) : list Call :=
  [IceQuiver_init (root_dir self) "ice_quiver_merge";
   add_log (cmd_str env self);
   add_log ("root_dir: " +:+ root_dir self +:+ ".");
   add_log ("Total number of chunks: N = " +:+ str_int (N self) +:+ ".")]
  ++ match check_logs env (chunk_logs env self) with
     | Raise _ => []
     | Ok _ =>
         [add_log ("Collecting submitted quiver jobs from:" +:+ newline
                     +:+ PyStr.join newline (chunk_logs env self) +:+ newline
                     +:+ "to " +:+ submitted_quiver_jobs_log env (root_dir self) +:+ ".");
          cat_files (chunk_logs env self) (submitted_quiver_jobs_log env (root_dir self));
          close_log]
     end.

Definition expected_result (env : Env) (self : IceQuiverMerge) : Res unit :=
  match check_logs env (chunk_logs env self) with
  | Raise e => Raise e
  | Ok _ => Ok tt
  end.

(** Three chunks; the log of chunk 1 is missing. *)
Definition three_chunks : IceQuiverMerge := mkIceQuiverMerge "out" 3.

Definition chunk_env : Env :=
  mkEnv (fun f => negb (String.eqb f "out/log/jobs.1of3.txt"))
        "ice_quiver.py"
        (fun d i n => d +:+ "/log/jobs." +:+ str_int i +:+ "of" +:+ str_int n +:+ ".txt")
        (fun d => d +:+ "/log/jobs.txt").

End IceQuiverMergeSpec.
(** ** Facts about the string primitives *)

Module PyStrFacts.
Import PyStr.

Lemma split_no_sep sep s :
  contains sep s = false -> split sep s = [s].
Proof.
  induction s as [|c s IH]; simpl; [reflexivity|].
  intros H. apply orb_false_iff in H as [Hc Hs].
  rewrite Hc, (IH Hs). reflexivity.
Qed.

Lemma split_app_sep sep a b :
  contains sep a = false ->
  split sep (a +:+ String sep b) = a :: split sep b.
Proof.
  induction a as [|c a IH]; simpl.
  - intros _. rewrite Ascii.eqb_refl. reflexivity.
  - intros H. apply orb_false_iff in H as [Hc Ha].
    rewrite Hc, (IH Ha). reflexivity.
Qed.

Lemma contains_app c a b :
  contains c (a +:+ b) = contains c a || contains c b.
Proof.
  induction a as [|d a IH]; simpl; [reflexivity|].
  rewrite IH. apply orb_assoc.
Qed.

Lemma contains_join c sep l :
  Ascii.eqb sep c = false ->
  Forall (fun m => contains c m = false) l ->
  contains c (join (String sep EmptyString) l) = false.
Proof.
  intros Hsep. induction 1 as [|m l Hm Hl IH]; simpl; [reflexivity|].
  destruct l as [|m' l']; [exact Hm|].
  rewrite !contains_app, Hm, IH. simpl. rewrite Hsep. reflexivity.
Qed.

Lemma split_join sep l :
  l <> [] ->
  Forall (fun m => contains sep m = false) l ->
  split sep (join (String sep EmptyString) l) = l.
Proof.
  intros Hne H. induction H as [|m l Hm Hl IH]; [congruence|].
  destruct l as [|m' l'].
  - simpl. apply split_no_sep, Hm.
  - change (join (String sep EmptyString) (m :: m' :: l'))
      with (m +:+ String sep EmptyString +:+ join (String sep EmptyString) (m' :: l')).
    change (String sep EmptyString +:+ ?x) with (String sep x).
    rewrite split_app_sep by exact Hm.
    f_equal. apply IH. congruence.
Qed.

(** Splitting never loses characters: joining the fields again gives the
    string back. *)
Lemma join_split sep s :
  join (String sep EmptyString) (split sep s) = s.
Proof.
  induction s as [|c s IH]; simpl; [reflexivity|].
  destruct (Ascii.eqb_spec c sep) as [->|Hne].
  - destruct (split sep s) as [|f fs] eqn:E.
    + simpl in IH. subst s. simpl in E. discriminate.
    + change (join (String sep EmptyString) (EmptyString :: f :: fs))
        with (String sep (join (String sep EmptyString) (f :: fs))).
      rewrite IH. reflexivity.
  - destruct (split sep s) as [|f fs] eqn:E.
    + simpl in IH. subst s. reflexivity.
    + destruct fs as [|g gs]; simpl in *; rewrite <- IH; reflexivity.
Qed.

End PyStrFacts.


(** ** Equations of the call monad *)

Module EffFacts.
Section WithCalls.
Context {Call : Type}.
Implicit Types (oracle : Eff.Oracle Call) (tr : list Call).

Lemma bind_ret {A B} (a : A) (k : A -> Eff.M Call B) oracle tr :
  Eff.bind (Eff.ret a) k oracle tr = k a oracle tr.
Proof. reflexivity. Qed.

Lemma bind_lift {A B} (r : Res A) (k : A -> Eff.M Call B) oracle tr :
  Eff.bind (Eff.lift r) k oracle tr
  = match r with
    | Ok a => k a oracle tr
    | Raise e => (tr, Raise e)
    end.
Proof. destruct r; reflexivity. Qed.

Lemma bind_call {B} (c : Call) (k : unit -> Eff.M Call B) oracle tr :
  Eff.bind (Eff.call c) k oracle tr
  = match oracle tr c with
    | Some e => (tr ++ [c], Raise e)
    | None => k tt oracle (tr ++ [c])
    end.
Proof. unfold Eff.bind, Eff.call. destruct (oracle tr c); reflexivity. Qed.

Lemma bind_assoc {A B C} (m : Eff.M Call A) (k : A -> Eff.M Call B)
      (h : B -> Eff.M Call C) oracle tr :
  Eff.bind (Eff.bind m k) h oracle tr
  = Eff.bind m (fun a => Eff.bind (k a) h) oracle tr.
Proof.
  unfold Eff.bind. destruct (m oracle tr) as [tr' [a|e]]; reflexivity.
Qed.
End WithCalls.
End EffFacts.

(** ** The number of significant digits of [%e] *)

Module PyFormatFacts.
Import PyFormat PyFormatSpec.
Local Open Scope Z_scope.

Lemma pow10_pos e : 0 < 10 ^ e \/ e < 0.
Proof.
  destruct (Z_lt_le_dec e 0) as [H|H]; [right; exact H|left].
  apply Z.pow_pos_nonneg; lia.
Qed.

Lemma pow10_num_pos e : 0 < pow10_num e.
Proof. unfold pow10_num. apply Z.pow_pos_nonneg; lia. Qed.

Lemma pow10_den_pos e : 0 < pow10_den e.
Proof. unfold pow10_den. apply Z.pow_pos_nonneg; lia. Qed.

(** [10 ^ x * 10 ^ y = 10 ^ (x + y)], on the fractions. *)
Lemma pow10_split x y :
  0 <= x + y ->
  pow10_num x * pow10_num y = 10 ^ (x + y) * (pow10_den x * pow10_den y).
Proof.
  intros H. unfold pow10_num, pow10_den.
  destruct (Z_lt_le_dec x 0) as [Hx|Hx]; destruct (Z_lt_le_dec y 0) as [Hy|Hy];
    try lia.
  - rewrite (Z.max_r x 0), (Z.max_l (- x) 0), (Z.max_l y 0), (Z.max_r (- y) 0) by lia.
    rewrite Z.pow_0_r, Z.mul_1_l, Z.mul_1_r, <- Z.pow_add_r by lia.
    f_equal. lia.
  - rewrite (Z.max_l x 0), (Z.max_r (- x) 0), (Z.max_r y 0), (Z.max_l (- y) 0) by lia.
    rewrite Z.pow_0_r, Z.mul_1_l, Z.mul_1_r, <- Z.pow_add_r by lia.
    f_equal. lia.
  - rewrite (Z.max_l x 0), (Z.max_r (- x) 0), (Z.max_l y 0), (Z.max_r (- y) 0) by lia.
    rewrite Z.pow_0_r, !Z.mul_1_r, <- Z.pow_add_r by lia. reflexivity.
Qed.

Lemma pow10_ratio x y :
  0 <= x -> 0 <= y ->
  10 ^ x * pow10_den (x - y) = 10 ^ y * pow10_num (x - y).
Proof.
  intros Hx Hy.
  pose proof (pow10_split (x - y) y ltac:(lia)) as H.
  replace (x - y + y) with x in H by lia.
  unfold pow10_num at 2 in H. unfold pow10_den at 2 in H.
  rewrite (Z.max_l y 0), (Z.max_r (- y) 0), Z.pow_0_r in H by lia. lia.
Qed.

Lemma ndigits_fuel_spec fuel :
  forall n, 0 < n -> n < 10 ^ (Z.of_nat fuel + 1) ->
            1 <= ndigits_fuel fuel n /\
            10 ^ (ndigits_fuel fuel n - 1) <= n < 10 ^ ndigits_fuel fuel n.
Proof.
  induction fuel as [|fuel IH]; intros n Hn Hlt.
  - simpl in *. lia.
  - cbn [ndigits_fuel]. destruct (Z.ltb_spec n 10) as [H10|H10].
    + simpl. lia.
    + assert (Hq : 0 < n / 10) by (apply Z.div_str_pos; lia).
      assert (Hqlt : n / 10 < 10 ^ (Z.of_nat fuel + 1)).
      { apply Z.div_lt_upper_bound; [lia|].
        replace (Z.of_nat (S fuel) + 1) with (Z.succ (Z.of_nat fuel + 1)) in Hlt by lia.
        rewrite Z.pow_succ_r in Hlt by lia. exact Hlt. }
      destruct (IH _ Hq Hqlt) as (H1 & Hlo & Hhi).
      split; [lia|].
      replace (1 + ndigits_fuel fuel (n / 10) - 1)
        with (Z.succ (ndigits_fuel fuel (n / 10) - 1)) by lia.
      replace (1 + ndigits_fuel fuel (n / 10))
        with (Z.succ (ndigits_fuel fuel (n / 10))) by lia.
      rewrite !Z.pow_succ_r by lia.
      pose proof (Z.div_mod n 10 ltac:(lia)) as Hdm.
      pose proof (Z.mod_pos_bound n 10 ltac:(lia)) as Hm.
      lia.
Qed.

Lemma ndigits_spec n :
  0 < n -> 1 <= ndigits n /\ 10 ^ (ndigits n - 1) <= n < 10 ^ ndigits n.
Proof.
  intros Hn. unfold ndigits. apply ndigits_fuel_spec; [exact Hn|].
  destruct (Z.log2_spec n Hn) as [_ Hhi].
  rewrite Z2Nat.id by apply Z.log2_nonneg.
  eapply Z.lt_le_trans; [exact Hhi|].
  replace (Z.succ (Z.log2 n)) with (Z.log2 n + 1) by lia.
  apply Z.pow_le_mono_l. lia.
Qed.

(** [exponent10 a b] is the decimal exponent of [a / b]. *)
Lemma exponent10_spec a b :
  0 < a -> 0 < b ->
  ge_pow10 a b (exponent10 a b) = true /\
  ge_pow10 a b (exponent10 a b + 1) = false.
Proof.
  intros Ha Hb.
  destruct (ndigits_spec a Ha) as (Ha1 & Halo & Hahi).
  destruct (ndigits_spec b Hb) as (Hb1 & Hblo & Hbhi).
  set (na := ndigits a) in *. set (nb := ndigits b) in *.
  assert (Hlow : ge_pow10 a b (na - nb - 1) = true).
  { unfold ge_pow10. apply Z.leb_le.
    pose proof (pow10_ratio (na - 1) nb ltac:(lia) ltac:(lia)) as R.
    replace (na - 1 - nb) with (na - nb - 1) in R by lia.
    pose proof (pow10_num_pos (na - nb - 1)). pose proof (pow10_den_pos (na - nb - 1)).
    nia. }
  assert (Hhigh : ge_pow10 a b (na - nb + 1) = false).
  { unfold ge_pow10. apply Z.leb_gt.
    pose proof (pow10_ratio na (nb - 1) ltac:(lia) ltac:(lia)) as R.
    replace (na - (nb - 1)) with (na - nb + 1) in R by lia.
    pose proof (pow10_num_pos (na - nb + 1)). pose proof (pow10_den_pos (na - nb + 1)).
    nia. }
  unfold exponent10. fold na nb.
  destruct (ge_pow10 a b (na - nb)) eqn:E.
  - split; [exact E|exact Hhigh].
  - replace (na - nb - 1 + 1) with (na - nb) by lia. split; [exact Hlow|exact E].
Qed.

Lemma round_half_even_bounds num den lo hi :
  0 < den -> lo * den <= num -> num < hi * den ->
  lo <= round_half_even num den <= hi.
Proof.
  intros Hd Hlo Hhi.
  assert (Hq : lo <= num / den < hi).
  { split.
    - apply Z.div_le_lower_bound; lia.
    - apply Z.div_lt_upper_bound; lia. }
  unfold round_half_even.
  destruct (2 * (num mod den) <? den); [lia|].
  destruct (den <? 2 * (num mod den)); [lia|].
  destruct (Z.even (num / den)); lia.
Qed.

(** The mantissa has exactly [prec + 1] digits and its leading digit is not
    zero: [%.<prec>e] writes [prec + 1] significant digits. *)
Lemma sci_parts_mantissa prec a b :
  0 < a -> 0 < b ->
  10 ^ Z.of_nat prec <= fst (sci_parts prec a b) < 10 ^ (Z.of_nat prec + 1).
Proof.
  intros Ha Hb. unfold sci_parts.
  set (p := Z.of_nat prec). set (d := exponent10 a b).
  assert (Hp : 0 <= p) by (subst p; lia).
  assert (Hpow : 0 < 10 ^ p) by (apply Z.pow_pos_nonneg; lia).
  assert (Hpow1 : 10 ^ (p + 1) = 10 * 10 ^ p).
  { replace (p + 1) with (Z.succ p) by lia. apply Z.pow_succ_r, Hp. }
  destruct (exponent10_spec a b Ha Hb) as [Hge Hlt]. fold d in Hge, Hlt.
  unfold ge_pow10 in Hge, Hlt. apply Z.leb_le in Hge. apply Z.leb_gt in Hlt.
  pose proof (pow10_num_pos (p - d)) as Hn. pose proof (pow10_den_pos (p - d)) as Hdn.
  pose proof (pow10_num_pos d). pose proof (pow10_den_pos d).
  pose proof (pow10_num_pos (d + 1)). pose proof (pow10_den_pos (d + 1)).
  assert (Hm : 10 ^ p <= round_half_even (a * pow10_num (p - d)) (b * pow10_den (p - d))
               <= 10 ^ (p + 1)).
  { apply round_half_even_bounds; [nia| |].
    - pose proof (pow10_split (p - d) d ltac:(lia)) as S.
      replace (p - d + d) with p in S by lia.
      apply (proj2 (Z.mul_le_mono_pos_r _ _ (pow10_num d) ltac:(assumption))).
      replace (10 ^ p * (b * pow10_den (p - d)) * pow10_num d)
        with (10 ^ p * pow10_den (p - d) * (b * pow10_num d)) by ring.
      replace (a * pow10_num (p - d) * pow10_num d)
        with (10 ^ p * pow10_den (p - d) * (a * pow10_den d))
        by (rewrite <- (Z.mul_assoc a), S; ring).
      apply Z.mul_le_mono_nonneg_l; [nia|exact Hge].
    - pose proof (pow10_split (p - d) (d + 1) ltac:(lia)) as S.
      replace (p - d + (d + 1)) with (p + 1) in S by lia.
      apply (proj2 (Z.mul_lt_mono_pos_r (pow10_num (d + 1)) _ _ ltac:(assumption))).
      replace (a * pow10_num (p - d) * pow10_num (d + 1))
        with (10 ^ (p + 1) * pow10_den (p - d) * (a * pow10_den (d + 1)))
        by (rewrite <- (Z.mul_assoc a), S; ring).
      replace (10 ^ (p + 1) * (b * pow10_den (p - d)) * pow10_num (d + 1))
        with (10 ^ (p + 1) * pow10_den (p - d) * (b * pow10_num (d + 1))) by ring.
      apply Z.mul_lt_mono_pos_l; [nia|exact Hlt]. }
  destruct (Z.leb_spec (10 ^ (p + 1))
                       (round_half_even (a * pow10_num (p - d)) (b * pow10_den (p - d))));
    simpl; lia.
Qed.

Lemma length_append (s t : string) :
  String.length (s +:+ t) = (String.length s + String.length t)%nat.
Proof. induction s as [|c s IH]; simpl; [reflexivity|]. rewrite IH. reflexivity. Qed.

Lemma fixed_digits_length w :
  forall n, String.length (fixed_digits w n) = w.
Proof.
  induction w as [|w IH]; intros n; [reflexivity|].
  cbn [fixed_digits]. rewrite length_append, IH. simpl. lia.
Qed.

(** ["%.<prec>e" % x] has [prec + 1] significant digits, for every [x]
    other than zero. *)
Lemma format_e_significant_digits prec x :
  Qnum x <> 0 -> significant_digits (S prec) (format_e prec x).
Proof.
  intros Hx. unfold format_e.
  assert (Ha : 0 < Z.abs (Qnum x)) by lia.
  destruct (Z.eqb_spec (Z.abs (Qnum x)) 0) as [E|_]; [lia|].
  pose proof (sci_parts_mantissa prec (Z.abs (Qnum x)) (Z.pos (Qden x)) Ha ltac:(lia)) as Hm.
  destruct (sci_parts prec (Z.abs (Qnum x)) (Z.pos (Qden x))) as [m d]. simpl in Hm.
  exists (Qnum x <? 0), m, d.
  replace (Z.of_nat (S prec) - 1) with (Z.of_nat prec) by lia.
  replace (Z.of_nat (S prec)) with (Z.of_nat prec + 1) by lia.
  replace (S prec - 1)%nat with prec by lia.
  assert (Hpow : 0 < 10 ^ Z.of_nat prec) by (apply Z.pow_pos_nonneg; lia).
  assert (Hpow1 : 10 ^ (Z.of_nat prec + 1) = 10 * 10 ^ Z.of_nat prec).
  { replace (Z.of_nat prec + 1) with (Z.succ (Z.of_nat prec)) by lia.
    apply Z.pow_succ_r. lia. }
  split; [exact Hm|]. split; [|split; [apply fixed_digits_length|reflexivity]].
  split.
  - apply Z.div_le_lower_bound; lia.
  - assert (m / 10 ^ Z.of_nat prec < 10); [|lia].
    apply Z.div_lt_upper_bound; lia.
Qed.

End PyFormatFacts.

(** ** The conversion to a double *)

Module ToFloatFacts.
Import PyFormat.
Local Open Scope Z_scope.

(** The only exception of the conversion is OverflowError. *)
Lemma to_float_raise x e : to_float x = Raise e -> e = OverflowError.
Proof.
  unfold to_float.
  destruct (Z.abs (Qnum x) =? 0); [discriminate|].
  destruct (double_parts (Z.abs (Qnum x)) (Z.pos (Qden x))) as [m q].
  destruct ((0 <=? q) && (2 ^ 1024 <=? m * 2 ^ q)); [|discriminate].
  intros H. injection H as <-. reflexivity.
Qed.

Lemma floor_log2_int a : 0 < a -> floor_log2 a 1 = Z.log2 a.
Proof.
  intros Ha. unfold floor_log2.
  change (Z.log2 1) with 0. rewrite Z.sub_0_r.
  pose proof (Z.log2_nonneg a) as Hn.
  rewrite (Z.max_l (Z.log2 a) 0), (Z.max_r (- Z.log2 a) 0) by lia.
  destruct (Z.log2_spec a Ha) as [Hlo _].
  destruct (Z.leb_spec (1 * 2 ^ Z.log2 a) (a * 2 ^ 0)) as [_|H]; [reflexivity|].
  rewrite Z.pow_0_r in H. lia.
Qed.

Lemma round_half_even_int n : round_half_even n 1 = n.
Proof.
  unfold round_half_even. rewrite Z.div_1_r, Z.mod_1_r. reflexivity.
Qed.

Lemma Qred_int n : Qred (n # 1) = n # 1.
Proof.
  unfold Qred.
  pose proof (Z.ggcd_gcd n 1) as Hg.
  pose proof (Z.ggcd_correct_divisors n 1) as Hd.
  destruct (Z.ggcd n 1) as [g [aa bb]]. simpl in *.
  rewrite Z.gcd_1_r in Hg. subst g. destruct Hd as [Ha Hb].
  rewrite Z.mul_1_l in Ha, Hb. subst aa bb. reflexivity.
Qed.

(** An int of magnitude below [2 ^ 53] is a double: the conversion gives
    the int itself. *)
Lemma to_float_int n : Z.abs n < 2 ^ 53 -> to_float (n # 1) = Ok (n # 1).
Proof.
  intros Hn. unfold to_float. cbn [Qnum Qden].
  destruct (Z.eqb_spec (Z.abs n) 0) as [H0|H0].
  { assert (n = 0) as -> by lia. reflexivity. }
  assert (Ha : 0 < Z.abs n) by lia.
  unfold double_parts. rewrite (floor_log2_int _ Ha).
  assert (Hl : 0 <= Z.log2 (Z.abs n) < 53).
  { split; [apply Z.log2_nonneg|]. apply Z.log2_lt_pow2; lia. }
  set (k := 52 - Z.log2 (Z.abs n)).
  assert (Hq : Z.max (Z.log2 (Z.abs n) - 52) (-1074) = - k) by (unfold k; lia).
  rewrite Hq.
  rewrite (Z.max_l (- - k) 0), (Z.max_r (- k) 0) by (unfold k; lia).
  rewrite Z.opp_involutive, Z.pow_0_r, Z.mul_1_r, round_half_even_int.
  assert (Hpow : 0 < 2 ^ k) by (apply Z.pow_pos_nonneg; unfold k; lia).
  assert (Hov : (0 <=? - k) && (2 ^ 1024 <=? Z.abs n * 2 ^ k * 2 ^ (- k)) = false).
  { destruct (Z.leb_spec 0 (- k)) as [Hk|Hk]; [|reflexivity].
    assert (k = 0) as -> by (unfold k in *; lia).
    simpl Z.opp. rewrite Z.pow_0_r, !Z.mul_1_r.
    apply andb_false_iff. right. apply Z.leb_gt.
    apply Z.lt_trans with (2 ^ 53); [exact Hn|].
    apply Z.pow_lt_mono_r; lia. }
  rewrite Hov. f_equal.
  rewrite <- (Qred_int n). apply Qred_complete.
  unfold Qeq. cbn [Qnum Qden].
  rewrite Z2Pos.id by exact Hpow.
  rewrite <- Z.mul_assoc, (Z.mul_assoc (Z.sgn n)), Z.sgn_abs.
  change (Z.pos 1) with 1. lia.
Qed.

End ToFloatFacts.

(** ** Lists built element by element *)

Module ResFacts.

Lemma map_res_cons {A B} (f : A -> Res B) x l :
  map_res f (x :: l)
  = match f x with
    | Raise e => Raise e
    | Ok y => match map_res f l with Raise e => Raise e | Ok ys => Ok (y :: ys) end
    end.
Proof. reflexivity. Qed.

(** A list that was built has one element per element of the list it was
    built from, the value of [f] there. *)
Lemma map_res_lookup {A B} (f : A -> Res B) l ys :
  map_res f l = Ok ys ->
  length ys = length l /\
  forall k x, l !! k = Some x -> exists y, ys !! k = Some y /\ f x = Ok y.
Proof.
  revert ys. induction l as [|x l IH]; intros ys H.
  - injection H as <-. split; [reflexivity|]. intros k x Hk. discriminate Hk.
  - rewrite map_res_cons in H.
    destruct (f x) as [y|e] eqn:Hy; [|discriminate].
    destruct (map_res f l) as [ys'|e]; [|discriminate].
    injection H as <-. destruct (IH ys' eq_refl) as [Hlen Hl].
    split; [simpl; f_equal; exact Hlen|].
    intros [|k] x0 Hk.
    + injection Hk as <-. exists y. split; [reflexivity|exact Hy].
    + apply (Hl k x0 Hk).
Qed.

(** The exception of a list that was not built is that of [f] on one of
    the elements. *)
Lemma map_res_raise {A B} (f : A -> Res B) l e :
  map_res f l = Raise e -> exists k x, l !! k = Some x /\ f x = Raise e.
Proof.
  induction l as [|x l IH]; intros H; [discriminate|].
  rewrite map_res_cons in H.
  destruct (f x) as [y|e'] eqn:Hy.
  - destruct (map_res f l) as [ys'|e']; [discriminate|].
    injection H as ->. destruct (IH eq_refl) as (k & x0 & Hk & Hx).
    exists (S k), x0. split; assumption.
  - injection H as ->. exists 0%nat, x. split; [reflexivity|exact Hy].
Qed.

Lemma map_res_map {A B} (f : A -> Res B) (g : A -> B) l :
  (forall x, x ∈ l -> f x = Ok (g x)) -> map_res f l = Ok (map g l).
Proof.
  induction l as [|x l IH]; intros H; [reflexivity|].
  rewrite map_res_cons, (H x) by left.
  rewrite IH; [reflexivity|]. intros y Hy. apply H. right. exact Hy.
Qed.

End ResFacts.
(** ** Properties of GroupRecord parsing *)

Module GroupIOFacts.
Import PyStr PyStrFacts GroupIO GroupIOSpec.

(** [__eq__] is structural equality of records. *)
Lemma eq_spec a b : eq a b = true <-> a = b.
Proof.
  unfold eq. rewrite andb_true_iff, String.eqb_eq, bool_decide_eq_true.
  destruct a, b; simpl. split; [intros [-> ->]; reflexivity|].
  intros H. injection H as -> ->. split; reflexivity.
Qed.

Lemma fromString_unstripped r :
  well_delimited r ->
  split tab (to_str r) = [name r; join (String comma EmptyString) (members r)].
Proof.
  intros (Hn & Hne & Hm). unfold to_str.
  change (String tab EmptyString +:+ ?x) with (String tab x).
  rewrite split_app_sep by exact Hn. f_equal.
  apply split_no_sep, contains_join; [reflexivity|].
  eapply Forall_impl; [exact Hm|]. intros m [Ht _]. exact Ht.
Qed.

Lemma fromString_raises line :
  length (split tab (strip line)) <> 2 ->
  fromString line = Raise (ValueError [not_valid_msg line]).
Proof.
  unfold fromString. intros H.
  destruct (split tab (strip line)) as [|f0 [|f1 [|f2 fs]]]; try reflexivity.
  simpl in H. congruence.
Qed.

Lemma fromString_ok_inv line r :
  fromString line = Ok r ->
  to_str r = strip line.
Proof.
  unfold fromString, to_str. intros H.
  pose proof (join_split tab (strip line)) as J.
  destruct (split tab (strip line)) as [|f0 [|f1 [|f2 fs]]]; try discriminate.
  injection H as <-. simpl. rewrite join_split. exact J.
Qed.

(** C10 as stated fails: this record has a name without a tab and one
    member without tab or comma, and [fromString] applied to its own line
    returns a different record, because it strips the line first and the
    name starts with a blank. *)
Lemma roundtrip_refuted_by_strip :
  well_delimited (mkGroupRecord " x" ["a"]) /\
  fromString (to_str (mkGroupRecord " x" ["a"])) = Ok (mkGroupRecord "x" ["a"]) /\
  fromString (to_str (mkGroupRecord " x" ["a"])) <> Ok (mkGroupRecord " x" ["a"]).
Proof.
  split; [|split].
  - repeat split; simpl; try congruence. repeat constructor.
  - reflexivity.
  - vm_compute. discriminate.
Qed.

(** With an empty name the line starts with the tab, which is stripped: a
    single field is left and [fromString] raises. *)
Example roundtrip_raises_on_empty_name :
  well_delimited (mkGroupRecord "" ["a"]) /\
  is_ok (fromString (to_str (mkGroupRecord "" ["a"]))) = false.
Proof.
  split; [|reflexivity].
  repeat split; simpl; try congruence. repeat constructor.
Qed.

(** C10 (amended): a record whose name has no tab, whose member list is
    non-empty with no tab or comma inside a member, and whose serialised
    line has no leading or trailing whitespace (so that [strip] leaves it
    unchanged) is returned unchanged by [fromString (str record)];
    [fromString] raises ValueError on every line whose stripped form does
    not split into exactly two tab-separated fields. *)
Theorem fromString_to_str_roundtrip :
  (forall r, well_delimited r -> strip (to_str r) = to_str r ->
             fromString (to_str r) = Ok r) /\
  (forall line, length (split tab (strip line)) <> 2 ->
                fromString line = Raise (ValueError [not_valid_msg line])).
Proof.
  split; [|exact fromString_raises].
  intros r W Hs.
  unfold fromString. rewrite Hs, (fromString_unstripped r W).
  destruct W as (_ & Hne & Hm).
  rewrite split_join; [destruct r; reflexivity|exact Hne|].
  eapply Forall_impl; [exact Hm|]. intros m [_ Hc]. exact Hc.
Qed.

(** The round trip on a record of two members, and the error on a line
    without a tab. *)
Lemma fromString_to_str_roundtrip_witness :
  fromString (to_str (mkGroupRecord "PB.1.1" ["i0_HQ"; "i1_HQ"]))
    = Ok (mkGroupRecord "PB.1.1" ["i0_HQ"; "i1_HQ"]) /\
  fromString "PB.1.1" = Raise (ValueError [not_valid_msg "PB.1.1"]).
Proof.
  split.
  - apply (proj1 fromString_to_str_roundtrip (mkGroupRecord "PB.1.1" ["i0_HQ"; "i1_HQ"])).
    + repeat split; simpl; try congruence. repeat constructor.
    + reflexivity.
  - apply (proj2 fromString_to_str_roundtrip "PB.1.1"). simpl. lia.
Defined.

(** The extra condition is exactly what is needed: under the stated
    conditions the round trip succeeds only for lines that [strip] leaves
    unchanged. *)
Lemma roundtrip_needs_stripped r :
  fromString (to_str r) = Ok r -> strip (to_str r) = to_str r.
Proof. intros H. symmetry. apply fromString_ok_inv, H. Qed.

(** A line that splits into three tab-separated fields, and is accepted
    all the same because its leading tab is stripped. *)
Example fromString_accepts_three_raw_fields :
  length (split tab (String tab ("a" +:+ String tab "b"))) = 3 /\
  fromString (String tab ("a" +:+ String tab "b")) = Ok (mkGroupRecord "a" ["b"]).
Proof. split; reflexivity. Qed.

End GroupIOFacts.

(** ** Properties of merge group operations *)

Module MergeGroupIOFacts.
Import PyStr MergeGroupIO.

Lemma assert_ok b u : assert b = Ok u -> b = true.
Proof. destruct b; [reflexivity|discriminate]. Qed.

Lemma new_inv p g1 g2 op :
  new p g1 g2 = Ok op ->
  op = mkOp p g1 g2 PyNone /\
  is_str p = true /\
  negb (is_None g1 && is_None g2) = true.
Proof.
  unfold new, _sanity_check. simpl.
  destruct (is_str p); simpl; [|discriminate].
  destruct (negb (is_None g1 && is_None g2)); simpl; [|discriminate].
  destruct (assert (is_GmapRecord g1 || is_None g1 || is_str g1)); simpl; [|discriminate].
  destruct (assert (is_GmapRecord g2 || is_None g2 || is_str g2)); simpl; [|discriminate].
  intros H. injection H as <-. repeat split.
Qed.



End MergeGroupIOFacts.

(** ** Properties of chaining: reading the abundance files *)

Module ChainAbundanceFacts.
Import ChainSamples ChainAbundanceSpec.

Lemma read_abundance_raise_inv s field rs info e :
  read_abundance s field rs info = Raise e ->
  e = ValueError [no_field_msg; abundance_fn s; field] /\
  exists r, r ∈ rs /\ metrics r !! field = None.
Proof.
  revert info. induction rs as [|r rs IH]; simpl; intros info H; [discriminate|].
  destruct (metrics r !! field) as [v|] eqn:E.
  - destruct (IH _ H) as (He & r' & Hin & Hr').
    split; [exact He|]. exists r'. split; [right; exact Hin|exact Hr'].
  - injection H as <-. split; [reflexivity|].
    exists r. split; [left|exact E].
Qed.

Lemma read_abundance_ok_inv s field rs info info' :
  read_abundance s field rs info = Ok info' ->
  forall r, r ∈ rs -> is_Some (metrics r !! field).
Proof.
  revert info. induction rs as [|r rs IH]; simpl; intros info H r' Hin.
  - inversion Hin.
  - destruct (metrics r !! field) as [v|] eqn:E; [|discriminate].
    apply elem_of_cons in Hin as [->|Hin]; [rewrite E; eauto|].
    eapply IH; eauto.
Qed.

(** Every entry of the abundance map comes from a record of the file of a
    sample of that name. *)
Lemma read_abundance_sound s field rs info info' c p n :
  read_abundance s field rs info = Ok info' ->
  info' !! (c, p) = Some n ->
  info !! (c, p) = Some n \/
  (c = name s /\ exists r, r ∈ rs /\ pbid r = p /\ metrics r !! field = Some n).
Proof.
  revert info. induction rs as [|r rs IH]; simpl; intros info H Hl.
  - injection H as <-. left. exact Hl.
  - destruct (metrics r !! field) as [v|] eqn:E; [|discriminate].
    destruct (IH _ H Hl) as [Hi|(-> & r' & Hin & Hp & Hm)].
    + destruct (decide ((name s, pbid r) = (c, p))) as [Heq|Hne].
      * rewrite Heq, lookup_insert_eq in Hi. injection Hi as ->.
        injection Heq as <- <-. right. split; [reflexivity|].
        exists r. split; [left|]. split; [reflexivity|exact E].
      * rewrite lookup_insert_ne in Hi by exact Hne. left. exact Hi.
    + right. split; [reflexivity|]. exists r'. split; [right; exact Hin|].
      split; [exact Hp|exact Hm].
Qed.

Lemma get_abundance_info_from_sound fs samples field info info' c p n :
  get_abundance_info_from fs samples field info = Ok info' ->
  info' !! (c, p) = Some n ->
  info !! (c, p) = Some n \/
  exists s rs r,
    s ∈ samples /\ name s = c /\
    abundance_files fs !! abundance_fn s = Some rs /\
    r ∈ rs /\ pbid r = p /\ metrics r !! field = Some n.
Proof.
  revert info. induction samples as [|s ss IH]; simpl; intros info H Hl.
  - injection H as <-. left. exact Hl.
  - unfold AbundanceReader in H.
    destruct (abundance_files fs !! abundance_fn s) as [rs|] eqn:Hf; [|discriminate].
    simpl in H.
    destruct (read_abundance s field rs info) as [info1|e] eqn:Hr; [|discriminate].
    simpl in H.
    destruct (IH _ H Hl) as [Hi|(s' & rs' & r' & Hin & ?)].
    + destruct (read_abundance_sound _ _ _ _ _ _ _ _ Hr Hi)
        as [Hi0|(-> & r & Hin & Hp & Hm)]; [left; exact Hi0|].
      right. exists s, rs, r. split; [left|]. repeat split; assumption.
    + right. exists s', rs', r'. split; [right; exact Hin|assumption].
Qed.

Lemma get_abundance_info_sound fs samples field info c p n :
  get_abundance_info fs samples field = Ok info ->
  info !! (c, p) = Some n ->
  exists s rs r,
    s ∈ samples /\ name s = c /\
    abundance_files fs !! abundance_fn s = Some rs /\
    r ∈ rs /\ pbid r = p /\ metrics r !! field = Some n.
Proof.
  intros H Hl.
  destruct (get_abundance_info_from_sound _ _ _ _ _ _ _ _ H Hl) as [He|Hx];
    [|exact Hx].
  rewrite lookup_empty in He. discriminate.
Qed.

(** C7: when every sample's abundance file can be read and the file of
    some sample has a record without the requested field,
    [get_abundance_info] raises a ValueError whose arguments name the
    abundance file of a sample that lacks the field, and the field; no
    abundance map is returned. *)
Theorem get_abundance_info_missing_field fs samples field :
  (forall s, s ∈ samples -> is_Some (abundance_files fs !! abundance_fn s)) ->
  (exists s, s ∈ samples /\ lacks_field fs field s) ->
  exists s,
    s ∈ samples /\ lacks_field fs field s /\
    get_abundance_info fs samples field
      = Raise (ValueError [no_field_msg; abundance_fn s; field]).
Proof.
  unfold get_abundance_info.
  generalize (∅ : gmap (string * string) Q) as info.
  induction samples as [|s ss IH]; intros info Hread (s0 & Hin0 & Hl0).
  - inversion Hin0.
  - simpl. unfold AbundanceReader.
    destruct (Hread s) as [rs Hrs]; [left|]. rewrite Hrs. simpl.
    destruct (read_abundance s field rs info) as [info1|e] eqn:Hr; simpl.
    + assert (Hs0 : s0 ∈ ss).
      { apply elem_of_cons in Hin0 as [->|Hin0]; [|exact Hin0].
        destruct Hl0 as (rs' & r & Hrs' & Hin & Hnone).
        rewrite Hrs in Hrs'. injection Hrs' as <-.
        destruct (read_abundance_ok_inv _ _ _ _ _ Hr r Hin) as [v Hv].
        rewrite Hv in Hnone. discriminate. }
      destruct (IH info1) as (s' & Hin' & Hl' & Heq).
      * intros x Hx. apply Hread. right. exact Hx.
      * exists s0. split; assumption.
      * exists s'. split; [right; exact Hin'|]. split; assumption.
    + apply read_abundance_raise_inv in Hr as (-> & r & Hin & Hnone).
      exists s. split; [left|]. split; [|reflexivity].
      exists rs, r. repeat split; assumption.
Qed.

End ChainAbundanceFacts.

(** ** Properties of chaining: the order of the fold steps *)

Module ChainFoldFacts.
Import ChainSamples EffFacts ChainFoldSpec.

Lemma left_chain_cons mfj acc s ss :
  left_chain mfj acc (s :: ss) = fold_step acc s :: left_chain mfj (chained_tree mfj s) ss.
Proof. reflexivity. Qed.

Lemma left_chain_length mfj acc rest :
  length (left_chain mfj acc rest) = length rest.
Proof.
  revert acc. induction rest as [|s ss IH]; intros acc; [reflexivity|].
  rewrite left_chain_cons. simpl. f_equal. apply IH.
Qed.

Lemma add_samples_app tr1 tr2 :
  add_samples (tr1 ++ tr2) = add_samples tr1 ++ add_samples tr2.
Proof. apply List.filter_app. Qed.

(** What [fold_samples] adds to the history, whatever the external calls
    do: the fold steps of the left chain in order, up to the first call
    that raises. *)
Lemma fold_samples_cons mfj o s ss :
  fold_samples mfj o (s :: ss)
  = (_ <- Eff.call (fold_step o s);;
     o' <- new_tree (chained_tree mfj s);;
     fold_samples mfj o' ss)%eff.
Proof. reflexivity. Qed.

Lemma bind_new_tree {B} (o : MegaPBTree) (k : MegaPBTree -> Eff.M Call B) oracle tr :
  Eff.bind (new_tree o) k oracle tr
  = match oracle tr (MegaPBTree_init o) with
    | Some e => (tr ++ [MegaPBTree_init o], Raise e)
    | None => k o oracle (tr ++ [MegaPBTree_init o])
    end.
Proof. unfold new_tree. rewrite bind_assoc, bind_call. reflexivity. Qed.

(** What [fold_samples] adds to the history, whatever the external calls
    do: the fold steps of the left chain in order, up to the first call
    that raises. *)
Lemma fold_samples_trace mfj oracle rest :
  forall o tr tr' res,
    fold_samples mfj o rest oracle tr = (tr', res) ->
    exists ext,
      tr' = tr ++ ext /\
      add_samples ext `prefix_of` left_chain mfj o rest /\
      (is_ok res = true -> add_samples ext = left_chain mfj o rest).
Proof.
  induction rest as [|s ss IH]; intros o tr tr' res H.
  - injection H as <- <-. exists []. rewrite app_nil_r.
    split; [reflexivity|]. split; [apply prefix_nil|reflexivity].
  - rewrite left_chain_cons.
    rewrite fold_samples_cons, bind_call in H.
    destruct (oracle tr (fold_step o s)) as [e|].
    { injection H as <- <-. exists [fold_step o s]. simpl.
      repeat split; [|discriminate]. apply prefix_cons, prefix_nil. }
    rewrite bind_new_tree in H.
    destruct (oracle (tr ++ [fold_step o s]) _) as [e|].
    { injection H as <- <-.
      exists [fold_step o s; MegaPBTree_init (chained_tree mfj s)]. simpl.
      rewrite <- app_assoc. repeat split; [|discriminate].
      apply prefix_cons, prefix_nil. }
    destruct (IH _ _ _ _ H) as (ext & -> & Hpre & Hok).
    exists (fold_step o s :: MegaPBTree_init (chained_tree mfj s) :: ext).
    split; [|split].
    + rewrite <- !app_assoc. reflexivity.
    + simpl. apply prefix_cons. exact Hpre.
    + intros Hr. simpl. f_equal. apply Hok, Hr.
Qed.

(** C3: for a chain of samples [s1 :: rest], whatever the external calls
    do, the fold steps [chain_samples] performs are an initial part of the
    left-associative chain in the configured order (the first sample's
    tree, then each next sample merged into the tree chained so far); when
    [chain_samples] completes they are exactly that chain: one fold step,
    hence one mega_info file, per sample after the first. *)
Theorem chain_samples_folds_in_order fs s1 rest field mfj oracle :
  let run := Eff.run (chain_samples fs (s1 :: rest) field mfj) oracle in
  let chain := left_chain mfj (sample_tree mfj s1) rest in
  add_samples (fst run) `prefix_of` chain /\
  (is_ok (snd run) = true ->
   add_samples (fst run) = chain /\
   length (add_samples (fst run)) = length rest /\
   map mega_fn_of (add_samples (fst run))
     = map (fun s => Some (o_mega_fn (ChainFiles_of (name s)))) rest).
Proof.
  intros run chain.
  assert (Hmega : forall acc l,
             map mega_fn_of (left_chain mfj acc l)
             = map (fun s => Some (o_mega_fn (ChainFiles_of (name s)))) l).
  { intros acc l. revert acc. induction l as [|s ss IH]; intros acc; [reflexivity|].
    rewrite left_chain_cons. simpl. f_equal. apply IH. }
  assert (Hmain : add_samples (fst run) `prefix_of` chain /\
                  (is_ok (snd run) = true -> add_samples (fst run) = chain)).
  { subst run chain. unfold Eff.run.
    destruct (chain_samples fs (s1 :: rest) field mfj oracle []) as [tr res] eqn:H.
    simpl. unfold chain_samples in H.
    rewrite bind_lift in H.
    destruct (get_abundance_info fs (s1 :: rest) field) as [ab|e];
      [|injection H as <- <-; split; [apply prefix_nil|discriminate]].
    rewrite bind_lift, bind_new_tree in H.
    fold (sample_tree mfj s1) in H.
    destruct (oracle [] (MegaPBTree_init (sample_tree mfj s1))) as [e|];
      [injection H as <- <-; split; [apply prefix_nil|discriminate]|].
    unfold Eff.bind at 1 in H. simpl tl in H. simpl app in H.
    destruct (fold_samples mfj (sample_tree mfj s1) rest oracle
                           [MegaPBTree_init (sample_tree mfj s1)])
      as [tr1 r1] eqn:Ef.
    destruct (fold_samples_trace _ _ _ _ _ _ _ Ef) as (ext & -> & Hpre & Hok).
    simpl add_samples in *.
    destruct r1 as [o1|e];
      [|injection H as <- <-; split; [exact Hpre|discriminate]].
    specialize (Hok eq_refl).
    rewrite bind_lift in H.
    destruct (get_mega_info_dict fs rest) as [mi|e];
      [|injection H as <- <-; split; [exact Hpre|discriminate]].
    rewrite bind_lift in H.
    destruct (last_item _) as [cl|e];
      [|injection H as <- <-; split; [exact Hpre|discriminate]].
    rewrite bind_lift in H.
    destruct (MegaInfoReader fs _) as [rows|e];
      [|injection H as <- <-; split; [exact Hpre|discriminate]].
    rewrite bind_lift in H.
    destruct (resolve_rows ab mi _ rows) as [out|e];
      [|injection H as <- <-; split; [exact Hpre|discriminate]].
    rewrite bind_call in H.
    destruct (oracle _ _) as [e|]; injection H as <- <-;
      change (?a :: ext ++ ?l) with ((a :: ext) ++ l);
      rewrite add_samples_app; simpl; rewrite app_nil_r;
      (split; [exact Hpre|]); [discriminate|intros _; exact Hok]. }
  destruct Hmain as [Hp Hc]. split; [exact Hp|].
  intros H. specialize (Hc H). rewrite Hc. split; [reflexivity|].
  split; [apply left_chain_length|apply Hmega].
Qed.

(** Three samples: s2 is merged into the tree of s1, then s3 into the tree
    chained from s2. *)
Example fold_three_samples :
  let s1 := mkSampleFiles "s1" "1.gff" "1.group.txt" "1.abundance.txt" in
  let s2 := mkSampleFiles "s2" "2.gff" "2.group.txt" "2.abundance.txt" in
  let s3 := mkSampleFiles "s3" "3.gff" "3.group.txt" "3.abundance.txt" in
  left_chain 5 (sample_tree 5 s1) [s2; s3]
  = [add_sample (mkMegaPBTree "1.gff" "1.group.txt" "s1" 5)
                "2.gff" "2.group.txt" "s2"
                "tmp_s2.gff" "tmp_s2.group.txt" "tmp_s2.mega_info.txt";
     add_sample (mkMegaPBTree "tmp_s2.gff" "tmp_s2.group.txt" "tmp_s2" 5)
                "3.gff" "3.group.txt" "s3"
                "tmp_s3.gff" "tmp_s3.group.txt" "tmp_s3.mega_info.txt"].
Proof. reflexivity. Qed.

End ChainFoldFacts.

(** ** Properties of chaining: resolving a mega transcript *)

Module ChainResolveFacts.
Import PyFormat PyFormatFacts ToFloatFacts ResFacts.
Import ChainSamples ChainAbundanceFacts ChainResolveSpec PyFormatSpec ChainAbundanceSpec.

Implicit Types (ab : gmap (string * string) Q)
         (mi : gmap (string * string) (gmap string string))
         (r : gmap string string) (d : Resolved) (c s : string)
         (chain cs : list string).

(** Evaluate the binds of the result monad, and nothing else. *)
Ltac res_step := cbv beta iota delta [bindR] in *.

(** *** One assignment *)

Lemma record_sample_inv ab c r d d' :
  record_sample ab c r d = Ok d' ->
  exists v,
    r !! c = Some v /\
    chain_to_pbid d' = <[c := v]> (chain_to_pbid d) /\
    ((v = "NA" /\ chain_to_abundance d' = chain_to_abundance d) \/
     (v <> "NA" /\ exists n, ab !! (c, v) = Some n /\
                            chain_to_abundance d' = <[c := n]> (chain_to_abundance d))).
Proof.
  unfold record_sample, getitem. intros H.
  destruct (r !! c) as [v|]; [|discriminate]. simpl in H.
  destruct (String.eqb_spec v "NA") as [Heq|Hne].
  - injection H as <-. exists v. simpl. split; [reflexivity|].
    split; [reflexivity|]. left. split; [exact Heq|reflexivity].
  - destruct (ab !! (c, v)) as [n|] eqn:E; [|discriminate].
    injection H as <-. exists v. simpl. split; [reflexivity|].
    split; [reflexivity|]. right.
    split; [exact Hne|]. exists n. split; [exact E|reflexivity].
Qed.

(** An assignment to [c] leaves every other sample as it was. *)
Lemma record_sample_frame ab c r d d' s :
  record_sample ab c r d = Ok d' -> s <> c ->
  chain_to_pbid d' !! s = chain_to_pbid d !! s /\
  chain_to_abundance d' !! s = chain_to_abundance d !! s.
Proof.
  intros H Hne. apply record_sample_inv in H as (v & _ & Hp & Ha).
  rewrite Hp, lookup_insert_ne by congruence. split; [reflexivity|].
  destruct Ha as [[_ ->]|(_ & n & _ & ->)]; [reflexivity|].
  rewrite lookup_insert_ne by congruence. reflexivity.
Qed.

(** *** The walk *)

Lemma walk_cons ab mi c cs r d :
  walk ab mi (c :: cs) r d
  = (v <- getitem r (o_prefix (ChainFiles_of c));;
     if String.eqb v "NA" then Ok (r, true, d)
     else match mi !! (o_prefix (ChainFiles_of c), v) with
          | None => Raise (KeyError [o_prefix (ChainFiles_of c); v])
          | Some r2 => d' <- record_sample ab c r2 d;; walk ab mi cs r2 d'
          end)%res.
Proof. reflexivity. Qed.

(** The walk stops at the first sample whose accumulated side is 'NA'. *)
Lemma walk_break ab mi c cs r d :
  r !! o_prefix (ChainFiles_of c) = Some "NA" ->
  walk ab mi (c :: cs) r d = Ok (r, true, d).
Proof. intros H. rewrite walk_cons. unfold getitem. rewrite H. reflexivity. Qed.

Lemma walk_app ab mi cs1 cs2 r d r1 d1 :
  walk ab mi cs1 r d = Ok (r1, false, d1) ->
  walk ab mi (cs1 ++ cs2) r d = walk ab mi cs2 r1 d1.
Proof.
  revert r d. induction cs1 as [|c cs1 IH]; intros r d H.
  - simpl in H. injection H as -> ->. reflexivity.
  - change ((c :: cs1) ++ cs2) with (c :: (cs1 ++ cs2)).
    rewrite walk_cons in *.
    destruct (getitem r (o_prefix (ChainFiles_of c))) as [v|e]; res_step;
      [|discriminate].
    destruct (String.eqb v "NA"); [discriminate|].
    destruct (mi !! (o_prefix (ChainFiles_of c), v)) as [r2|]; [|discriminate].
    destruct (record_sample ab c r2 d) as [d'|e]; res_step; [|discriminate].
    apply IH, H.
Qed.

(** The walk assigns only to the samples it visits. *)
Lemma walk_frame ab mi cs r d r' saw d' s :
  walk ab mi cs r d = Ok (r', saw, d') -> s ∉ cs ->
  chain_to_pbid d' !! s = chain_to_pbid d !! s /\
  chain_to_abundance d' !! s = chain_to_abundance d !! s.
Proof.
  revert r d. induction cs as [|c cs IH]; intros r d H Hs.
  - simpl in H. injection H as _ _ ->. split; reflexivity.
  - rewrite walk_cons in H.
    destruct (getitem r (o_prefix (ChainFiles_of c))) as [v|e]; res_step;
      [|discriminate].
    destruct (String.eqb v "NA").
    { injection H as _ _ ->. split; reflexivity. }
    destruct (mi !! (o_prefix (ChainFiles_of c), v)) as [r2|]; [|discriminate].
    destruct (record_sample ab c r2 d) as [d1|e] eqn:E; res_step; [|discriminate].
    apply not_elem_of_cons in Hs as [Hne Hs].
    destruct (IH _ _ H Hs) as [-> ->].
    eapply record_sample_frame; eauto.
Qed.

(** *** The shape of a chain *)

Lemma chain_shape chain :
  chain = [] \/ (exists x, chain = [x]) \/
  (exists first mid last, chain = first :: mid ++ [last]).
Proof.
  destruct chain as [|first rest]; [left; reflexivity|right].
  induction rest as [|last mid _] using rev_ind.
  - left. exists first. reflexivity.
  - right. exists first, mid, last. reflexivity.
Qed.

Lemma walk_order_mid first mid last :
  walk_order (first :: mid ++ [last]) = rev mid.
Proof.
  unfold walk_order. simpl. rewrite rev_app_distr. simpl.
  apply removelast_last.
Qed.

Lemma last_item_mid first mid last :
  last_item (first :: mid ++ [last]) = Ok last.
Proof. unfold last_item. simpl. rewrite rev_app_distr. reflexivity. Qed.

Lemma first_item_mid first mid last :
  first_item (first :: mid ++ [last]) = Ok first.
Proof. reflexivity. Qed.

(** *** Reaching a sample *)

Lemma id_cell_unassigned d s :
  chain_to_pbid d !! s = None -> id_cell d s = "NA".
Proof. unfold id_cell. intros ->. reflexivity. Qed.

Lemma count_cell_unassigned d s :
  chain_to_abundance d !! s = None -> count_cell d s = Ok "NA".
Proof. unfold count_cell. intros ->. reflexivity. Qed.

(** A count cell is 'NA' for a sample that holds no abundance, and for a
    sample that holds one it is that abundance, converted to a float and
    formatted. *)
Lemma count_cell_inv d s cell :
  count_cell d s = Ok cell ->
  (chain_to_abundance d !! s = None /\ cell = "NA") \/
  (exists n x, chain_to_abundance d !! s = Some n /\ to_float n = Ok x /\
               cell = format_e 4 x).
Proof.
  unfold count_cell. intros H. destruct (chain_to_abundance d !! s) as [n|].
  - destruct (to_float n) as [x|e] eqn:E; res_step; [|discriminate].
    injection H as <-. right. exists n, x. repeat split. exact E.
  - injection H as <-. left. split; reflexivity.
Qed.

(** A count cell cannot be written when the abundance held for the sample
    is too large for a float. *)
Lemma count_cell_raise d s e :
  count_cell d s = Raise e ->
  e = OverflowError /\
  exists n, chain_to_abundance d !! s = Some n /\ to_float n = Raise OverflowError.
Proof.
  unfold count_cell. intros H.
  destruct (chain_to_abundance d !! s) as [n|]; [|discriminate].
  destruct (to_float n) as [x|e'] eqn:E; res_step; [discriminate|].
  injection H as <-.
  pose proof (to_float_raise _ _ E) as ->. split; [reflexivity|].
  exists n. split; [reflexivity|exact E].
Qed.

(** C1 as stated fails when two samples of the chain have the same name.
    In the chain A, B, A the walk from a row whose accumulated side tmp_B
    is "NA" stops at B, and the first sample, which is earlier than B,
    shows the id PB.7.1 and the abundance of the last sample: both dicts
    are keyed by the sample name. *)
Lemma repeated_sample_name_shows_later_id :
  walk_order repeated_name_chain = [] ++ "B" :: [] /\
  walk_reaches repeated_name_abundance ∅ repeated_name_chain repeated_name_row []
               repeated_name_row
               (mkResolved {[ "A" := "PB.7.1" ]} {[ "A" := 5 # 1 ]}) /\
  repeated_name_row !! o_prefix (ChainFiles_of "B") = Some "NA" /\
  resolve_row repeated_name_abundance ∅ repeated_name_chain repeated_name_row
    = Ok ("PB.2.1", ["PB.7.1"; "NA"; "PB.7.1"], ["5.0000e+00"; "NA"; "5.0000e+00"]) /\
  repeated_name_chain !! 0%nat = Some "A" /\
  "PB.7.1" <> "NA" /\ "5.0000e+00" <> "NA".
Proof.
  split; [reflexivity|]. split.
  { exists "A", (mkResolved {[ "A" := "PB.7.1" ]} {[ "A" := 5 # 1 ]}).
    split; [reflexivity|]. split; vm_compute; reflexivity. }
  split; [vm_compute; reflexivity|]. split; [vm_compute; reflexivity|].
  split; [reflexivity|]. split; discriminate.
Qed.

(** C1 (amended): take a chain of pairwise distinct sample names and a
    mega transcript row [r0] with a pbid. If the backward walk reaches a
    middle sample [c] holding a record whose accumulated side (column
    tmp_[c]) is "NA", then [c] and every earlier sample (the columns up to
    that of [c]) have the id "NA" and the abundance "NA"; the row is
    written with these cells, unless the abundance of a later sample is too
    large for a float, in which case writing the row raises
    OverflowError. *)
Theorem walk_NA_marks_earlier_samples ab mi chain r0 p before c after r d :
  NoDup chain ->
  walk_order chain = before ++ c :: after ->
  walk_reaches ab mi chain r0 before r d ->
  r !! o_prefix (ChainFiles_of c) = Some "NA" ->
  r0 !! "pbid" = Some p ->
  (forall k s, (k <= S (length after))%nat -> chain !! k = Some s ->
               id_cell d s = "NA" /\ count_cell d s = Ok "NA") /\
  exists ids,
    length ids = length chain /\
    (forall k, (k <= S (length after))%nat -> ids !! k = Some "NA") /\
    ((exists counts,
         resolve_row ab mi chain r0 = Ok (p, ids, counts) /\
         length counts = length chain /\
         forall k, (k <= S (length after))%nat -> counts !! k = Some "NA") \/
     (resolve_row ab mi chain r0 = Raise OverflowError /\
      exists k s n,
        (S (length after) < k)%nat /\ chain !! k = Some s /\
        chain_to_abundance d !! s = Some n /\
        to_float n = Raise OverflowError)).
Proof.
  intros Hnd Hwo (c_last & d0 & Hlast & Hd0 & Hwalk) HNA Hp.
  destruct (chain_shape chain) as [->|[[x ->]|(first & mid & last & ->)]].
  { destruct before; discriminate Hwo. }
  { destruct before; discriminate Hwo. }
  rewrite walk_order_mid in Hwo.
  assert (Hmid : mid = (rev after ++ [c]) ++ rev before).
  { rewrite <- (rev_involutive mid), Hwo, rev_app_distr. reflexivity. }
  assert (Hchain : first :: mid ++ [last]
                   = (first :: rev after ++ [c]) ++ (rev before ++ [last])).
  { rewrite Hmid. simpl. f_equal. rewrite <- !app_assoc. reflexivity. }
  rewrite last_item_mid in Hlast. injection Hlast as <-.
  assert (Hrow : resolve_row ab mi (first :: mid ++ [last]) r0
                 = (counts <- map_res (count_cell d) (first :: mid ++ [last]);;
                    Ok (p, map (id_cell d) (first :: mid ++ [last]), counts))%res).
  { unfold resolve_row.
    rewrite last_item_mid. res_step. rewrite Hd0. res_step.
    rewrite walk_order_mid, Hwo, (walk_app _ _ _ _ _ _ _ _ Hwalk).
    rewrite (walk_break _ _ _ _ _ _ HNA). res_step.
    unfold getitem. rewrite Hp. reflexivity. }
  assert (Hcells : forall k s, (k <= S (length after))%nat ->
                               (first :: mid ++ [last]) !! k = Some s ->
                               id_cell d s = "NA" /\ count_cell d s = Ok "NA").
  { intros k s Hk Hk'.
    assert (Hin : s ∈ first :: rev after ++ [c]).
    { rewrite Hchain, lookup_app_l in Hk'.
      - eapply list_elem_of_lookup_2; exact Hk'.
      - simpl. rewrite length_app, length_rev. simpl. lia. }
    assert (Hfresh : (s ∉ before) /\ s <> last).
    { rewrite Hchain in Hnd.
      apply NoDup_app in Hnd as (_ & Hdisj & _).
      specialize (Hdisj s Hin). split.
      - intros Hb. apply Hdisj, elem_of_app. left.
        apply list_elem_of_In, in_rev. rewrite rev_involutive.
        apply list_elem_of_In, Hb.
      - intros ->. apply Hdisj, elem_of_app. right. left. }
    destruct Hfresh as [Hnb Hnl].
    destruct (walk_frame _ _ _ _ _ _ _ _ s Hwalk Hnb) as [Hp1 Ha1].
    destruct (record_sample_frame _ _ _ _ _ s Hd0 Hnl) as [Hp0 Ha0].
    rewrite id_cell_unassigned, count_cell_unassigned; [split; reflexivity| |].
    + rewrite Ha1, Ha0. apply lookup_empty.
    + rewrite Hp1, Hp0. apply lookup_empty. }
  split; [exact Hcells|].
  exists (map (id_cell d) (first :: mid ++ [last])).
  split; [apply length_map|].
  assert (Hlt : forall k, (k <= S (length after))%nat ->
                          exists s, (first :: mid ++ [last]) !! k = Some s).
  { intros k Hk. apply lookup_lt_is_Some_2.
    rewrite Hchain, length_app. simpl. rewrite length_app, length_rev. simpl. lia. }
  split.
  { intros k Hk. destruct (Hlt k Hk) as [s Hs].
    rewrite list_lookup_fmap, Hs. simpl. f_equal. apply (Hcells k s Hk Hs). }
  rewrite Hrow.
  destruct (map_res (count_cell d) (first :: mid ++ [last])) as [counts|e] eqn:Hm;
    res_step.
  - left. exists counts. split; [reflexivity|].
    destruct (map_res_lookup _ _ _ Hm) as [Hlen Hl]. split; [exact Hlen|].
    intros k Hk. destruct (Hlt k Hk) as [s Hs].
    destruct (Hl k s Hs) as (y & Hy & Hy'). rewrite Hy. f_equal.
    destruct (Hcells k s Hk Hs) as [_ Hc]. congruence.
  - right. destruct (map_res_raise _ _ _ Hm) as (k & s & Hs & Hr).
    destruct (count_cell_raise _ _ _ Hr) as (-> & n & Hn & Hov).
    split; [reflexivity|]. exists k, s, n.
    split; [|repeat split; assumption].
    destruct (Nat.le_gt_cases k (S (length after))) as [Hk|Hk]; [|exact Hk].
    destruct (Hcells k s Hk Hs) as [_ Hc]. congruence.
Qed.

(** *** Ids and abundances agree *)

Lemma consistent_unresolved ab : consistent ab unresolved.
Proof. intros c. simpl. rewrite !lookup_empty. reflexivity. Qed.

Lemma record_sample_consistent ab c r d d' :
  record_sample ab c r d = Ok d' ->
  consistent ab d ->
  chain_to_pbid d !! c = None \/ chain_to_pbid d !! c = r !! c ->
  consistent ab d'.
Proof.
  intros H Hc Hfresh c0.
  destruct (decide (c0 = c)) as [->|Hne].
  - apply record_sample_inv in H as (v & Hv & Hp & Ha).
    rewrite Hp, lookup_insert_eq.
    destruct Ha as [[-> Ha]|(Hne & n & Hn & Ha)]; rewrite Ha.
    + left. split; [reflexivity|].
      specialize (Hc c). destruct Hfresh as [E|E]; rewrite E in Hc; [exact Hc|].
      rewrite Hv in Hc. destruct Hc as [[_ Hc]|[Hc _]]; [exact Hc|congruence].
    + right. split; [exact Hne|]. exists n. split; [exact Hn|].
      apply lookup_insert_eq.
  - destruct (record_sample_frame _ _ _ _ _ c0 H Hne) as [-> ->]. apply Hc.
Qed.

Lemma walk_consistent ab mi cs r d r' saw d' :
  walk ab mi cs r d = Ok (r', saw, d') ->
  NoDup cs ->
  (forall c, c ∈ cs -> chain_to_pbid d !! c = None) ->
  consistent ab d ->
  consistent ab d'.
Proof.
  revert r d. induction cs as [|c cs IH]; intros r d H Hnd Hfresh Hc.
  - simpl in H. injection H as _ _ <-. exact Hc.
  - rewrite walk_cons in H.
    destruct (getitem r (o_prefix (ChainFiles_of c))) as [v|e]; res_step;
      [|discriminate].
    destruct (String.eqb v "NA").
    { injection H as _ _ <-. exact Hc. }
    destruct (mi !! (o_prefix (ChainFiles_of c), v)) as [r2|]; [|discriminate].
    destruct (record_sample ab c r2 d) as [d1|e] eqn:E; res_step; [|discriminate].
    apply NoDup_cons in Hnd as [Hnc Hnd].
    apply (IH _ _ H Hnd).
    + intros c0 Hc0.
      destruct (record_sample_frame _ _ _ _ _ c0 E) as [-> _].
      * intros ->. contradiction.
      * apply Hfresh. right. exact Hc0.
    + eapply record_sample_consistent; [exact E|exact Hc|].
      left. apply Hfresh. left.
Qed.

(** The dicts behind a resolved row, for distinct sample names. *)
Lemma resolve_row_consistent ab mi chain r0 p ids counts :
  NoDup chain ->
  resolve_row ab mi chain r0 = Ok (p, ids, counts) ->
  exists d,
    consistent ab d /\
    ids = map (id_cell d) chain /\
    map_res (count_cell d) chain = Ok counts.
Proof.
  intros Hnd H. unfold resolve_row in H.
  destruct (last_item chain) as [c_last|e] eqn:Hlast; res_step; [|discriminate].
  destruct (record_sample ab c_last r0 unresolved) as [d0|e] eqn:Hd0; res_step;
    [|discriminate].
  destruct (walk ab mi (walk_order chain) r0 d0) as [[[r saw] d1]|e] eqn:Hw;
    res_step; [|discriminate].
  assert (Hd0c : consistent ab d0).
  { eapply record_sample_consistent; [exact Hd0|apply consistent_unresolved|].
    left. apply lookup_empty. }
  assert (Hfinal : forall d2,
             (if saw then Ok d1
              else (c_first <- first_item chain;;
                    record_sample ab c_first r d1)%res) = Ok d2 ->
             consistent ab d2).
  { intros d2 Hd2.
    destruct (chain_shape chain) as [->|[[x ->]|(first & mid & last & ->)]].
    - discriminate Hlast.
    - (* one sample: the same column of the same row is read twice *)
      unfold walk_order in Hw. simpl in Hw. injection Hw as <- <- <-.
      injection Hlast as <-. simpl in Hd2.
      eapply record_sample_consistent; [exact Hd2|exact Hd0c|].
      right. apply record_sample_inv in Hd0 as (v & Hv & Hp & _).
      rewrite Hp, lookup_insert_eq, Hv. reflexivity.
    - rewrite last_item_mid in Hlast. injection Hlast as <-.
      rewrite walk_order_mid in Hw.
      apply NoDup_cons in Hnd as [Hfirst Hnd].
      apply NoDup_app in Hnd as (Hmid & Hdisj & _).
      assert (Hrev : NoDup (rev mid)).
      { apply NoDup_ListNoDup, List.NoDup_rev, NoDup_ListNoDup, Hmid. }
      assert (Hin_rev : forall c, c ∈ rev mid -> c ∈ mid).
      { intros c Hc. apply list_elem_of_In, in_rev, list_elem_of_In, Hc. }
      assert (Hd1c : consistent ab d1).
      { eapply walk_consistent; [exact Hw|exact Hrev| |exact Hd0c].
        intros c Hc.
        destruct (record_sample_frame _ _ _ _ _ c Hd0) as [-> _];
          [|apply lookup_empty].
        intros ->. apply (Hdisj last (Hin_rev _ Hc)). left. }
      destruct saw; [injection Hd2 as <-; exact Hd1c|].
      rewrite first_item_mid in Hd2. cbv beta iota delta [bindR] in Hd2.
      eapply record_sample_consistent; [exact Hd2|exact Hd1c|].
      left.
      destruct (walk_frame _ _ _ _ _ _ _ _ first Hw) as [-> _].
      { intros Hc. apply Hfirst, elem_of_app. left. apply Hin_rev, Hc. }
      destruct (record_sample_frame _ _ _ _ _ first Hd0) as [-> _];
        [|apply lookup_empty].
      intros ->. apply Hfirst, elem_of_app. right. left. }
  assert (Hend : forall d2,
             consistent ab d2 ->
             (p0 <- getitem r0 "pbid";;
              cells <- map_res (count_cell d2) chain;;
              Ok (p0, map (id_cell d2) chain, cells))%res
             = Ok (p, ids, counts) ->
             exists d, consistent ab d /\
                       ids = map (id_cell d) chain /\
                       map_res (count_cell d) chain = Ok counts).
  { intros d2 Hc2 E. destruct (getitem r0 "pbid") as [p'|e]; [|discriminate E].
    res_step.
    destruct (map_res (count_cell d2) chain) as [cells|e] eqn:Hm; [|discriminate E].
    injection E as _ <- <-. exists d2. split; [exact Hc2|]. split; [reflexivity|exact Hm]. }
  destruct saw.
  - apply (Hend d1); [apply Hfinal; reflexivity|exact H].
  - destruct (first_item chain) as [c_first|e] eqn:Hf; [|discriminate H].
    destruct (record_sample ab c_first r d1) as [d2|e] eqn:Hd2; [|discriminate H].
    apply (Hend d2); [|exact H].
    apply Hfinal. exact Hd2.
Qed.

Lemma name_inj_of_NoDup (samples : list SampleFiles) (a b : SampleFiles) :
  NoDup (map name samples) ->
  a ∈ samples -> b ∈ samples -> name a = name b -> a = b.
Proof.
  induction samples as [|x xs IH]; intros Hnd H1 H2 Hn; [inversion H1|].
  simpl in Hnd. apply NoDup_cons in Hnd as [Hx Hnd].
  apply elem_of_cons in H1 as [->|H1]; apply elem_of_cons in H2 as [->|H2].
  - reflexivity.
  - exfalso. apply Hx. rewrite Hn. apply list_elem_of_fmap. eauto.
  - exfalso. apply Hx. rewrite <- Hn. apply list_elem_of_fmap. eauto.
  - apply IH; assumption.
Qed.

(** *** Where an abundance comes from *)

Lemma record_sample_sourced ab c r d d' :
  record_sample ab c r d = Ok d' -> sourced ab d -> sourced ab d'.
Proof.
  intros H Hs c0 n0 Hl.
  apply record_sample_inv in H as (v & _ & _ & [[_ Ha]|(_ & n & Hn & Ha)]);
    rewrite Ha in Hl; [apply (Hs _ _ Hl)|].
  destruct (decide (c = c0)) as [->|Hne].
  - rewrite lookup_insert_eq in Hl. injection Hl as <-. exists v. exact Hn.
  - rewrite lookup_insert_ne in Hl by exact Hne. apply (Hs _ _ Hl).
Qed.

Lemma walk_sourced ab mi cs r d r' saw d' :
  walk ab mi cs r d = Ok (r', saw, d') -> sourced ab d -> sourced ab d'.
Proof.
  revert r d. induction cs as [|c cs IH]; intros r d H Hs.
  - simpl in H. injection H as _ _ <-. exact Hs.
  - rewrite walk_cons in H.
    destruct (getitem r (o_prefix (ChainFiles_of c))) as [v|e]; res_step;
      [|discriminate].
    destruct (String.eqb v "NA").
    { injection H as _ _ <-. exact Hs. }
    destruct (mi !! (o_prefix (ChainFiles_of c), v)) as [r2|]; [|discriminate].
    destruct (record_sample ab c r2 d) as [d1|e] eqn:E; res_step; [|discriminate].
    apply (IH _ _ H). eapply record_sample_sourced; eauto.
Qed.

Lemma resolve_row_sourced ab mi chain r0 p ids counts :
  resolve_row ab mi chain r0 = Ok (p, ids, counts) ->
  exists d,
    sourced ab d /\
    ids = map (id_cell d) chain /\
    map_res (count_cell d) chain = Ok counts.
Proof.
  intros H. unfold resolve_row in H.
  destruct (last_item chain) as [c_last|e]; res_step; [|discriminate].
  destruct (record_sample ab c_last r0 unresolved) as [d0|e] eqn:Hd0; res_step;
    [|discriminate].
  destruct (walk ab mi (walk_order chain) r0 d0) as [[[r saw] d1]|e] eqn:Hw;
    res_step; [|discriminate].
  assert (Hs1 : sourced ab d1).
  { eapply walk_sourced; [exact Hw|].
    eapply record_sample_sourced; [exact Hd0|].
    intros c n Hl. simpl in Hl. rewrite lookup_empty in Hl. discriminate. }
  assert (Hend : forall d2,
             sourced ab d2 ->
             (p0 <- getitem r0 "pbid";;
              cells <- map_res (count_cell d2) chain;;
              Ok (p0, map (id_cell d2) chain, cells))%res
             = Ok (p, ids, counts) ->
             exists d, sourced ab d /\
                       ids = map (id_cell d) chain /\
                       map_res (count_cell d) chain = Ok counts).
  { intros d2 Hc2 E. destruct (getitem r0 "pbid") as [p'|e]; [|discriminate E].
    res_step.
    destruct (map_res (count_cell d2) chain) as [cells|e] eqn:Hm; [|discriminate E].
    injection E as _ <- <-. exists d2. split; [exact Hc2|]. split; [reflexivity|exact Hm]. }
  destruct saw.
  - apply (Hend d1 Hs1 H).
  - destruct (first_item chain) as [c_first|e]; [|discriminate H].
    destruct (record_sample ab c_first r d1) as [d2|e] eqn:Hd2; [|discriminate H].
    apply (Hend d2); [|exact H]. eapply record_sample_sourced; eauto.
Qed.

(** *** The format of an abundance cell *)

(** C6 as stated fails: the cell written for an abundance of 30 is
    "3.0000e+01", which is not "NA" and is not 30 in scientific notation
    with four significant digits ("3.000e+01"): "%.4e" keeps four digits
    after the point, that is five significant digits. *)
Lemma count_cell_has_five_significant_digits :
  resolve_row two_sample_abundance ∅ ["s1"; "s2"] two_sample_row
    = Ok ("PB.1.1", ["PB.1.1"; "NA"], ["3.0000e+01"; "NA"]) /\
  two_sample_abundance !! ("s1", "PB.1.1") = Some (30 # 1) /\
  scientific 4 (30 # 1) = "3.000e+01" /\
  "3.0000e+01" <> "NA" /\
  "3.0000e+01" <> scientific 4 (30 # 1) /\
  "3.0000e+01" = scientific 5 (30 # 1).
Proof. vm_compute. repeat split; discriminate. Qed.

(** C6 (amended): in every resolved row, the cell written to
    all_samples.chained_count.txt for a sample is "NA" or an abundance
    stored under (sample name, some id), converted to a float and formatted
    by "%.4e", that is in scientific notation with four digits after the
    point (five significant digits). The conversion changes nothing for an
    int of magnitude below 2 ^ 53. When the sample names are pairwise
    distinct, the cell is "NA" exactly when the sample's resolved id is
    "NA", and otherwise the id is the sample's resolved id and the
    abundance is the requested field of a record with that pbid in that
    sample's abundance file. *)
Theorem count_cell_is_NA_or_formatted fs samples field ab mi r0 p ids counts :
  get_abundance_info fs samples field = Ok ab ->
  resolve_row ab mi (map name samples) r0 = Ok (p, ids, counts) ->
  (forall k (sample : SampleFiles),
      samples !! k = Some sample ->
      exists cell,
        counts !! k = Some cell /\
        (cell = "NA" \/
         exists id n x,
           ab !! (name sample, id) = Some n /\
           to_float n = Ok x /\
           (forall z, n = z # 1 -> (Z.abs z < 2 ^ 53)%Z -> x = n) /\
           cell = format_e 4 x /\ cell = scientific 5 x /\
           (Qnum x <> 0%Z -> significant_digits 5 cell))) /\
  (NoDup (map name samples) ->
   forall k (sample : SampleFiles),
     samples !! k = Some sample ->
     exists id cell,
       ids !! k = Some id /\ counts !! k = Some cell /\
       ((id = "NA" /\ cell = "NA") \/
        (id <> "NA" /\
         exists n x rs rec,
           ab !! (name sample, id) = Some n /\
           abundance_files fs !! abundance_fn sample = Some rs /\
           rec ∈ rs /\ pbid rec = id /\ metrics rec !! field = Some n /\
           to_float n = Ok x /\
           cell = format_e 4 x /\ cell = scientific 5 x))).
Proof.
  intros Hab Hres. split.
  - intros k sample Hk.
    destruct (resolve_row_sourced _ _ _ _ _ _ _ Hres) as (d & Hs & _ & Hm).
    destruct (map_res_lookup _ _ _ Hm) as [_ Hl].
    destruct (Hl k (name sample)) as (cell & Hcell & Hc).
    { rewrite list_lookup_fmap, Hk. reflexivity. }
    exists cell. split; [exact Hcell|].
    destruct (count_cell_inv _ _ _ Hc) as [[_ ->]|(n & x & E & Hx & ->)];
      [left; reflexivity|].
    right. destruct (Hs _ _ E) as [id Hid]. exists id, n, x.
    split; [exact Hid|]. split; [exact Hx|]. split.
    { intros z -> Hz. rewrite (to_float_int z Hz) in Hx. injection Hx as <-.
      reflexivity. }
    split; [reflexivity|]. split; [reflexivity|].
    apply format_e_significant_digits.
  - intros Hnd k sample Hk.
    destruct (resolve_row_consistent _ _ _ _ _ _ _ Hnd Hres) as (d & Hc & -> & Hm).
    destruct (map_res_lookup _ _ _ Hm) as [_ Hl].
    destruct (Hl k (name sample)) as (cell & Hcell & Hcc).
    { rewrite list_lookup_fmap, Hk. reflexivity. }
    exists (id_cell d (name sample)), cell.
    rewrite !list_lookup_fmap, Hk. simpl.
    split; [reflexivity|]. split; [exact Hcell|].
    specialize (Hc (name sample)). unfold id_cell.
    destruct (chain_to_pbid d !! name sample) as [v|]; simpl.
    + destruct Hc as [[-> Ha]|(Hne & n & Hn & Ha)].
      * left. split; [reflexivity|].
        destruct (count_cell_inv _ _ _ Hcc) as [[_ ->]|(n & x & E & _)];
          [reflexivity|congruence].
      * right. split; [exact Hne|].
        destruct (count_cell_inv _ _ _ Hcc) as [[E _]|(n' & x & E & Hx & ->)];
          [congruence|].
        assert (n' = n) as -> by congruence.
        destruct (get_abundance_info_sound _ _ _ _ _ _ _ Hab Hn)
          as (sample' & rs & rec & Hin & Hname & Hrs & Hrec & Hp & Hm').
        assert (sample' = sample) as ->.
        { eapply name_inj_of_NoDup; eauto.
          eapply list_elem_of_lookup_2; exact Hk. }
        exists n, x, rs, rec. repeat split; assumption.
    + left. split; [reflexivity|].
      destruct (count_cell_inv _ _ _ Hcc) as [[_ ->]|(n & x & E & _)];
        [reflexivity|congruence].
Qed.

End ChainResolveFacts.

(** ** Chaining three samples: a worked case *)

Module ChainExample.
Import ChainSamples ChainAbundanceFacts ChainResolveFacts ChainExampleData ChainAbundanceSpec ChainResolveSpec.

Lemma abundance_info_read :
  get_abundance_info files [s1; s2; s3] "count_fl" = Ok abundance_info.
Proof. vm_compute. reflexivity. Qed.

(** Scenario B of the specification: the row of the transcript that only
    s1 has shows "NA" for s2 and s3, in the ids and in the abundances. *)
Example chain_three_samples :
  Eff.run (chain_samples files [s1; s2; s3] "count_fl" 5) Eff.no_failure
  = ([MegaPBTree_init (mkMegaPBTree "1.gff" "1.group.txt" "s1" 5);
      add_sample (mkMegaPBTree "1.gff" "1.group.txt" "s1" 5)
                 "2.gff" "2.group.txt" "s2"
                 "tmp_s2.gff" "tmp_s2.group.txt" "tmp_s2.mega_info.txt";
      MegaPBTree_init (mkMegaPBTree "tmp_s2.gff" "tmp_s2.group.txt" "tmp_s2" 5);
      add_sample (mkMegaPBTree "tmp_s2.gff" "tmp_s2.group.txt" "tmp_s2" 5)
                 "3.gff" "3.group.txt" "s3"
                 "tmp_s3.gff" "tmp_s3.group.txt" "tmp_s3.mega_info.txt";
      MegaPBTree_init (mkMegaPBTree "tmp_s3.gff" "tmp_s3.group.txt" "tmp_s3" 5);
      copyfile "tmp_s3.gff" "all_samples.chained.gff"],
     Ok ([line "superPBID" ["s1"; "s2"; "s3"];
          line "PB.1.1" ["PB.1.1"; "NA"; "NA"];
          line "PB.2.1" ["NA"; "NA"; "PB.7.1"]],
         [line "superPBID" ["s1"; "s2"; "s3"];
          line "PB.1.1" ["3.0000e+01"; "NA"; "NA"];
          line "PB.2.1" ["NA"; "NA"; "5.0000e+00"]])).
Proof. vm_compute. reflexivity. Qed.

(** The row of the transcript private to s3: the walk meets "NA" at s2, and
    the cells of s1 and s2 are "NA". *)
Lemma walk_NA_marks_earlier_samples_witness :
  (forall k s, (k <= 1)%nat -> ["s1"; "s2"; "s3"] !! k = Some s ->
               id_cell (mkResolved {[ "s3" := "PB.7.1" ]} {[ "s3" := 5 # 1 ]}) s = "NA" /\
               count_cell (mkResolved {[ "s3" := "PB.7.1" ]} {[ "s3" := 5 # 1 ]}) s
                 = Ok "NA") /\
  exists ids,
    length ids = 3%nat /\
    (forall k, (k <= 1)%nat -> ids !! k = Some "NA") /\
    ((exists cells,
         resolve_row abundance_info mega_info_d ["s1"; "s2"; "s3"] private_row
           = Ok ("PB.2.1", ids, cells) /\
         length cells = 3%nat /\
         forall k, (k <= 1)%nat -> cells !! k = Some "NA") \/
     (resolve_row abundance_info mega_info_d ["s1"; "s2"; "s3"] private_row
        = Raise OverflowError /\
      exists k s n,
        (1 < k)%nat /\ ["s1"; "s2"; "s3"] !! k = Some s /\
        chain_to_abundance (mkResolved {[ "s3" := "PB.7.1" ]} {[ "s3" := 5 # 1 ]}) !! s
          = Some n /\
        PyFormat.to_float n = Raise OverflowError)).
Proof.
  apply (walk_NA_marks_earlier_samples
           abundance_info mega_info_d ["s1"; "s2"; "s3"] private_row "PB.2.1"
           [] "s2" [] private_row
           (mkResolved {[ "s3" := "PB.7.1" ]} {[ "s3" := 5 # 1 ]})).
  - apply (bool_decide_unpack _). vm_compute. exact I.
  - reflexivity.
  - exists "s3", (mkResolved {[ "s3" := "PB.7.1" ]} {[ "s3" := 5 # 1 ]}).
    split; [reflexivity|]. split; vm_compute; reflexivity.
  - vm_compute. reflexivity.
  - vm_compute. reflexivity.
Defined.

(** The abundance cell of s1 in the row of PB.1.1: the count of the record
    PB.1.1 of 1.abundance.txt, formatted. *)
Lemma count_cell_is_NA_or_formatted_witness :
  exists id cell,
    ["PB.1.1"; "NA"; "NA"] !! 0%nat = Some id /\
    ["3.0000e+01"; "NA"; "NA"] !! 0%nat = Some cell /\
    ((id = "NA" /\ cell = "NA") \/
     (id <> "NA" /\
      exists n x rs rec,
        abundance_info !! (name s1, id) = Some n /\
        abundance_files files !! abundance_fn s1 = Some rs /\
        rec ∈ rs /\ pbid rec = id /\ metrics rec !! "count_fl" = Some n /\
        PyFormat.to_float n = Ok x /\
        cell = PyFormat.format_e 4 x /\ cell = scientific 5 x)).
Proof.
  refine (proj2 (count_cell_is_NA_or_formatted
                   files [s1; s2; s3] "count_fl" abundance_info mega_info_d
                   (list_to_map [("pbid", "PB.1.1"); ("tmp_s2", "PB.1.1"); ("s3", "NA")])
                   "PB.1.1" ["PB.1.1"; "NA"; "NA"] ["3.0000e+01"; "NA"; "NA"] _ _)
                _ 0%nat s1 _).
  - vm_compute. reflexivity.
  - vm_compute. reflexivity.
  - apply (bool_decide_unpack _). vm_compute. exact I.
  - reflexivity.
Defined.

(** The fold steps of the three samples when every call returns. *)
Lemma chain_samples_folds_in_order_witness :
  ChainFoldSpec.add_samples
    (fst (Eff.run (chain_samples files [s1; s2; s3] "count_fl" 5) Eff.no_failure))
  = [add_sample (mkMegaPBTree "1.gff" "1.group.txt" "s1" 5)
                "2.gff" "2.group.txt" "s2"
                "tmp_s2.gff" "tmp_s2.group.txt" "tmp_s2.mega_info.txt";
     add_sample (mkMegaPBTree "tmp_s2.gff" "tmp_s2.group.txt" "tmp_s2" 5)
                "3.gff" "3.group.txt" "s3"
                "tmp_s3.gff" "tmp_s3.group.txt" "tmp_s3.mega_info.txt"].
Proof.
  refine (proj1 (proj2 (ChainFoldFacts.chain_samples_folds_in_order
                          files s1 [s2; s3] "count_fl" 5 Eff.no_failure) _)).
  vm_compute. reflexivity.
Defined.

(** No abundance file of the three samples has a norm_nfl field. *)
Lemma get_abundance_info_missing_field_witness :
  exists s,
    s ∈ [s1; s2; s3] /\ lacks_field files "norm_nfl" s /\
    get_abundance_info files [s1; s2; s3] "norm_nfl"
      = Raise (ValueError [no_field_msg; abundance_fn s; "norm_nfl"]).
Proof.
  apply (get_abundance_info_missing_field files [s1; s2; s3] "norm_nfl").
  - intros s Hs.
    repeat (apply elem_of_cons in Hs as [->|Hs]); [| | |inversion Hs];
      vm_compute; eauto.
  - exists s3. split; [right; right; left|].
    exists [mkAbundanceRecord "PB.7.1" (counts (5 # 1) (1 # 2))],
           (mkAbundanceRecord "PB.7.1" (counts (5 # 1) (1 # 2))).
    split; [vm_compute; reflexivity|]. split; [left|vm_compute; reflexivity].
Defined.

End ChainExample.

(** ** Properties of the collapse runner *)

Module CollapseIsoformsFacts.
Import CollapseIsoforms EffFacts CollapseIsoformsSpec.
Local Open Scope Z_scope.

(** *** Computations that make no call of a given kind *)

Lemma silent_ret P {A} (a : A) : silent P (Eff.ret a).
Proof.
  intros oracle tr tr' res H. injection H as <- <-.
  exists []. rewrite app_nil_r. split; reflexivity.
Qed.

Lemma silent_lift P {A} (r : Res A) : silent P (Eff.lift r).
Proof.
  intros oracle tr tr' res H. injection H as <- <-.
  exists []. rewrite app_nil_r. split; reflexivity.
Qed.

Lemma silent_call P c : P c = false -> silent P (Eff.call c).
Proof.
  intros Hc oracle tr tr' res H. unfold Eff.call in H. injection H as <- <-.
  exists [c]. split; [reflexivity|]. simpl. rewrite Hc. reflexivity.
Qed.

Lemma silent_bind P {A B} (m : Eff.M Call A) (k : A -> Eff.M Call B) :
  silent P m -> (forall a, silent P (k a)) -> silent P (Eff.bind m k).
Proof.
  intros Hm Hk oracle tr tr' res H. unfold Eff.bind in H.
  destruct (m oracle tr) as [tr1 [a|e]] eqn:E.
  - destruct (Hm _ _ _ _ E) as (ext1 & -> & H1).
    destruct (Hk a _ _ _ _ H) as (ext2 & -> & H2).
    exists (ext1 ++ ext2). rewrite app_assoc. split; [reflexivity|].
    rewrite List.filter_app, H1, H2. reflexivity.
  - injection H as <- <-. destruct (Hm _ _ _ _ E) as (ext1 & -> & H1).
    exists ext1. split; [reflexivity|exact H1].
Qed.

(** Running [m] and then [k]: either [m] raises, or [k] runs from the
    history [m] left. *)
Lemma bind_silent_inv P {A B} (m : Eff.M Call A) (k : A -> Eff.M Call B)
      oracle tr tr' res :
  silent P m ->
  Eff.bind m k oracle tr = (tr', res) ->
  exists ext,
    List.filter P ext = [] /\
    ((is_ok res = false /\ tr' = tr ++ ext) \/
     (exists a, k a oracle (tr ++ ext) = (tr', res))).
Proof.
  intros Hm H. unfold Eff.bind in H.
  destruct (m oracle tr) as [tr1 [a|e]] eqn:E;
    destruct (Hm _ _ _ _ E) as (ext & -> & Hext); exists ext; (split; [exact Hext|]).
  - right. exists a. exact H.
  - left. injection H as <- <-. split; reflexivity.
Qed.

(** *** The stages before the fuzzy stage *)

Lemma silent_validate_inputs env self : silent is_late (validate_inputs env self).
Proof.
  unfold validate_inputs.
  destruct (negb (path_exists env (isoform_filename self))); [apply silent_lift|].
  destruct (negb (path_exists env (sam_filename self))); [apply silent_lift|].
  apply silent_call. reflexivity.
Qed.

Lemma silent_Branch_init a b c d e : silent is_late (Branch_init a b c d e).
Proof.
  apply silent_bind; [apply silent_call; reflexivity|].
  intros _. apply silent_ret.
Qed.

Lemma silent_collapse_group self a5 s5 gw bw grw te by_strand :
  forall i, silent is_late (collapse_group self a5 s5 gw bw grw te by_strand i).
Proof.
  induction by_strand as [|records rest IH]; intros i; simpl; [apply silent_ret|].
  destruct records; [apply IH|].
  apply silent_bind; [apply silent_call; reflexivity|]. intros _. apply IH.
Qed.

Lemma silent_collapse_items self a5 s5 iw gw bw grw te items :
  forall i, silent is_late (collapse_items self a5 s5 iw gw bw grw te items i).
Proof.
  induction items as [|[id|g|e] items IH]; intros i; simpl.
  - apply silent_ret.
  - apply silent_bind; [apply silent_call; reflexivity|]. intros _. apply IH.
  - apply silent_bind; [apply silent_collapse_group|]. intros j. apply IH.
  - apply silent_lift.
Qed.

Lemma silent_close_writers ws : silent is_late (close_writers ws).
Proof.
  induction ws as [|[w|] ws IH]; simpl; [apply silent_ret| |exact IH].
  apply silent_bind; [apply silent_call; reflexivity|]. intros _. exact IH.
Qed.

Lemma silent_Branch_run env b a5 s5 f1 f2 f3 f4 te :
  silent is_late (Branch_run env b a5 s5 f1 f2 f3 f4 te).
Proof.
  apply silent_bind; [apply silent_collapse_items|].
  intros _. apply silent_close_writers.
Qed.

(** *** The fuzzy stage and the representative picker *)

Lemma calls_trace cs :
  forall oracle tr tr' res,
    calls cs oracle tr = (tr', res) ->
    exists pre, tr' = tr ++ pre /\ pre `prefix_of` cs /\
                (is_ok res = true -> pre = cs).
Proof.
  induction cs as [|c cs IH]; intros oracle tr tr' res H.
  - injection H as <- <-. exists []. rewrite app_nil_r.
    split; [reflexivity|]. split; [apply prefix_nil|reflexivity].
  - simpl in H. rewrite bind_call in H.
    destruct (oracle tr c) as [e|].
    + injection H as <- <-. exists [c]. split; [reflexivity|].
      split; [apply prefix_cons, prefix_nil|discriminate].
    + destruct (IH _ _ _ _ H) as (pre & -> & Hp & Hok).
      exists (c :: pre). rewrite <- app_assoc. split; [reflexivity|].
      split; [apply prefix_cons, Hp|]. intros Hr. f_equal. apply Hok, Hr.
Qed.

Lemma run_late_part env self :
  run env self
  = (_ <- validate_inputs env self;;
     b <- Branch_init (isoform_filename self) (sam_filename self)
                      (min_flnc_coverage self)
                      (min_aln_coverage self) (min_aln_identity self);;
     _ <- Branch_run env b (allow_extra_5exon self) (skip_5_exon_alt self)
                     (ignored_ids_txt_fn (files self)) (good_unfuzzy_gff_fn (files self))
                     (bad_unfuzzy_gff_fn (files self)) (unfuzzy_group_fn (files self)) 100;;
     _ <- (if shall_collapse_fuzzy_junctions self then
             _ <- Eff.call (collapse_fuzzy_junctions
                              (good_unfuzzy_gff_fn (files self)) (unfuzzy_group_fn (files self))
                              (good_fuzzy_gff_fn (files self)) (fuzzy_group_fn (files self))
                              (allow_extra_5exon self) (max_fuzzy_junction self));;
             _ <- Eff.call (ln (good_fuzzy_gff_fn (files self)) (good_gff_fn (files self)));;
             Eff.call (ln (fuzzy_group_fn (files self)) (group_fn (files self)))
           else
             _ <- Eff.call (ln (good_unfuzzy_gff_fn (files self)) (good_gff_fn (files self)));;
             Eff.call (ln (unfuzzy_group_fn (files self)) (group_fn (files self))));;
     Eff.call (pick_rep (isoform_filename self) (good_gff_fn (files self))
                        (group_fn (files self)) (collapsed_isoform_filename self)
                        (negb (allow_extra_5exon self)) (bad_gff_fn (files self))))%eff.
Proof. reflexivity. Qed.

(** The tail of [run] makes the calls of [late_calls], one after the
    other. *)
Lemma late_part_is_calls self oracle tr :
  (_ <- (if shall_collapse_fuzzy_junctions self then
           _ <- Eff.call (collapse_fuzzy_junctions
                            (good_unfuzzy_gff_fn (files self)) (unfuzzy_group_fn (files self))
                            (good_fuzzy_gff_fn (files self)) (fuzzy_group_fn (files self))
                            (allow_extra_5exon self) (max_fuzzy_junction self));;
           _ <- Eff.call (ln (good_fuzzy_gff_fn (files self)) (good_gff_fn (files self)));;
           Eff.call (ln (fuzzy_group_fn (files self)) (group_fn (files self)))
         else
           _ <- Eff.call (ln (good_unfuzzy_gff_fn (files self)) (good_gff_fn (files self)));;
           Eff.call (ln (unfuzzy_group_fn (files self)) (group_fn (files self))));;
   Eff.call (pick_rep (isoform_filename self) (good_gff_fn (files self))
                      (group_fn (files self)) (collapsed_isoform_filename self)
                      (negb (allow_extra_5exon self)) (bad_gff_fn (files self))))%eff
    oracle tr
  = calls (late_calls self) oracle tr.
Proof.
  unfold late_calls.
  destruct (shall_collapse_fuzzy_junctions self); simpl;
    unfold Eff.bind, Eff.call, Eff.ret;
    repeat match goal with
           | |- context [oracle ?t ?c] => destruct (oracle t c)
           end; reflexivity.
Qed.

(** Whatever the external calls do, the late calls of a run are an
    initial part of [late_calls], and all of it when the run completes. *)
Lemma run_late_calls env self oracle :
  List.filter is_late (fst (Eff.run (run env self) oracle)) `prefix_of` late_calls self /\
  (is_ok (snd (Eff.run (run env self) oracle)) = true ->
   List.filter is_late (fst (Eff.run (run env self) oracle)) = late_calls self).
Proof.
  unfold Eff.run.
  destruct (run env self oracle []) as [tr res] eqn:H. simpl.
  rewrite run_late_part in H.
  apply (bind_silent_inv is_late) in H as (e1 & F1 & H);
    [|apply silent_validate_inputs].
  destruct H as [[Hr ->]|[[] H]].
  { simpl. rewrite F1, Hr. split; [apply prefix_nil|discriminate]. }
  apply (bind_silent_inv is_late) in H as (e2 & F2 & H);
    [|apply silent_Branch_init].
  destruct H as [[Hr ->]|[b H]].
  { rewrite !List.filter_app, F1, F2, Hr. split; [apply prefix_nil|discriminate]. }
  apply (bind_silent_inv is_late) in H as (e3 & F3 & H);
    [|apply silent_Branch_run].
  destruct H as [[Hr ->]|[[] H]].
  { rewrite !List.filter_app, F1, F2, F3, Hr. split; [apply prefix_nil|discriminate]. }
  rewrite late_part_is_calls in H.
  destruct (calls_trace _ _ _ _ _ H) as (pre & -> & Hp & Hok).
  assert (Hall : List.filter is_late pre = pre).
  { assert (Hl : forall c, c ∈ late_calls self -> is_late c = true).
    { intros c Hc. unfold late_calls in Hc.
      destruct (shall_collapse_fuzzy_junctions self);
        repeat (apply elem_of_cons in Hc as [->|Hc]; [reflexivity|]);
        inversion Hc. }
    destruct Hp as [k Hk]. clear -Hl Hk. revert Hl. rewrite Hk. clear Hk.
    induction pre as [|c pre IH]; intros Hl; [reflexivity|].
    simpl. rewrite (Hl c) by left. f_equal. apply IH.
    intros c' Hc'. apply Hl. right. exact Hc'. }
  rewrite !List.filter_app, F1, F2, F3, Hall. simpl.
  split; [exact Hp|exact Hok].
Qed.

Lemma filter_narrow (P Q : Call -> bool) l :
  (forall c, P c = true -> Q c = true) ->
  List.filter P (List.filter Q l) = List.filter P l.
Proof.
  intros HPQ. induction l as [|c l IH]; [reflexivity|]. simpl.
  destruct (Q c) eqn:EQ; simpl; [rewrite IH; reflexivity|].
  destruct (P c) eqn:EP; [|exact IH].
  rewrite (HPQ c EP) in EQ. discriminate.
Qed.

Lemma prefix_filter (P : Call -> bool) l1 l2 :
  l1 `prefix_of` l2 -> List.filter P l1 `prefix_of` List.filter P l2.
Proof. intros [k ->]. rewrite List.filter_app. apply prefix_app_r. reflexivity. Qed.

Lemma stage_calls_of_late self :
  List.filter is_stage_call (late_calls self)
  = if shall_collapse_fuzzy_junctions self then
      [collapse_fuzzy_junctions (good_unfuzzy_gff_fn (files self))
                                (unfuzzy_group_fn (files self))
                                (good_fuzzy_gff_fn (files self))
                                (fuzzy_group_fn (files self))
                                (allow_extra_5exon self) (max_fuzzy_junction self);
       ln (good_fuzzy_gff_fn (files self)) (good_gff_fn (files self));
       ln (fuzzy_group_fn (files self)) (group_fn (files self))]
    else
      [ln (good_unfuzzy_gff_fn (files self)) (good_gff_fn (files self));
       ln (unfuzzy_group_fn (files self)) (group_fn (files self))].
Proof. unfold late_calls. destruct (shall_collapse_fuzzy_junctions self); reflexivity. Qed.

Lemma run_stage_calls env self oracle :
  List.filter is_stage_call (fst (Eff.run (run env self) oracle))
    `prefix_of` List.filter is_stage_call (late_calls self) /\
  (is_ok (snd (Eff.run (run env self) oracle)) = true ->
   List.filter is_stage_call (fst (Eff.run (run env self) oracle))
   = List.filter is_stage_call (late_calls self)).
Proof.
  destruct (run_late_calls env self oracle) as [Hp Hok].
  rewrite <- (filter_narrow is_stage_call is_late)
    by (intros []; simpl; congruence).
  split; [apply prefix_filter, Hp|].
  intros Hr. rewrite (Hok Hr). reflexivity.
Qed.

(** C2: whatever the external calls do, a run with max_fuzzy_junction = 0
    never calls collapse_fuzzy_junctions, and the only stage calls it
    makes are the two links from the unfuzzy gff and group files to the
    final good.gff and group.txt, both made when the run completes; a run
    with max_fuzzy_junction > 0 that completes has called
    collapse_fuzzy_junctions on the unfuzzy files and then linked the
    fuzzy gff and group files to the final names. *)
Theorem fuzzy_stage_gated_by_max_fuzzy_junction env self oracle :
  let f := files self in
  let tr := fst (Eff.run (run env self) oracle) in
  let res := snd (Eff.run (run env self) oracle) in
  (max_fuzzy_junction self = 0 ->
   (forall a b c d e g, collapse_fuzzy_junctions a b c d e g ∉ tr) /\
   List.filter is_stage_call tr
     `prefix_of` [ln (good_unfuzzy_gff_fn f) (good_gff_fn f);
                  ln (unfuzzy_group_fn f) (group_fn f)] /\
   (is_ok res = true ->
    List.filter is_stage_call tr
    = [ln (good_unfuzzy_gff_fn f) (good_gff_fn f);
       ln (unfuzzy_group_fn f) (group_fn f)])) /\
  (0 < max_fuzzy_junction self ->
   List.filter is_stage_call tr
     `prefix_of` [collapse_fuzzy_junctions (good_unfuzzy_gff_fn f) (unfuzzy_group_fn f)
                                           (good_fuzzy_gff_fn f) (fuzzy_group_fn f)
                                           (allow_extra_5exon self)
                                           (max_fuzzy_junction self);
                  ln (good_fuzzy_gff_fn f) (good_gff_fn f);
                  ln (fuzzy_group_fn f) (group_fn f)] /\
   (is_ok res = true ->
    List.filter is_stage_call tr
    = [collapse_fuzzy_junctions (good_unfuzzy_gff_fn f) (unfuzzy_group_fn f)
                                (good_fuzzy_gff_fn f) (fuzzy_group_fn f)
                                (allow_extra_5exon self) (max_fuzzy_junction self);
       ln (good_fuzzy_gff_fn f) (good_gff_fn f);
       ln (fuzzy_group_fn f) (group_fn f)])).
Proof.
  intros f tr res.
  destruct (run_stage_calls env self oracle) as [Hp Hok].
  fold tr in Hp, Hok. fold res in Hok.
  rewrite stage_calls_of_late in Hp, Hok. unfold shall_collapse_fuzzy_junctions in *.
  split; intros Hm.
  - rewrite Hm in Hp, Hok. simpl in Hp, Hok. fold f in Hp, Hok.
    split; [|split; [exact Hp|exact Hok]].
    intros a b c d e g Hin.
    assert (Hf : collapse_fuzzy_junctions a b c d e g ∈ List.filter is_stage_call tr).
    { apply list_elem_of_In, List.filter_In. split; [apply list_elem_of_In, Hin|reflexivity]. }
    destruct Hp as [k Hk]. 
    assert (Hin2 : collapse_fuzzy_junctions a b c d e g
                     ∈ List.filter is_stage_call tr ++ k)
      by (apply elem_of_app; left; exact Hf).
    rewrite <- Hk in Hin2.
    repeat (apply elem_of_cons in Hin2 as [Hin2|Hin2]; [discriminate Hin2|]).
    inversion Hin2.
  - apply Z.ltb_lt in Hm. rewrite Hm in Hp, Hok. fold f in Hp, Hok.
    split; [exact Hp|exact Hok].
Qed.

(** C4: whatever the external calls do, every pick_rep call of a run
    asks for the lowest-error member exactly when allow_extra_5exon is
    disabled (and for the longest member when it is enabled), and a run
    that completes makes exactly one such call, on the final gff and group
    files, with pick_least_err_instead = not allow_extra_5exon. *)
Theorem pick_rep_mode_follows_allow_extra_5exon env self oracle :
  let f := files self in
  let tr := fst (Eff.run (run env self) oracle) in
  let res := snd (Eff.run (run env self) oracle) in
  (forall iso gff grp out pick_least_err_instead bad,
      pick_rep iso gff grp out pick_least_err_instead bad ∈ tr ->
      pick_least_err_instead = negb (allow_extra_5exon self) /\
      (pick_least_err_instead = true <-> allow_extra_5exon self = false)) /\
  (is_ok res = true ->
   List.filter is_pick_rep tr
   = [pick_rep (isoform_filename self) (good_gff_fn f) (group_fn f)
               (collapsed_isoform_filename self)
               (negb (allow_extra_5exon self)) (bad_gff_fn f)]).
Proof.
  intros f tr res.
  destruct (run_late_calls env self oracle) as [Hp Hok].
  fold tr in Hp, Hok. fold res in Hok.
  assert (Hpick : List.filter is_pick_rep (late_calls self)
                  = [pick_rep (isoform_filename self) (good_gff_fn f) (group_fn f)
                              (collapsed_isoform_filename self)
                              (negb (allow_extra_5exon self)) (bad_gff_fn f)]).
  { unfold late_calls. destruct (shall_collapse_fuzzy_junctions self); reflexivity. }
  split.
  - intros iso gff grp out flag bad Hin.
    assert (Hf : pick_rep iso gff grp out flag bad
                   ∈ List.filter is_pick_rep (List.filter is_late tr)).
    { rewrite filter_narrow by (intros []; simpl; congruence).
      apply list_elem_of_In, List.filter_In.
      split; [apply list_elem_of_In, Hin|reflexivity]. }
    apply (prefix_filter is_pick_rep) in Hp. rewrite Hpick in Hp.
    destruct Hp as [k Hk].
    assert (Hin2 : pick_rep iso gff grp out flag bad
                     ∈ List.filter is_pick_rep (List.filter is_late tr) ++ k)
      by (apply elem_of_app; left; exact Hf).
    rewrite <- Hk in Hin2.
    apply list_elem_of_singleton in Hin2. injection Hin2 as _ _ _ _ -> _.
    split; [reflexivity|]. destruct (allow_extra_5exon self); simpl; split; congruence.
  - intros Hr. rewrite <- Hpick, <- (Hok Hr).
    symmetry. apply filter_narrow. intros []; simpl; congruence.
Qed.

End CollapseIsoformsFacts.

(** ** Properties of the grouping stage *)

Module BranchFacts.
Import CollapseIsoforms EffFacts CollapseIsoformsFacts BranchSpec CollapseIsoformsSpec.
Local Open Scope Z_scope.












End BranchFacts.

(** ** A collapse run on a small SAM file *)

Module CollapseExample.
Import CollapseIsoforms CollapseIsoformsFacts BranchFacts CollapseExampleData CollapseIsoformsSpec BranchSpec.
Local Open Scope Z_scope.

(** The stage calls of a run with max_fuzzy_junction 0, and of a run with
    max_fuzzy_junction 5. *)
Lemma fuzzy_stage_gated_by_max_fuzzy_junction_witness :
  List.filter is_stage_call (fst (Eff.run (run env (runner 0 false)) Eff.no_failure))
  = [ln "out/collapsed.no5merge.collapsed.good.gff.unfuzzy"
        "out/collapsed.no5merge.collapsed.good.gff";
     ln "out/collapsed.no5merge.collapsed.group.txt.unfuzzy"
        "out/collapsed.no5merge.collapsed.group.txt"] /\
  List.filter is_stage_call (fst (Eff.run (run env (runner 5 false)) Eff.no_failure))
  = [collapse_fuzzy_junctions
       "out/collapsed.no5merge.collapsed.good.gff.unfuzzy"
       "out/collapsed.no5merge.collapsed.group.txt.unfuzzy"
       "out/collapsed.no5merge.collapsed.good.gff.fuzzy"
       "out/collapsed.no5merge.collapsed.group.txt.fuzzy" false 5;
     ln "out/collapsed.no5merge.collapsed.good.gff.fuzzy"
        "out/collapsed.no5merge.collapsed.good.gff";
     ln "out/collapsed.no5merge.collapsed.group.txt.fuzzy"
        "out/collapsed.no5merge.collapsed.group.txt"].
Proof.
  split.
  - apply (proj1 (fuzzy_stage_gated_by_max_fuzzy_junction
                    env (runner 0 false) Eff.no_failure) eq_refl).
    vm_compute. reflexivity.
  - apply (proj2 (fuzzy_stage_gated_by_max_fuzzy_junction
                    env (runner 5 false) Eff.no_failure) eq_refl).
    vm_compute. reflexivity.
Defined.

(** The pick_rep call of a run with allow_extra_5exon, and of a run
    without. *)
Lemma pick_rep_mode_follows_allow_extra_5exon_witness :
  List.filter is_pick_rep (fst (Eff.run (run env (runner 5 true)) Eff.no_failure))
  = [pick_rep "hq.fasta" "out/collapsed.5merge.collapsed.good.gff"
              "out/collapsed.5merge.collapsed.group.txt" "out/collapsed.fastq"
              false "out/collapsed.5merge.collapsed.bad.gff"] /\
  List.filter is_pick_rep (fst (Eff.run (run env (runner 5 false)) Eff.no_failure))
  = [pick_rep "hq.fasta" "out/collapsed.no5merge.collapsed.good.gff"
              "out/collapsed.no5merge.collapsed.group.txt" "out/collapsed.fastq"
              true "out/collapsed.no5merge.collapsed.bad.gff"].
Proof.
  split.
  - apply (proj2 (pick_rep_mode_follows_allow_extra_5exon
                    env (runner 5 true) Eff.no_failure)).
    vm_compute. reflexivity.
  - apply (proj2 (pick_rep_mode_follows_allow_extra_5exon
                    env (runner 5 false) Eff.no_failure)).
    vm_compute. reflexivity.
Defined.


End CollapseExample.

(** ** Properties of the count runner *)

Module CountFacts.
Import Count EffFacts CountSpec.





End CountFacts.

(** * More facts on strings *)

Module PyStrMore.
Import PyStr PyStrFacts.

Lemma str_app_cons c a b : String c a +:+ b = String c (a +:+ b).
Proof. reflexivity. Qed.

Lemma str_app_nil_l s : "" +:+ s = s.
Proof. reflexivity. Qed.

Lemma str_app_nil_r s : s +:+ "" = s.
Proof.
  induction s as [|c s IH]; [reflexivity|]. now rewrite str_app_cons, IH.
Qed.

Lemma str_app_assoc a b c : (a +:+ b) +:+ c = a +:+ (b +:+ c).
Proof.
  induction a as [|x a IH]; [reflexivity|]. now rewrite !str_app_cons, IH.
Qed.

Lemma str_app_length a b : String.length (a +:+ b) = String.length a + String.length b.
Proof.
  induction a as [|x a IH]; [reflexivity|]. rewrite str_app_cons. cbn. now rewrite IH.
Qed.

Lemma str_app_inv_tail a b t : a +:+ t = b +:+ t -> a = b.
Proof.
  revert b. induction a as [|x a IH]; intros [|y b] H.
  - reflexivity.
  - apply (f_equal String.length) in H.
    rewrite str_app_nil_l, str_app_cons in H. cbn in H.
    rewrite str_app_length in H. lia.
  - apply (f_equal String.length) in H.
    rewrite str_app_nil_l, str_app_cons in H. cbn in H.
    rewrite str_app_length in H. lia.
  - rewrite !str_app_cons in H. injection H as -> H. f_equal. now apply IH.
Qed.

Lemma str_app_neq_self a t : t <> "" -> a +:+ t <> a.
Proof.
  intros Ht H. apply (f_equal String.length) in H. rewrite str_app_length in H.
  destruct t; [congruence | cbn in H; lia].
Qed.

(** ** strip *)

Lemma rstrip_nonspace c s :
  isspace c = false -> rstrip (String c s) = String c (rstrip s).
Proof. intros H. cbn. rewrite H. now destruct (rstrip s). Qed.

Lemma rstrip_cons c s :
  rstrip (String c s)
  = match rstrip s with
    | EmptyString => if isspace c then EmptyString else String c EmptyString
    | r => String c r
    end.
Proof. reflexivity. Qed.

Lemma rstrip_idem s : rstrip (rstrip s) = rstrip s.
Proof.
  induction s as [|c s IH]; [reflexivity|].
  destruct (isspace c) eqn:Hc.
  - rewrite rstrip_cons. destruct (rstrip s) as [|d r] eqn:E.
    + now rewrite Hc.
    + rewrite rstrip_cons, IH. reflexivity.
  - now rewrite (rstrip_nonspace _ _ Hc), (rstrip_nonspace _ _ Hc), IH.
Qed.

Lemma lstrip_head s :
  lstrip s = "" \/ exists c t, lstrip s = String c t /\ isspace c = false.
Proof.
  induction s as [|c s IH]; [now left|].
  cbn. destruct (isspace c) eqn:Hc; [exact IH|].
  right. now exists c, s.
Qed.

Lemma lstrip_nonspace c s : isspace c = false -> lstrip (String c s) = String c s.
Proof. intros H. cbn. now rewrite H. Qed.

Lemma strip_idem s : strip (strip s) = strip s.
Proof.
  unfold strip. destruct (lstrip_head s) as [-> | (c & t & -> & Hc)]; [reflexivity|].
  rewrite (rstrip_nonspace _ _ Hc), (lstrip_nonspace _ _ Hc), (rstrip_nonspace _ _ Hc).
  now rewrite rstrip_idem.
Qed.

Lemma strip_nonspace_head c s :
  isspace c = false -> strip (String c s) = String c (rstrip s).
Proof. intros H. unfold strip. now rewrite (lstrip_nonspace _ _ H), (rstrip_nonspace _ _ H). Qed.

(** ** split *)

Lemma split_nonempty sep s : split sep s <> [].
Proof.
  destruct s as [|c s]; cbn; [discriminate|].
  destruct (Ascii.eqb c sep); [discriminate|]. now destruct (split sep s).
Qed.

Lemma split_fields_clean sep s :
  Forall (fun f => contains sep f = false) (split sep s).
Proof.
  induction s as [|c s IH]; cbn.
  - now repeat constructor.
  - destruct (Ascii.eqb c sep) eqn:Hc.
    + constructor; [reflexivity | exact IH].
    + destruct (split sep s) as [|f fs].
      * repeat constructor. cbn. now rewrite Hc.
      * inversion IH as [|? ? Hf Hfs]; subst. constructor; [|exact Hfs].
        cbn. now rewrite Hc, Hf.
Qed.

Lemma split_keeps_clean c sep s :
  contains c s = false ->
  Forall (fun f => contains c f = false) (split sep s).
Proof.
  induction s as [|x s IH]; cbn; intros H.
  - now repeat constructor.
  - apply orb_false_iff in H as [Hx Hs]. specialize (IH Hs).
    destruct (Ascii.eqb x sep).
    + constructor; [reflexivity | exact IH].
    + destruct (split sep s) as [|f fs].
      * repeat constructor. cbn. now rewrite Hx.
      * inversion IH as [|? ? Hf Hfs]; subst. constructor; [|exact Hfs].
        cbn. now rewrite Hx, Hf.
Qed.

Lemma split_app sep a b :
  split sep (a +:+ String sep b) = split sep a ++ split sep b.
Proof.
  induction a as [|x a IH].
  - rewrite str_app_nil_l. cbn. now rewrite Ascii.eqb_refl.
  - rewrite str_app_cons. cbn [split]. rewrite IH.
    destruct (Ascii.eqb x sep); [reflexivity|].
    pose proof (split_nonempty sep a) as Hne.
    destruct (split sep a) as [|f fs]; [congruence | reflexivity].
Qed.

End PyStrMore.

(** * Facts on os.path *)

Module PathFacts.
Import PyStr PyStrFacts PyStrMore CollapseIsoforms.

Lemma split_last_slash_cons c p :
  split_last_slash (String c p)
  = let '(h, t) := split_last_slash p in
    match h with
    | String _ _ => (String c h, t)
    | EmptyString =>
        if Ascii.eqb c slash then (String c EmptyString, p)
        else (EmptyString, String c t)
    end.
Proof. reflexivity. Qed.

Lemma split_last_slash_no_slash t :
  contains slash t = false -> split_last_slash t = (EmptyString, t).
Proof.
  induction t as [|c t IH]; [reflexivity|]. cbn [contains]. intros H.
  apply orb_false_iff in H as [Hc Ht].
  rewrite split_last_slash_cons, (IH Ht), Hc. reflexivity.
Qed.

Lemma split_last_slash_app h t :
  contains slash t = false ->
  split_last_slash (h +:+ String slash t) = (h +:+ String slash EmptyString, t).
Proof.
  intros Ht. induction h as [|c h IH].
  - rewrite !str_app_nil_l, split_last_slash_cons, (split_last_slash_no_slash _ Ht).
    reflexivity.
  - rewrite !str_app_cons, split_last_slash_cons, IH.
    destruct h; reflexivity.
Qed.

Lemma all_slashes_rstrip h : all_slashes h = true -> rstrip_slash h = EmptyString.
Proof.
  induction h as [|c h IH]; [reflexivity|]. cbn [all_slashes]. intros H.
  apply andb_true_iff in H as [Hc Hh]. cbn [rstrip_slash]. now rewrite (IH Hh), Hc.
Qed.

Lemma all_slashes_app a b : all_slashes a = false -> all_slashes (a +:+ b) = false.
Proof.
  induction a as [|c a IH]; [discriminate|]. rewrite str_app_cons. cbn [all_slashes].
  intros H. apply andb_false_iff in H as [H|H].
  - now rewrite H.
  - rewrite (IH H). apply andb_false_r.
Qed.

Lemma no_trailing_slash h :
  h <> EmptyString -> ends_with_slash h = false ->
  all_slashes h = false /\ rstrip_slash h = h.
Proof.
  unfold ends_with_slash. intros Hne H. apply negb_false_iff, String.eqb_eq in H.
  split; [|exact H]. destruct (all_slashes h) eqn:E; [|reflexivity].
  rewrite (all_slashes_rstrip _ E) in H. congruence.
Qed.

Lemma rstrip_slash_snoc h : rstrip_slash (h +:+ String slash EmptyString) = rstrip_slash h.
Proof.
  induction h as [|c h IH]; [reflexivity|].
  rewrite str_app_cons. cbn [rstrip_slash]. now rewrite IH.
Qed.

(** [dirname] and [basename] of a directory followed by a file name. *)
Lemma dirname_app h t :
  h <> EmptyString -> ends_with_slash h = false -> contains slash t = false ->
  dirname (h +:+ String slash t) = h.
Proof.
  intros Hne Hend Ht. destruct (no_trailing_slash _ Hne Hend) as [Hall Hr].
  unfold dirname. rewrite (split_last_slash_app _ _ Ht). cbn [fst].
  now rewrite (all_slashes_app _ _ Hall), rstrip_slash_snoc.
Qed.

Lemma basename_app h t :
  contains slash t = false -> basename (h +:+ String slash t) = t.
Proof. intros Ht. unfold basename. now rewrite (split_last_slash_app _ _ Ht). Qed.

Lemma dirname_no_slash t : contains slash t = false -> dirname t = EmptyString.
Proof. intros Ht. unfold dirname. now rewrite (split_last_slash_no_slash _ Ht). Qed.

Lemma basename_no_slash t : contains slash t = false -> basename t = t.
Proof. intros Ht. unfold basename. now rewrite (split_last_slash_no_slash _ Ht). Qed.

Lemma path_join_dir d b :
  d <> EmptyString -> ends_with_slash d = false -> contains slash b = false ->
  path_join d b = d +:+ String slash b.
Proof.
  intros Hne Hend Hb. unfold path_join.
  assert (String.eqb d EmptyString = false) as Hd.
  { apply String.eqb_neq. exact Hne. }
  rewrite Hd, Hend. cbn [orb]. destruct b as [|c b]; [reflexivity|].
  cbn [contains] in Hb. apply orb_false_iff in Hb as [-> _]. reflexivity.
Qed.

Lemma path_join_empty b : contains slash b = false -> path_join EmptyString b = b.
Proof.
  intros Hb. unfold path_join. destruct b as [|c b]; [reflexivity|].
  cbn [contains] in Hb. apply orb_false_iff in Hb as [-> _]. reflexivity.
Qed.

Lemma ends_with_slash_app d t :
  t <> EmptyString -> contains slash t = false ->
  ends_with_slash (d +:+ String slash t) = false.
Proof.
  intros Hne Ht. unfold ends_with_slash. apply negb_false_iff, String.eqb_eq.
  assert (rstrip_slash t = t) as Hr.
  { clear Hne. induction t as [|c t IH]; [reflexivity|].
    cbn [contains] in Ht. apply orb_false_iff in Ht as [Hc Ht].
    cbn [rstrip_slash]. rewrite (IH Ht), Hc. now destruct t. }
  assert (forall c, rstrip_slash (String c t) = String c t) as Hcons.
  { intros c. cbn [rstrip_slash]. rewrite Hr. destruct t; [congruence | reflexivity]. }
  induction d as [|c d IH].
  - rewrite str_app_nil_l. apply Hcons.
  - rewrite str_app_cons. cbn [rstrip_slash]. rewrite IH.
    destruct d; reflexivity.
Qed.

End PathFacts.

(** * Group files: parsing, reading and writing *)

Module GroupFileFacts.
Import PyStr PyStrFacts PyStrMore GroupIO GroupIOSpec GroupIOFacts GroupFile GroupFileSpec.

Lemma fromString_inv line r :
  fromString line = Ok r ->
  exists f0 f1, split tab (strip line) = [f0; f1] /\ r = mkGroupRecord f0 (split comma f1).
Proof.
  unfold fromString. intros H.
  destruct (split tab (strip line)) as [|f0 [|f1 [|f2 fs]]]; try discriminate.
  injection H as <-. now exists f0, f1.
Qed.

Lemma fromString_raise_inv line e :
  fromString line = Raise e ->
  e = ValueError [not_valid_msg line] /\ length (split tab (strip line)) <> 2.
Proof.
  unfold fromString. intros H.
  destruct (split tab (strip line)) as [|f0 [|f1 [|f2 fs]]]; try discriminate;
    injection H as <-; (split; [reflexivity | cbn; lia]).
Qed.

Lemma fromString_of_fields line f0 f1 :
  split tab (strip line) = [f0; f1] ->
  fromString line = Ok (mkGroupRecord f0 (split comma f1)).
Proof. unfold fromString. now intros ->. Qed.

(** X1 (GroupRecord.fromString): whatever line is parsed, the record
    obtained has a name without a tab and a non-empty list of members
    without tabs and commas; it prints as the stripped line, and parsing
    what it prints gives the same record again. *)
Theorem fromString_yields_well_delimited line r :
  fromString line = Ok r ->
  well_delimited r /\ to_str r = strip line /\ fromString (to_str r) = Ok r.
Proof.
  intros H. pose proof (fromString_ok_inv _ _ H) as Hstr.
  destruct (fromString_inv _ _ H) as (f0 & f1 & Hf & ->).
  pose proof (split_fields_clean tab (strip line)) as Hclean.
  rewrite Hf in Hclean. inversion Hclean as [|? ? H0 Hrest]; subst.
  inversion Hrest as [|? ? H1 _]; subst.
  split; [|split].
  - split; [exact H0|]. split; [apply split_nonempty|]. cbn [members].
    pose proof (split_keeps_clean tab comma f1 H1) as Ht.
    pose proof (split_fields_clean comma f1) as Hc.
    rewrite Forall_forall in Ht, Hc |- *. intros m Hm. split; auto.
  - exact Hstr.
  - rewrite Hstr. apply fromString_of_fields. now rewrite strip_idem.
Qed.

Lemma fromString_yields_well_delimited_witness :
  well_delimited (mkGroupRecord "PB.1.1" ["i0"; "i1"]) /\
  to_str (mkGroupRecord "PB.1.1" ["i0"; "i1"])
    = strip ("  PB.1.1" +:+ String tab "i0,i1 " +:+ String newline "") /\
  fromString (to_str (mkGroupRecord "PB.1.1" ["i0"; "i1"]))
    = Ok (mkGroupRecord "PB.1.1" ["i0"; "i1"]).
Proof.
  apply (fromString_yields_well_delimited
           ("  PB.1.1" +:+ String tab "i0,i1 " +:+ String newline "")
           (mkGroupRecord "PB.1.1" ["i0"; "i1"])).
  vm_compute. reflexivity.
Defined.

(** ** The lines of a written file *)

Lemma fold_writeRecord rs : forall acc,
  fold_left writeRecord rs acc = acc +:+ written rs.
Proof.
  induction rs as [|r rs IH]; intros acc; cbn [fold_left written fold_right].
  - now rewrite str_app_nil_r.
  - rewrite IH. unfold writeRecord. now rewrite !str_app_assoc.
Qed.

Lemma writeRecords_written rs : writeRecords rs = written rs.
Proof. unfold writeRecords. now rewrite fold_writeRecord. Qed.

Lemma written_lines rs :
  split newline (written rs)
  = flat_map (fun r => split newline (to_str r)) rs ++ [""].
Proof.
  induction rs as [|r rs IH]; [reflexivity|].
  cbn [written fold_right flat_map]. fold (written rs).
  now rewrite split_app, IH, <- app_assoc.
Qed.

Lemma iter_lines_cons_skip file_name line lines :
  is_record_line (strip line) = false ->
  iter_lines file_name (line :: lines) = iter_lines file_name lines.
Proof. intros H. cbn [iter_lines]. now rewrite H. Qed.

Lemma iter_lines_skip file_name l1 line l2 :
  is_record_line (strip line) = false ->
  iter_lines file_name (l1 ++ line :: l2) = iter_lines file_name (l1 ++ l2).
Proof.
  intros H. induction l1 as [|x l1 IH].
  - now apply iter_lines_cons_skip.
  - cbn [app iter_lines]. now rewrite IH.
Qed.

Lemma to_str_record_line r :
  is_record_line (name r) = true -> is_record_line (to_str r) = true.
Proof.
  unfold to_str. destruct (name r) as [|c n]; [discriminate|].
  now rewrite str_app_cons.
Qed.

Lemma iter_lines_writable file_name r lines :
  writable r ->
  iter_lines file_name (to_str r :: lines) = Ok r :: iter_lines file_name lines.
Proof.
  intros (Hwd & Hstrip & _ & Hname). cbn [iter_lines].
  rewrite Hstrip, (to_str_record_line _ Hname).
  assert (fromString (to_str r) = Ok r) as ->; [|reflexivity].
  unfold fromString. rewrite Hstrip, (fromString_unstripped _ Hwd).
  destruct Hwd as (_ & Hne & Hm). rewrite split_join.
  - now destruct r.
  - exact Hne.
  - eapply Forall_impl; [exact Hm|]. now intros m [_ ?].
Qed.

(** X2 (GroupWriter.writeRecord, GroupReader.__iter__): reading a file to
    which records were written yields exactly these records, in order,
    when each of them has well delimited fields, a line without white
    space at its ends and without a newline, and a name that is not empty
    and does not start with '#'. *)
Theorem GroupReader_reads_back_written_records file_name rs :
  Forall writable rs ->
  GroupReader file_name (writeRecords rs) = map Ok rs.
Proof.
  intros Hrs. unfold GroupReader. rewrite writeRecords_written, written_lines.
  induction Hrs as [|r rs Hr _ IH]; [reflexivity|].
  cbn [flat_map map]. destruct Hr as (Hwd & Hstrip & Hnl & Hname).
  rewrite (split_no_sep _ _ Hnl). cbn [app].
  rewrite iter_lines_writable by (repeat split; assumption || apply Hwd).
  now rewrite IH.
Qed.

Lemma GroupReader_reads_back_written_records_witness :
  GroupReader "c.group.txt"
              (writeRecords [mkGroupRecord "PB.1.1" ["i0"; "i1"]; mkGroupRecord "PB.2.1" ["i2"]])
  = [Ok (mkGroupRecord "PB.1.1" ["i0"; "i1"]); Ok (mkGroupRecord "PB.2.1" ["i2"])].
Proof.
  apply (GroupReader_reads_back_written_records
           "c.group.txt"
           [mkGroupRecord "PB.1.1" ["i0"; "i1"]; mkGroupRecord "PB.2.1" ["i2"]]).
  constructor; [|constructor; [|constructor]];
    (repeat split; try reflexivity; try discriminate; repeat constructor).
Defined.

(** X3 (GroupReader.__iter__, GroupWriter.writeRecord): a record whose name
    starts with '#' is written like any other, and is never read back: the
    reader takes its line for a comment, so the file reads as if the
    record had not been written. *)
Theorem GroupReader_drops_hash_named_record file_name rs1 r rs2 n :
  name r = String hash n ->
  contains newline (to_str r) = false ->
  GroupReader file_name (writeRecords (rs1 ++ r :: rs2))
  = GroupReader file_name (writeRecords (rs1 ++ rs2)).
Proof.
  intros Hname Hnl. unfold GroupReader.
  rewrite !writeRecords_written, !written_lines, !flat_map_app.
  cbn [flat_map]. rewrite (split_no_sep _ _ Hnl). cbn [app].
  rewrite <- !app_assoc. cbn [app]. apply iter_lines_skip.
  unfold to_str. rewrite Hname, str_app_cons.
  rewrite strip_nonspace_head by reflexivity. reflexivity.
Qed.

Lemma GroupReader_drops_hash_named_record_witness :
  GroupReader "c.group.txt"
              (writeRecords ([mkGroupRecord "PB.1.1" ["i0"]]
                               ++ mkGroupRecord "#PB.2.1" ["i1"]
                               :: [mkGroupRecord "PB.3.1" ["i2"]]))
  = GroupReader "c.group.txt"
                (writeRecords ([mkGroupRecord "PB.1.1" ["i0"]]
                                 ++ [mkGroupRecord "PB.3.1" ["i2"]])).
Proof.
  apply (GroupReader_drops_hash_named_record
           "c.group.txt" [mkGroupRecord "PB.1.1" ["i0"]]
           (mkGroupRecord "#PB.2.1" ["i1"]) [mkGroupRecord "PB.3.1" ["i2"]] "PB.2.1");
    reflexivity.
Defined.

Lemma iter_lines_shape file_name lines :
  exists rs,
    iter_lines file_name lines = map Ok rs \/
    exists line,
      line ∈ lines /\ is_record_line (strip line) = true /\
      length (split tab (strip line)) <> 2 /\
      iter_lines file_name lines
      = map Ok rs ++ [Raise (ValueError [not_valid_msg (strip line)])].
Proof.
  induction lines as [|l lines (rs & IH)].
  - exists []. now left.
  - cbn [iter_lines]. destruct (is_record_line (strip l)) eqn:Hl.
    + destruct (fromString (strip l)) as [r|e] eqn:Hf.
      * exists (r :: rs). destruct IH as [-> | (line & Hin & H1 & H2 & ->)].
        -- now left.
        -- right. exists line. repeat split; try assumption. now right.
      * exists []. right. exists l.
        destruct (fromString_raise_inv _ _ Hf) as [-> Hlen].
        rewrite strip_idem in Hlen.
        repeat split; try assumption. now left.
    + exists rs. destruct IH as [-> | (line & Hin & H1 & H2 & ->)].
      * now left.
      * right. exists line. repeat split; try assumption. now right.
Qed.

Lemma iter_lines_file_name fn1 fn2 lines :
  iter_lines fn1 lines = iter_lines fn2 lines.
Proof.
  induction lines as [|l lines IH]; [reflexivity|].
  cbn [iter_lines]. destruct (is_record_line (strip l)); [|exact IH].
  destruct (fromString (strip l)) as [r|e] eqn:Hf; [now rewrite IH|].
  now destruct (fromString_raise_inv _ _ Hf) as [-> _].
Qed.

(** X4 (GroupReader.__iter__): the reader yields records and may then
    raise, once and last; what it raises is the ValueError of
    [GroupRecord.fromString] on a stripped line of the file that is neither
    empty nor a comment and has not exactly two tab-separated fields. The
    handler for AssertionError never applies: the stream does not depend
    on the name of the file. *)
Theorem GroupReader_raises_only_on_malformed_line file_name content :
  (exists rs,
      GroupReader file_name content = map Ok rs \/
      exists line,
        line ∈ split newline content /\ is_record_line (strip line) = true /\
        length (split tab (strip line)) <> 2 /\
        GroupReader file_name content
        = map Ok rs ++ [Raise (ValueError [not_valid_msg (strip line)])]) /\
  (forall other_name, GroupReader other_name content = GroupReader file_name content).
Proof.
  split; [apply iter_lines_shape|]. intros other. apply iter_lines_file_name.
Qed.

End GroupFileFacts.

(** * Chaining: what the abundance and mega-info maps hold *)

Module ChainReadFacts.
Import ChainSamples ChainAbundanceSpec ChainAbundanceFacts ChainExampleData.

Lemma read_abundance_total s field rs :
  (forall r, r ∈ rs -> is_Some (metrics r !! field)) ->
  forall info, is_ok (read_abundance s field rs info) = true.
Proof.
  induction rs as [|r rs IH]; simpl; intros H info; [reflexivity|].
  destruct (H r) as [v ->]; [left|]. apply IH. intros r' Hin. apply H. now right.
Qed.

(** X5 (get_abundance_info): the abundance map is obtained exactly when
    the abundance file of every sample can be read and every record of
    every file has the requested field. In particular files without
    records are accepted whatever the field. *)
Theorem get_abundance_info_ok_iff fs samples field :
  is_ok (get_abundance_info fs samples field) = true <->
  forall s, s ∈ samples ->
            exists rs, abundance_files fs !! abundance_fn s = Some rs /\
                       forall r, r ∈ rs -> is_Some (metrics r !! field).
Proof.
  unfold get_abundance_info. generalize (∅ : gmap (string * string) Q).
  induction samples as [|s ss IH]; intros info; simpl.
  - split; [intros _ s Hin; inversion Hin | reflexivity].
  - unfold AbundanceReader.
    destruct (abundance_files fs !! abundance_fn s) as [rs|] eqn:Hf; simpl.
    + destruct (read_abundance s field rs info) as [info1|e] eqn:Hr; simpl.
      * rewrite IH. split.
        -- intros H s' Hin. apply elem_of_cons in Hin as [->|Hin]; [|now apply H].
           exists rs. split; [exact Hf|]. eapply read_abundance_ok_inv; eauto.
        -- intros H s' Hin. apply H. now right.
      * split; [discriminate|]. intros H.
        destruct (H s) as (rs' & Hf' & Hall); [left|].
        rewrite Hf in Hf'. injection Hf' as <-.
        pose proof (read_abundance_total s field rs Hall info) as Hok.
        now rewrite Hr in Hok.
    + split; [discriminate|]. intros H.
      destruct (H s) as (rs' & Hf' & _); [left|]. congruence.
Qed.

Lemma read_abundance_frame s field rs info info' key :
  read_abundance s field rs info = Ok info' ->
  (forall r, r ∈ rs -> key <> (name s, pbid r)) ->
  info' !! key = info !! key.
Proof.
  revert info. induction rs as [|r rs IH]; simpl; intros info H Hkey.
  - now injection H as <-.
  - destruct (metrics r !! field) as [v|]; [|discriminate].
    rewrite (IH _ H) by (intros r' Hin; apply Hkey; now right).
    apply lookup_insert_ne. intros Heq. apply (Hkey r); [left | now symmetry].
Qed.

Lemma read_abundance_mono s field rs info info' key :
  read_abundance s field rs info = Ok info' ->
  is_Some (info !! key) -> is_Some (info' !! key).
Proof.
  revert info. induction rs as [|r rs IH]; simpl; intros info H Hk.
  - now injection H as <-.
  - destruct (metrics r !! field) as [v|]; [|discriminate].
    apply (IH _ H). destruct (decide ((name s, pbid r) = key)) as [<-|Hne].
    + rewrite lookup_insert_eq. eauto.
    + now rewrite lookup_insert_ne.
Qed.

Lemma read_abundance_complete s field rs info info' r :
  read_abundance s field rs info = Ok info' ->
  r ∈ rs -> is_Some (info' !! (name s, pbid r)).
Proof.
  revert info. induction rs as [|r0 rs IH]; simpl; intros info H Hin.
  - inversion Hin.
  - destruct (metrics r0 !! field) as [v|]; [|discriminate].
    apply elem_of_cons in Hin as [->|Hin]; [|now apply (IH _ H)].
    eapply read_abundance_mono; [exact H|]. rewrite lookup_insert_eq. eauto.
Qed.

Lemma read_abundance_value s field rs info info' r :
  read_abundance s field rs info = Ok info' ->
  NoDup (map pbid rs) ->
  r ∈ rs -> info' !! (name s, pbid r) = metrics r !! field.
Proof.
  revert info. induction rs as [|r0 rs IH]; simpl; intros info H Hnd Hin.
  - inversion Hin.
  - destruct (metrics r0 !! field) as [v|] eqn:E; [|discriminate].
    apply NoDup_cons in Hnd as [Hr0 Hnd].
    apply elem_of_cons in Hin as [->|Hin]; [|now apply (IH _ H)].
    rewrite (read_abundance_frame _ _ _ _ _ _ H).
    + now rewrite lookup_insert_eq, E.
    + intros r' Hin' Heq. injection Heq as Heq. apply Hr0. rewrite Heq.
      apply list_elem_of_fmap. now exists r'.
Qed.

Lemma get_abundance_info_from_frame fs samples field info info' c p :
  get_abundance_info_from fs samples field info = Ok info' ->
  c ∉ map name samples ->
  info' !! (c, p) = info !! (c, p).
Proof.
  revert info. induction samples as [|s ss IH]; simpl; intros info H Hc.
  - now injection H as <-.
  - unfold AbundanceReader in H.
    destruct (abundance_files fs !! abundance_fn s) as [rs|]; [|discriminate].
    simpl in H.
    destruct (read_abundance s field rs info) as [info1|e] eqn:Hr; [|discriminate].
    simpl in H. apply not_elem_of_cons in Hc as [Hc1 Hc2].
    rewrite (IH _ H Hc2). apply (read_abundance_frame _ _ _ _ _ _ Hr).
    intros r _ Heq. injection Heq as Heq _. contradiction.
Qed.

Lemma get_abundance_info_from_mono fs samples field info info' key :
  get_abundance_info_from fs samples field info = Ok info' ->
  is_Some (info !! key) -> is_Some (info' !! key).
Proof.
  revert info. induction samples as [|s ss IH]; simpl; intros info H Hk.
  - now injection H as <-.
  - unfold AbundanceReader in H.
    destruct (abundance_files fs !! abundance_fn s) as [rs|]; [|discriminate].
    simpl in H.
    destruct (read_abundance s field rs info) as [info1|e] eqn:Hr; [|discriminate].
    simpl in H. apply (IH _ H). eapply read_abundance_mono; eauto.
Qed.

Lemma get_abundance_info_from_complete fs samples field info info' s rs r :
  get_abundance_info_from fs samples field info = Ok info' ->
  s ∈ samples -> abundance_files fs !! abundance_fn s = Some rs -> r ∈ rs ->
  is_Some (info' !! (name s, pbid r)).
Proof.
  revert info. induction samples as [|s0 ss IH]; simpl; intros info H Hs Hf Hin.
  - inversion Hs.
  - unfold AbundanceReader in H.
    destruct (abundance_files fs !! abundance_fn s0) as [rs0|] eqn:Hf0; [|discriminate].
    simpl in H.
    destruct (read_abundance s0 field rs0 info) as [info1|e] eqn:Hr; [|discriminate].
    simpl in H. apply elem_of_cons in Hs as [->|Hs]; [|now apply (IH _ H)].
    rewrite Hf in Hf0. injection Hf0 as <-.
    eapply get_abundance_info_from_mono; [exact H|].
    eapply read_abundance_complete; eauto.
Qed.

Lemma get_abundance_info_from_value fs samples field info info' s rs r :
  get_abundance_info_from fs samples field info = Ok info' ->
  NoDup (map name samples) ->
  s ∈ samples -> abundance_files fs !! abundance_fn s = Some rs ->
  NoDup (map pbid rs) -> r ∈ rs ->
  info' !! (name s, pbid r) = metrics r !! field.
Proof.
  revert info. induction samples as [|s0 ss IH]; simpl; intros info H Hnd Hs Hf Hrs Hin.
  - inversion Hs.
  - unfold AbundanceReader in H.
    destruct (abundance_files fs !! abundance_fn s0) as [rs0|] eqn:Hf0; [|discriminate].
    simpl in H.
    destruct (read_abundance s0 field rs0 info) as [info1|e] eqn:Hr; [|discriminate].
    simpl in H. apply NoDup_cons in Hnd as [Hs0 Hnd].
    apply elem_of_cons in Hs as [->|Hs]; [|now apply (IH _ H)].
    rewrite Hf in Hf0. injection Hf0 as <-.
    rewrite (get_abundance_info_from_frame _ _ _ _ _ _ _ H Hs0).
    eapply read_abundance_value; eauto.
Qed.

(** X6 (get_abundance_info): the abundance map has an entry for a pair
    (sample name, isoform id) exactly when a record of that id is in the
    abundance file of a sample of that name; and when the sample names
    are distinct and the ids of a file are distinct, the entry of each of
    its records is the value of the requested field in that record. *)
Theorem get_abundance_info_reads_each_record fs samples field info :
  get_abundance_info fs samples field = Ok info ->
  (forall c p,
      is_Some (info !! (c, p)) <->
      exists s rs r,
        s ∈ samples /\ name s = c /\
        abundance_files fs !! abundance_fn s = Some rs /\ r ∈ rs /\ pbid r = p) /\
  (NoDup (map name samples) ->
   forall s rs r,
     s ∈ samples -> abundance_files fs !! abundance_fn s = Some rs ->
     NoDup (map pbid rs) -> r ∈ rs ->
     info !! (name s, pbid r) = metrics r !! field).
Proof.
  intros H. split.
  - intros c p. split.
    + intros [n Hn].
      destruct (get_abundance_info_sound _ _ _ _ _ _ _ H Hn)
        as (s & rs & r & Hs & Hc & Hf & Hr & Hp & _).
      now exists s, rs, r.
    + intros (s & rs & r & Hs & <- & Hf & Hr & <-).
      eapply get_abundance_info_from_complete; eauto.
  - intros Hnd s rs r Hs Hf Hrs Hr.
    eapply get_abundance_info_from_value; eauto.
Qed.

Lemma get_abundance_info_reads_each_record_witness :
  (forall c p,
      is_Some (abundance_info !! (c, p)) <->
      exists s rs r,
        s ∈ [s1; s2; s3] /\ name s = c /\
        abundance_files files !! abundance_fn s = Some rs /\ r ∈ rs /\ pbid r = p) /\
  (NoDup (map name [s1; s2; s3]) ->
   forall s rs r,
     s ∈ [s1; s2; s3] -> abundance_files files !! abundance_fn s = Some rs ->
     NoDup (map pbid rs) -> r ∈ rs ->
     abundance_info !! (name s, pbid r) = metrics r !! "count_fl").
Proof.
  apply (get_abundance_info_reads_each_record files [s1; s2; s3] "count_fl" abundance_info).
  vm_compute. reflexivity.
Defined.

(** ** The mega-info map *)

Lemma read_mega_info_sound prefix rs d d' key p r :
  read_mega_info prefix rs d = Ok d' ->
  d' !! (key, p) = Some r ->
  d !! (key, p) = Some r \/ (key = prefix /\ r ∈ rs /\ r !! "pbid" = Some p).
Proof.
  revert d. induction rs as [|r0 rs IH]; simpl; intros d H Hl.
  - injection H as <-. now left.
  - unfold getitem in H. destruct (r0 !! "pbid") as [p0|] eqn:E; [|discriminate].
    simpl in H. destruct (IH _ H Hl) as [Hi|(-> & Hin & Hp)].
    + destruct (decide ((prefix, p0) = (key, p))) as [Heq|Hne].
      * rewrite Heq, lookup_insert_eq in Hi. injection Hi as ->.
        injection Heq as <- <-. right. split; [reflexivity|]. split; [left | exact E].
      * rewrite lookup_insert_ne in Hi by exact Hne. now left.
    + right. split; [reflexivity|]. split; [now right | exact Hp].
Qed.

Lemma read_mega_info_ok_iff prefix rs d :
  is_ok (read_mega_info prefix rs d) = true <->
  forall r, r ∈ rs -> is_Some (r !! "pbid").
Proof.
  revert d. induction rs as [|r0 rs IH]; simpl; intros d.
  - split; [intros _ r Hin; inversion Hin | reflexivity].
  - unfold getitem. destruct (r0 !! "pbid") as [p0|] eqn:E; simpl.
    + rewrite IH. split.
      * intros H r Hin. apply elem_of_cons in Hin as [->|Hin]; [rewrite E; eauto | now apply H].
      * intros H r Hin. apply H. now right.
    + split; [discriminate|]. intros H. destruct (H r0) as [? Hp]; [left|]. congruence.
Qed.

Lemma get_mega_info_dict_from_cons fs s ss d :
  get_mega_info_dict_from fs (s :: ss) d
  = (rs <- MegaInfoReader fs (o_mega_fn (ChainFiles_of (name s)));;
     d1 <- read_mega_info (o_prefix (ChainFiles_of (name s))) rs d;;
     get_mega_info_dict_from fs ss d1)%res.
Proof. reflexivity. Qed.

Lemma get_mega_info_dict_from_sound fs samples d d' key p r :
  get_mega_info_dict_from fs samples d = Ok d' ->
  d' !! (key, p) = Some r ->
  d !! (key, p) = Some r \/
  exists s rows,
    s ∈ samples /\ key = o_prefix (ChainFiles_of (name s)) /\
    mega_info_files fs !! o_mega_fn (ChainFiles_of (name s)) = Some rows /\
    r ∈ rows /\ r !! "pbid" = Some p.
Proof.
  revert d. induction samples as [|s ss IH]; intros d H Hl.
  - injection H as <-. now left.
  - rewrite get_mega_info_dict_from_cons in H. unfold MegaInfoReader in H.
    destruct (mega_info_files fs !! o_mega_fn (ChainFiles_of (name s)))
      as [rows|] eqn:Hf; [|discriminate].
    cbv beta iota delta [bindR] in H.
    destruct (read_mega_info (o_prefix (ChainFiles_of (name s))) rows d)
      as [d1|e] eqn:Hr; [|discriminate].
    destruct (IH _ H Hl) as [Hi|(s' & rows' & Hin & ?)].
    + destruct (read_mega_info_sound _ _ _ _ _ _ _ Hr Hi) as [Hi0|(-> & Hin & Hp)];
        [now left|].
      right. exists s, rows. split; [left|]. repeat split; assumption.
    + right. exists s', rows'. split; [now right | assumption].
Qed.

(** X7 (get_mega_info_dict): every entry of the mega-info map, under the
    key (prefix, id), is a row of the mega-info file of one of the samples,
    the prefix is the 'tmp_' prefix of that sample, and the row carries
    that id in its 'pbid' column. *)
Theorem get_mega_info_dict_entries_are_rows fs samples d key p r :
  get_mega_info_dict fs samples = Ok d ->
  d !! (key, p) = Some r ->
  exists s rows,
    s ∈ samples /\ key = "tmp_" +:+ name s /\
    mega_info_files fs !! ("tmp_" +:+ name s +:+ ".mega_info.txt") = Some rows /\
    r ∈ rows /\ r !! "pbid" = Some p.
Proof.
  intros H Hl.
  destruct (get_mega_info_dict_from_sound _ _ _ _ _ _ _ H Hl) as [He|Hx]; [|exact Hx].
  rewrite lookup_empty in He. discriminate.
Qed.

Lemma get_mega_info_dict_entries_are_rows_witness :
  exists s rows,
    s ∈ [s2] /\ "tmp_s2" = "tmp_" +:+ name s /\
    mega_info_files files !! ("tmp_" +:+ name s +:+ ".mega_info.txt") = Some rows /\
    (list_to_map [("pbid", "PB.1.1"); ("s1", "PB.1.1"); ("s2", "NA")] : gmap string string)
      ∈ rows /\
    (list_to_map [("pbid", "PB.1.1"); ("s1", "PB.1.1"); ("s2", "NA")] : gmap string string)
      !! "pbid" = Some "PB.1.1".
Proof.
  apply (get_mega_info_dict_entries_are_rows files [s2] mega_info_d "tmp_s2" "PB.1.1");
    vm_compute; reflexivity.
Defined.

(** X8 (get_mega_info_dict): the mega-info map is obtained exactly when
    the mega-info file of every sample can be read and every row of every
    file has a 'pbid' column; a row without it raises KeyError. *)
Theorem get_mega_info_dict_ok_iff fs samples :
  is_ok (get_mega_info_dict fs samples) = true <->
  forall s, s ∈ samples ->
            exists rows,
              mega_info_files fs !! ("tmp_" +:+ name s +:+ ".mega_info.txt") = Some rows /\
              forall r, r ∈ rows -> is_Some (r !! "pbid").
Proof.
  unfold get_mega_info_dict.
  generalize (∅ : gmap (string * string) (gmap string string)).
  change ("tmp_" +:+ ?x +:+ ".mega_info.txt") with (o_mega_fn (ChainFiles_of x)).
  induction samples as [|s ss IH]; intros d.
  - split; [intros _ s Hin; inversion Hin | reflexivity].
  - rewrite get_mega_info_dict_from_cons. unfold MegaInfoReader.
    destruct (mega_info_files fs !! o_mega_fn (ChainFiles_of (name s)))
      as [rows|] eqn:Hf; cbv beta iota delta [bindR].
    + destruct (read_mega_info (o_prefix (ChainFiles_of (name s))) rows d)
        as [d1|e] eqn:Hr.
      * rewrite IH. split.
        -- intros H s' Hin. apply elem_of_cons in Hin as [->|Hin]; [|now apply H].
           exists rows. split; [exact Hf|].
           apply (read_mega_info_ok_iff (o_prefix (ChainFiles_of (name s))) rows d).
           now rewrite Hr.
        -- intros H s' Hin. apply H. now right.
      * split; [discriminate|]. intros H.
        destruct (H s) as (rows' & Hf' & Hall); [left|].
        rewrite Hf in Hf'. injection Hf' as <-.
        apply (read_mega_info_ok_iff (o_prefix (ChainFiles_of (name s))) rows d) in Hall.
        now rewrite Hr in Hall.
    + split; [discriminate|]. intros H.
      destruct (H s) as (rows' & Hf' & _); [left|]. congruence.
Qed.

End ChainReadFacts.

(** * Chaining: resolving the rows, and the run as a whole *)

Module ChainRowFacts.
Import ChainSamples EffFacts ResFacts ChainFoldFacts ChainResolveSpec ChainResolveFacts.
Import ChainExampleData ChainRowSpec.

Implicit Types (ab : gmap (string * string) Q)
         (mi : gmap (string * string) (gmap string string))
         (r : gmap string string) (d : Resolved)
         (chain cs : list string).

Lemma record_sample_ids_read ab mi r0 c r d d' :
  known_row mi r0 r ->
  record_sample ab c r d = Ok d' -> ids_read mi r0 d -> ids_read mi r0 d'.
Proof.
  intros Hr H Hd c0 v0 Hl.
  apply record_sample_inv in H as (v & Hv & Hp & _). rewrite Hp in Hl.
  destruct (decide (c = c0)) as [->|Hne].
  - rewrite lookup_insert_eq in Hl. injection Hl as <-. now exists r.
  - rewrite lookup_insert_ne in Hl by exact Hne. now apply Hd.
Qed.

Lemma walk_ids_read ab mi r0 cs r d r' saw d' :
  walk ab mi cs r d = Ok (r', saw, d') ->
  known_row mi r0 r -> ids_read mi r0 d ->
  known_row mi r0 r' /\ ids_read mi r0 d'.
Proof.
  revert r d. induction cs as [|c cs IH]; intros r d H Hr Hd.
  - simpl in H. injection H as <- _ <-. now split.
  - rewrite walk_cons in H.
    destruct (getitem r (o_prefix (ChainFiles_of c))) as [v|e]; res_step;
      [|discriminate].
    destruct (String.eqb v "NA").
    { injection H as <- _ <-. now split. }
    destruct (mi !! (o_prefix (ChainFiles_of c), v)) as [r2|] eqn:Hmi; [|discriminate].
    destruct (record_sample ab c r2 d) as [d1|e] eqn:E; res_step; [|discriminate].
    assert (known_row mi r0 r2) as Hr2 by (right; eauto).
    apply (IH _ _ H Hr2). eapply record_sample_ids_read; eauto.
Qed.

(** What a resolved row is made of: the dicts at the end of the walk. *)
Lemma resolve_row_inv ab mi chain r0 p ids counts :
  resolve_row ab mi chain r0 = Ok (p, ids, counts) ->
  exists c_last d0 r saw d1 d,
    last_item chain = Ok c_last /\
    record_sample ab c_last r0 unresolved = Ok d0 /\
    walk ab mi (walk_order chain) r0 d0 = Ok (r, saw, d1) /\
    (if saw then d = d1
     else exists c_first, first_item chain = Ok c_first /\
                          record_sample ab c_first r d1 = Ok d) /\
    r0 !! "pbid" = Some p /\
    ids = map (id_cell d) chain /\
    map_res (count_cell d) chain = Ok counts.
Proof.
  intros H. unfold resolve_row in H.
  destruct (last_item chain) as [c_last|e]; res_step; [|discriminate].
  destruct (record_sample ab c_last r0 unresolved) as [d0|e] eqn:Hd0; res_step;
    [|discriminate].
  destruct (walk ab mi (walk_order chain) r0 d0) as [[[r saw] d1]|e] eqn:Hw;
    res_step; [|discriminate].
  assert (Hend : forall d2,
             (p0 <- getitem r0 "pbid";;
              cells <- map_res (count_cell d2) chain;;
              Ok (p0, map (id_cell d2) chain, cells))%res
             = Ok (p, ids, counts) ->
             r0 !! "pbid" = Some p /\
             ids = map (id_cell d2) chain /\
             map_res (count_cell d2) chain = Ok counts).
  { intros d2 E. unfold getitem in E.
    destruct (r0 !! "pbid") as [p'|]; [|discriminate E]. res_step.
    destruct (map_res (count_cell d2) chain) as [cells|e]; [|discriminate E].
    injection E as -> <- <-. repeat split. }
  destruct saw.
  - exists c_last, d0, r, true, d1, d1.
    destruct (Hend d1 H) as (? & ? & ?). repeat split; assumption.
  - destruct (first_item chain) as [c_first|e]; [|discriminate H].
    destruct (record_sample ab c_first r d1) as [d2|e] eqn:Hd2; [|discriminate H].
    exists c_last, d0, r, false, d1, d2.
    destruct (Hend d2 H) as (? & ? & ?). repeat split; try assumption.
    now exists c_first.
Qed.

(** X9 (chain_samples, the body of the loop over the rows): a resolved
    row carries the pbid of the mega-info row, one id cell and one count
    cell per sample, and no id is made up: an id cell other than 'NA' is
    the value found in the column of that sample in the row itself or in
    a row of the mega-info map. *)
Theorem resolve_row_ids_come_from_rows ab mi chain r0 p ids counts :
  resolve_row ab mi chain r0 = Ok (p, ids, counts) ->
  r0 !! "pbid" = Some p /\
  length ids = length chain /\ length counts = length chain /\
  forall k c id,
    chain !! k = Some c -> ids !! k = Some id -> id <> "NA" ->
    exists r, known_row mi r0 r /\ r !! c = Some id.
Proof.
  intros H.
  destruct (resolve_row_inv _ _ _ _ _ _ _ H)
    as (c_last & d0 & r & saw & d1 & d & Hlast & Hd0 & Hw & Hd & Hp & -> & Hm).
  split; [exact Hp|]. rewrite length_map. split; [reflexivity|].
  split; [exact (proj1 (map_res_lookup _ _ _ Hm))|].
  assert (Hread : ids_read mi r0 d).
  { assert (ids_read mi r0 d0) as H0.
    { eapply record_sample_ids_read; [left; reflexivity | exact Hd0 |].
      intros c v Hl. simpl in Hl. rewrite lookup_empty in Hl. discriminate. }
    destruct (walk_ids_read _ _ _ _ _ _ _ _ _ Hw (or_introl eq_refl) H0) as [Hr H1].
    destruct saw; [now subst d|].
    destruct Hd as (c_first & _ & Hd2). eapply record_sample_ids_read; eauto. }
  intros k c id Hc Hid Hne.
  rewrite list_lookup_fmap, Hc in Hid. injection Hid as Hid.
  apply Hread. unfold id_cell in Hid.
  destruct (chain_to_pbid d !! c) as [v|]; simpl in Hid; congruence.
Qed.

Lemma resolve_row_ids_come_from_rows_witness :
  private_row !! "pbid" = Some "PB.2.1" /\
  length ["NA"; "NA"; "PB.7.1"] = length ["s1"; "s2"; "s3"] /\
  length ["NA"; "NA"; "5.0000e+00"] = length ["s1"; "s2"; "s3"] /\
  forall k c id,
    ["s1"; "s2"; "s3"] !! k = Some c -> ["NA"; "NA"; "PB.7.1"] !! k = Some id ->
    id <> "NA" ->
    exists r, known_row mega_info_d private_row r /\ r !! c = Some id.
Proof.
  apply (resolve_row_ids_come_from_rows
           abundance_info mega_info_d ["s1"; "s2"; "s3"] private_row "PB.2.1"
           ["NA"; "NA"; "PB.7.1"] ["NA"; "NA"; "5.0000e+00"]).
  vm_compute. reflexivity.
Defined.

(** X10 (chain_samples, the loop over the middle samples): when the walk
    comes to a sample [c] holding a record whose column tmp_[c] names an id
    that the mega-info map does not have under (tmp_[c], id), the lookup
    fails: the row is not resolved and KeyError is raised with that key. *)
Theorem resolve_row_dangling_reference ab mi chain r0 before c after r d v :
  walk_order chain = before ++ c :: after ->
  walk_reaches ab mi chain r0 before r d ->
  r !! ("tmp_" +:+ c) = Some v -> v <> "NA" ->
  mi !! ("tmp_" +:+ c, v) = None ->
  resolve_row ab mi chain r0 = Raise (KeyError ["tmp_" +:+ c; v]).
Proof.
  intros Hwo (c_last & d0 & Hlast & Hd0 & Hwalk) Hv Hne Hmi.
  unfold resolve_row. rewrite Hlast. res_step. rewrite Hd0. res_step.
  rewrite Hwo, (walk_app _ _ _ _ _ _ _ _ Hwalk), walk_cons.
  change (o_prefix (ChainFiles_of c)) with ("tmp_" +:+ c).
  unfold getitem. rewrite Hv. res_step.
  destruct (String.eqb_spec v "NA") as [|_]; [contradiction|].
  rewrite Hmi. reflexivity.
Qed.

Lemma resolve_row_dangling_reference_witness :
  resolve_row abundance_info mega_info_d ["s1"; "s2"; "s3"] dangling_row
  = Raise (KeyError ["tmp_" +:+ "s2"; "PB.9.9"]).
Proof.
  apply (resolve_row_dangling_reference
           abundance_info mega_info_d ["s1"; "s2"; "s3"] dangling_row
           [] "s2" [] dangling_row (mkResolved {[ "s3" := "NA" ]} ∅) "PB.9.9").
  - reflexivity.
  - exists "s3", (mkResolved {[ "s3" := "NA" ]} ∅).
    split; [reflexivity|]. split; vm_compute; reflexivity.
  - vm_compute. reflexivity.
  - discriminate.
  - vm_compute. reflexivity.
Defined.

(** X11 (chain_samples, the last sample of a row): when the row names, for
    the last sample, an id other than 'NA' that the abundance map does not
    have for that sample, the row is not resolved: KeyError is raised with
    the sample and the id. *)
Theorem resolve_row_uncounted_id ab mi chain r0 c v :
  last_item chain = Ok c ->
  r0 !! c = Some v -> v <> "NA" -> ab !! (c, v) = None ->
  resolve_row ab mi chain r0 = Raise (KeyError [c; v]).
Proof.
  intros Hlast Hv Hne Hab. unfold resolve_row. rewrite Hlast. res_step.
  unfold record_sample, getitem. rewrite Hv. res_step.
  destruct (String.eqb_spec v "NA") as [|_]; [contradiction|].
  rewrite Hab. reflexivity.
Qed.

Lemma resolve_row_uncounted_id_witness :
  resolve_row abundance_info mega_info_d ["s1"; "s2"; "s3"] uncounted_row
  = Raise (KeyError ["s3"; "PB.8.8"]).
Proof.
  apply (resolve_row_uncounted_id
           abundance_info mega_info_d ["s1"; "s2"; "s3"] uncounted_row "s3" "PB.8.8").
  - reflexivity.
  - vm_compute. reflexivity.
  - discriminate.
  - vm_compute. reflexivity.
Defined.

(** X12 (chain_samples, the last sample of a row): with distinct sample
    names, the id cell of the last sample of a resolved row is the value
    of that sample's column in the mega-info row itself; nothing the walk
    does afterwards changes it. *)
Theorem resolve_row_last_sample_keeps_own_id ab mi chain r0 p ids counts :
  NoDup chain ->
  resolve_row ab mi chain r0 = Ok (p, ids, counts) ->
  exists c v, last chain = Some c /\ r0 !! c = Some v /\ last ids = Some v.
Proof.
  intros Hnd H.
  destruct (resolve_row_inv _ _ _ _ _ _ _ H)
    as (c_last & d0 & r & saw & d1 & d & Hlast & Hd0 & Hw & Hd & _ & -> & _).
  destruct (record_sample_inv _ _ _ _ _ Hd0) as (v & Hv & Hp0 & _).
  assert (Hkeep : chain_to_pbid d !! c_last = Some v ->
                  last (map (id_cell d) chain) = Some (id_cell d c_last) ->
                  last chain = Some c_last ->
                  exists c v, last chain = Some c /\ r0 !! c = Some v /\
                              last (map (id_cell d) chain) = Some v).
  { intros Hl Hlast_ids Hlast_chain. exists c_last, v.
    split; [exact Hlast_chain|]. split; [exact Hv|].
    rewrite Hlast_ids. unfold id_cell. now rewrite Hl. }
  destruct (chain_shape chain) as [->|[[x ->]|(first & mid & last & ->)]].
  - discriminate Hlast.
  - injection Hlast as <-. apply Hkeep; [|reflexivity|reflexivity].
    simpl in Hw. injection Hw as <- <- <-.
    destruct Hd as (c_first & Hfirst & Hd2). injection Hfirst as <-.
    destruct (record_sample_inv _ _ _ _ _ Hd2) as (v' & Hv' & Hp2 & _).
    rewrite Hp2, lookup_insert_eq. congruence.
  - rewrite last_item_mid in Hlast. injection Hlast as <-.
    rewrite walk_order_mid in Hw.
    apply NoDup_cons in Hnd as [Hfirst Hnd].
    apply NoDup_app in Hnd as (_ & Hdisj & _).
    assert (last ∉ rev mid) as Hmid.
    { intros Hin. apply (Hdisj last); [|left].
      apply list_elem_of_In, in_rev, list_elem_of_In, Hin. }
    assert (last <> first) as Hne.
    { intros ->. apply Hfirst, elem_of_app. right. left. }
    apply Hkeep.
    + destruct (walk_frame _ _ _ _ _ _ _ _ last Hw Hmid) as [Hp1 _].
      assert (chain_to_pbid d1 !! last = Some v) as H1.
      { now rewrite Hp1, Hp0, lookup_insert_eq. }
      destruct saw; [now subst d|].
      destruct Hd as (c_first & Hf & Hd2). rewrite first_item_mid in Hf.
      injection Hf as <-.
      destruct (record_sample_frame _ _ _ _ _ last Hd2 Hne) as [Hp2 _].
      now rewrite Hp2.
    + change (first :: mid ++ [last]) with ((first :: mid) ++ [last]).
      rewrite map_app. apply last_snoc.
    + change (first :: mid ++ [last]) with ((first :: mid) ++ [last]).
      apply last_snoc.
Qed.

Lemma resolve_row_last_sample_keeps_own_id_witness :
  exists c v,
    last ["s1"; "s2"; "s3"] = Some c /\ private_row !! c = Some v /\
    last ["NA"; "NA"; "PB.7.1"] = Some v.
Proof.
  apply (resolve_row_last_sample_keeps_own_id
           abundance_info mega_info_d ["s1"; "s2"; "s3"] private_row "PB.2.1"
           ["NA"; "NA"; "PB.7.1"] ["NA"; "NA"; "5.0000e+00"]).
  - apply (bool_decide_unpack _). vm_compute. exact I.
  - vm_compute. reflexivity.
Defined.

(** ** The run as a whole *)

Lemma resolve_rows_inv ab mi chain rows out :
  resolve_rows ab mi chain rows = Ok out ->
  Forall2 (fun row x => resolve_row ab mi chain row = Ok x) rows out.
Proof.
  revert out. induction rows as [|row rows IH]; intros out H.
  - injection H as <-. constructor.
  - simpl in H.
    destruct (resolve_row ab mi chain row) as [x|e] eqn:Hx; res_step; [|discriminate].
    destruct (resolve_rows ab mi chain rows) as [xs|e]; res_step; [|discriminate].
    injection H as <-. constructor; [exact Hx | now apply IH].
Qed.

Lemma fold_samples_no_copyfile mfj oracle rest :
  forall o tr tr' res,
    fold_samples mfj o rest oracle tr = (tr', res) ->
    exists ext, tr' = tr ++ ext /\ Forall (fun c => is_copyfile c = false) ext.
Proof.
  induction rest as [|s ss IH]; intros o tr tr' res H.
  - injection H as <- <-. exists []. now rewrite app_nil_r.
  - rewrite fold_samples_cons, bind_call in H.
    destruct (oracle tr _) as [e|].
    { injection H as <- <-. eexists. split; [reflexivity|]. now repeat constructor. }
    rewrite bind_new_tree in H.
    destruct (oracle (tr ++ _) _) as [e|].
    { injection H as <- <-. eexists. rewrite <- app_assoc.
      split; [reflexivity|]. now repeat constructor. }
    destruct (IH _ _ _ _ H) as (ext & -> & Hext).
    eexists. rewrite <- !app_assoc. split; [reflexivity|].
    simpl. now repeat constructor.
Qed.

(** How a run ends: either it fails before the chained gff is copied, or
    every stage before the copy has succeeded and the copy is the last
    call. *)
Lemma chain_samples_stages fs samples field mfj oracle tr res :
  chain_samples fs samples field mfj oracle [] = (tr, res) ->
  (is_ok res = false /\ Forall (fun c => is_copyfile c = false) tr) \/
  (exists ab mi c_last rows out tr0,
      get_abundance_info fs samples field = Ok ab /\
      get_mega_info_dict fs (tl samples) = Ok mi /\
      last_item (map name samples) = Ok c_last /\
      MegaInfoReader fs (o_mega_fn (ChainFiles_of c_last)) = Ok rows /\
      resolve_rows ab mi (map name samples) rows = Ok out /\
      Forall (fun c => is_copyfile c = false) tr0 /\
      tr = tr0 ++ [copyfile (o_gff_fn (ChainFiles_of c_last)) "all_samples.chained.gff"] /\
      (is_ok res = true ->
       res = Ok (line "superPBID" (map name samples)
                   :: map (fun x => line (fst (fst x)) (snd (fst x))) out,
                 line "superPBID" (map name samples)
                   :: map (fun x => line (fst (fst x)) (snd x)) out))).
Proof.
  intros H. unfold chain_samples in H. rewrite bind_lift in H.
  destruct (get_abundance_info fs samples field) as [ab|e];
    [|injection H as <- <-; left; split; [reflexivity|constructor]].
  rewrite bind_lift in H.
  destruct samples as [|s1 rest];
    [injection H as <- <-; left; split; [reflexivity|constructor]|].
  rewrite bind_new_tree in H.
  destruct (oracle [] _) as [e|];
    [injection H as <- <-; left; split; [reflexivity|now repeat constructor]|].
  unfold Eff.bind at 1 in H. simpl tl in H. simpl app in H.
  destruct (fold_samples mfj _ rest oracle _) as [tr1 r1] eqn:Ef.
  destruct (fold_samples_no_copyfile _ _ _ _ _ _ _ Ef) as (ext & -> & Hext).
  assert (Hpre : Forall (fun c => is_copyfile c = false)
                        ([MegaPBTree_init (mkMegaPBTree (gff_fn s1) (group_fn s1) (name s1) mfj)]
                           ++ ext)).
  { apply Forall_app. split; [now repeat constructor | exact Hext]. }
  destruct r1 as [o1|e]; [|injection H as <- <-; left; now split].
  rewrite bind_lift in H. simpl tl.
  destruct (get_mega_info_dict fs rest) as [mi|e];
    [|injection H as <- <-; left; now split].
  rewrite bind_lift in H.
  destruct (last_item _) as [cl|e] eqn:Hlast;
    [|injection H as <- <-; left; now split].
  rewrite bind_lift in H.
  destruct (MegaInfoReader fs _) as [rows|e] eqn:Hrows;
    [|injection H as <- <-; left; now split].
  rewrite bind_lift in H.
  destruct (resolve_rows ab mi _ rows) as [out|e] eqn:Hout;
    [|injection H as <- <-; left; now split].
  rewrite bind_call in H. right.
  exists ab, mi, cl, rows, out, ([MegaPBTree_init (mkMegaPBTree (gff_fn s1) (group_fn s1) (name s1) mfj)] ++ ext).
  do 5 (split; [reflexivity || assumption|]). split; [exact Hpre|].
  destruct (oracle _ _) as [e|]; injection H as <- <-;
    (split; [reflexivity|]); [discriminate | reflexivity].
Qed.

(** X13 (chain_samples, the two output tables): when a run completes,
    all_samples.chained_ids.txt and all_samples.chained_count.txt have
    the same header, one line per row of the mega-info file of the last
    sample, in the order of that file, and line [k] of both starts with
    the pbid of row [k] and has one cell per sample. *)
Theorem chain_samples_tables_are_parallel fs samples field mfj oracle tr ids_file counts_file :
  Eff.run (chain_samples fs samples field mfj) oracle = (tr, Ok (ids_file, counts_file)) ->
  exists c_last rows,
    last (map name samples) = Some c_last /\
    mega_info_files fs !! ("tmp_" +:+ c_last +:+ ".mega_info.txt") = Some rows /\
    length ids_file = S (length rows) /\ length counts_file = S (length rows) /\
    ids_file !! 0%nat = Some (line "superPBID" (map name samples)) /\
    counts_file !! 0%nat = Some (line "superPBID" (map name samples)) /\
    forall k row,
      rows !! k = Some row ->
      exists p ids counts,
        row !! "pbid" = Some p /\
        length ids = length samples /\ length counts = length samples /\
        ids_file !! S k = Some (line p ids) /\
        counts_file !! S k = Some (line p counts).
Proof.
  unfold Eff.run. intros H.
  destruct (chain_samples_stages _ _ _ _ _ _ _ H)
    as [[Hf _]|(ab & mi & cl & rows & out & tr0 & _ & _ & Hlast & Hrows & Hout & _ & _ & Hres)];
    [discriminate|].
  specialize (Hres eq_refl). injection Hres as -> ->.
  exists cl, rows.
  assert (last (map name samples) = Some cl) as Hl.
  { unfold last_item in Hlast. rewrite <- (rev_involutive (map name samples)).
    destruct (rev (map name samples)) as [|c l]; [discriminate|].
    injection Hlast as ->. simpl. apply last_snoc. }
  split; [exact Hl|]. split.
  { unfold MegaInfoReader in Hrows.
    change ("tmp_" +:+ cl +:+ ".mega_info.txt") with (o_mega_fn (ChainFiles_of cl)).
    destruct (mega_info_files fs !! _); [now injection Hrows as ->|discriminate]. }
  apply resolve_rows_inv in Hout.
  pose proof (Forall2_length _ _ _ Hout) as Hlen.
  simpl. rewrite !length_map. do 2 (split; [now rewrite Hlen|]).
  do 2 (split; [reflexivity|]).
  intros k row Hk.
  destruct (Forall2_lookup_l _ _ _ _ _ Hout Hk) as ([[p ids] counts] & Hx & Hrow).
  destruct (resolve_row_inv _ _ _ _ _ _ _ Hrow)
    as (_ & _ & _ & _ & _ & d & _ & _ & _ & _ & Hp & -> & Hm).
  exists p, (map (id_cell d) (map name samples)), counts.
  rewrite (proj1 (map_res_lookup _ _ _ Hm)).
  rewrite !length_map, !list_lookup_fmap, Hx.
  repeat split; try reflexivity. exact Hp.
Qed.

Lemma chain_samples_tables_are_parallel_witness :
  exists c_last rows,
    last (map name [s1; s2; s3]) = Some c_last /\
    mega_info_files files !! ("tmp_" +:+ c_last +:+ ".mega_info.txt") = Some rows /\
    length [line "superPBID" ["s1"; "s2"; "s3"];
            line "PB.1.1" ["PB.1.1"; "NA"; "NA"];
            line "PB.2.1" ["NA"; "NA"; "PB.7.1"]] = S (length rows) /\
    length [line "superPBID" ["s1"; "s2"; "s3"];
            line "PB.1.1" ["3.0000e+01"; "NA"; "NA"];
            line "PB.2.1" ["NA"; "NA"; "5.0000e+00"]] = S (length rows) /\
    [line "superPBID" ["s1"; "s2"; "s3"];
     line "PB.1.1" ["PB.1.1"; "NA"; "NA"];
     line "PB.2.1" ["NA"; "NA"; "PB.7.1"]] !! 0%nat
      = Some (line "superPBID" (map name [s1; s2; s3])) /\
    [line "superPBID" ["s1"; "s2"; "s3"];
     line "PB.1.1" ["3.0000e+01"; "NA"; "NA"];
     line "PB.2.1" ["NA"; "NA"; "5.0000e+00"]] !! 0%nat
      = Some (line "superPBID" (map name [s1; s2; s3])) /\
    forall k row,
      rows !! k = Some row ->
      exists p ids counts,
        row !! "pbid" = Some p /\
        length ids = length [s1; s2; s3] /\ length counts = length [s1; s2; s3] /\
        [line "superPBID" ["s1"; "s2"; "s3"];
         line "PB.1.1" ["PB.1.1"; "NA"; "NA"];
         line "PB.2.1" ["NA"; "NA"; "PB.7.1"]] !! S k = Some (line p ids) /\
        [line "superPBID" ["s1"; "s2"; "s3"];
         line "PB.1.1" ["3.0000e+01"; "NA"; "NA"];
         line "PB.2.1" ["NA"; "NA"; "5.0000e+00"]] !! S k = Some (line p counts).
Proof.
  apply (chain_samples_tables_are_parallel
           files [s1; s2; s3] "count_fl" 5 Eff.no_failure
           (fst (Eff.run (chain_samples files [s1; s2; s3] "count_fl" 5) Eff.no_failure))).
  vm_compute. reflexivity.
Defined.

(** X14 (chain_samples): the abundance files are read before anything
    else is done. When reading them fails (a file that cannot be opened,
    a record without the requested field), the run raises that error and
    has made no call: no tree is built and no file is written. *)
Theorem chain_samples_reads_abundance_first fs samples field mfj oracle e :
  get_abundance_info fs samples field = Raise e ->
  Eff.run (chain_samples fs samples field mfj) oracle = ([], Raise e).
Proof.
  intros H. unfold Eff.run, chain_samples. rewrite bind_lift, H. reflexivity.
Qed.

Lemma chain_samples_reads_abundance_first_witness :
  Eff.run (chain_samples files [s1; s2; s3] "norm_nfl" 5) Eff.no_failure
  = ([], Raise (ValueError [no_field_msg; "1.abundance.txt"; "norm_nfl"])).
Proof.
  apply (chain_samples_reads_abundance_first files [s1; s2; s3] "norm_nfl" 5 Eff.no_failure).
  vm_compute. reflexivity.
Defined.

(** X15 (chain_samples): whatever the external calls do, the chained gff
    is copied at most once, as the last call of the run, from the gff
    written for the last sample to all_samples.chained.gff, and only after
    every row of the last mega-info file was resolved; a run that completes
    ends with this copy. With no sample at all the run raises IndexError
    and makes no call. *)
Theorem chain_samples_copies_gff_last fs samples field mfj oracle :
  let tr := fst (Eff.run (chain_samples fs samples field mfj) oracle) in
  let res := snd (Eff.run (chain_samples fs samples field mfj) oracle) in
  (forall src dst,
      copyfile src dst ∈ tr ->
      exists c_last tr0 ab mi rows out,
        last_item (map name samples) = Ok c_last /\
        src = "tmp_" +:+ c_last +:+ ".gff" /\ dst = "all_samples.chained.gff" /\
        tr = tr0 ++ [copyfile src dst] /\
        (forall a b, copyfile a b ∉ tr0) /\
        get_abundance_info fs samples field = Ok ab /\
        get_mega_info_dict fs (tl samples) = Ok mi /\
        MegaInfoReader fs ("tmp_" +:+ c_last +:+ ".mega_info.txt") = Ok rows /\
        resolve_rows ab mi (map name samples) rows = Ok out) /\
  (is_ok res = true -> exists src dst, last tr = Some (copyfile src dst)) /\
  (samples = [] -> tr = [] /\ res = Raise IndexError).
Proof.
  intros tr res. subst tr res. unfold Eff.run.
  destruct (chain_samples fs samples field mfj oracle []) as [tr res] eqn:H. simpl.
  assert (Hnot : forall l, Forall (fun c => is_copyfile c = false) l ->
                           forall a b, copyfile a b ∉ l).
  { intros l Hl a b Hin. rewrite Forall_forall in Hl. now specialize (Hl _ Hin). }
  split; [|split].
  - intros src dst Hin.
    destruct (chain_samples_stages _ _ _ _ _ _ _ H)
      as [[_ Hf]|(ab & mi & cl & rows & out & tr0 & Hab & Hmi & Hlast & Hrows & Hout & Hf & -> & _)].
    { exfalso. exact (Hnot _ Hf _ _ Hin). }
    apply elem_of_app in Hin as [Hin|Hin]; [exfalso; exact (Hnot _ Hf _ _ Hin)|].
    apply list_elem_of_singleton in Hin. injection Hin as -> ->.
    exists cl, tr0, ab, mi, rows, out. repeat split; try assumption. now apply Hnot.
  - intros Hok.
    destruct (chain_samples_stages _ _ _ _ _ _ _ H)
      as [[Hbad _]|(ab & mi & cl & rows & out & tr0 & _ & _ & _ & _ & _ & _ & -> & _)].
    { congruence. }
    eexists _, _. apply last_snoc.
  - intros ->. unfold chain_samples in H. rewrite bind_lift in H. simpl in H.
    rewrite bind_lift in H. now injection H as <- <-.
Qed.

End ChainRowFacts.

(** * Mega-info files: what the writer writes *)

Module MegaInfoWriterFacts.
Import PyStr PyStrFacts PyStrMore MergeGroupIO MergeGroupIOFacts MegaInfoSpec.

Lemma chomp_newline s : chomp (s +:+ String "010"%char EmptyString) = s.
Proof.
  induction s as [|c s IH]; [reflexivity|].
  rewrite str_app_cons. cbn [chomp]. rewrite IH.
  destruct s; reflexivity.
Qed.

Lemma split_three a b c :
  contains tab a = false -> contains tab b = false -> contains tab c = false ->
  split tab (join (String tab EmptyString) [a; b; c]) = [a; b; c].
Proof.
  intros Ha Hb Hc. apply split_join; [discriminate|]. now repeat constructor.
Qed.

(** X16 (MegaInfoWriter.__init__, MegaInfoWriter.writeRecord,
    MergeGroupOperation.__str__): a mega-info file is a table of three
    columns. When the prefixes, the id and the group renderings contain no
    tab, the header line has the fields pbid, prefix1, prefix2, and the
    line appended for a merge operation that passed its sanity check has
    the fields id, first group, second group, 'NA' standing for an absent
    group. *)
Theorem MegaInfoWriter_writes_three_columns p g1 g2 op prefix1 prefix2 file :
  new p g1 g2 = Ok op ->
  contains tab prefix1 = false -> contains tab prefix2 = false ->
  contains tab (to_str p) = false ->
  contains tab (to_str g1) = false -> contains tab (to_str g2) = false ->
  fields (header prefix1 prefix2) = ["pbid"; prefix1; prefix2] /\
  exists id line,
    p = PyString id /\
    writeRecord file op = file ++ [line] /\
    fields line = [id; to_str g1; to_str g2].
Proof.
  intros Hnew H1 H2 Hp Hg1 Hg2.
  destruct (new_inv _ _ _ _ Hnew) as (-> & Hstr & _).
  split.
  - unfold fields, header. rewrite chomp_newline. now apply split_three.
  - destruct p as [|id| |]; try discriminate Hstr.
    exists id, (op_str (mkOp (PyString id) g1 g2 PyNone) +:+ String "010"%char EmptyString).
    split; [reflexivity|]. split; [reflexivity|].
    unfold fields. rewrite chomp_newline. unfold op_str. cbn [map pbid group1 group2].
    now apply split_three.
Qed.

Lemma MegaInfoWriter_writes_three_columns_witness :
  fields (header "s1" "s2") = ["pbid"; "s1"; "s2"] /\
  exists id line,
    PyString "PB.1.1" = PyString id /\
    writeRecord [header "s1" "s2"] (mkOp (PyString "PB.1.1") PyNone (PyGmapRecord "PB.2.1") PyNone)
      = [header "s1" "s2"] ++ [line] /\
    fields line = [id; to_str PyNone; to_str (PyGmapRecord "PB.2.1")].
Proof.
  apply (MegaInfoWriter_writes_three_columns
           (PyString "PB.1.1") PyNone (PyGmapRecord "PB.2.1")
           (mkOp (PyString "PB.1.1") PyNone (PyGmapRecord "PB.2.1") PyNone)
           "s1" "s2" [header "s1" "s2"]); reflexivity.
Defined.

End MegaInfoWriterFacts.

(** * Chaining: the lines of the two tables *)

Module ChainTableFacts.
Import PyStr PyStrFacts PyStrMore ChainSamples MegaInfoSpec MegaInfoWriterFacts.

Lemma concat_cells_cons c cells :
  String.concat "" (map (fun c => String tab c) (c :: cells))
  = String tab (c +:+ String.concat "" (map (fun c => String tab c) cells)).
Proof.
  destruct cells as [|c' cells]; cbn [map String.concat].
  - now rewrite str_app_nil_r.
  - rewrite str_app_nil_l. reflexivity.
Qed.

Lemma split_cells cells : forall first,
  contains tab first = false ->
  Forall (fun c => contains tab c = false) cells ->
  split tab (first +:+ String.concat "" (map (fun c => String tab c) cells))
  = first :: cells.
Proof.
  induction cells as [|c cells IH]; intros first Hfirst Hcells.
  - cbn [map String.concat]. rewrite str_app_nil_r. now apply split_no_sep.
  - inversion Hcells as [|? ? Hc Hrest]; subst.
    rewrite concat_cells_cons, (split_app_sep _ _ _ Hfirst). f_equal. now apply IH.
Qed.

(** X17 (chain_samples, the writes to the two tables): a line of
    all_samples.chained_ids.txt or all_samples.chained_count.txt, written
    as a first field followed by a tab and a cell for each sample and a
    newline, reads back as exactly that first field and these cells when
    none of them contains a tab: the header and every row have one column
    per sample after the first. *)
Theorem line_has_one_field_per_cell first cells :
  contains tab first = false ->
  Forall (fun c => contains tab c = false) cells ->
  fields (line first cells) = first :: cells /\
  length (fields (line first cells)) = S (length cells).
Proof.
  intros Hfirst Hcells.
  assert (fields (line first cells) = first :: cells) as H.
  { unfold fields, line, nl. rewrite <- str_app_assoc, chomp_newline.
    now apply split_cells. }
  split; [exact H|]. now rewrite H.
Qed.

Lemma line_has_one_field_per_cell_witness :
  fields (line "PB.1.1" ["3.0000e+01"; "NA"; "NA"]) = "PB.1.1" :: ["3.0000e+01"; "NA"; "NA"] /\
  length (fields (line "PB.1.1" ["3.0000e+01"; "NA"; "NA"]))
    = S (length ["3.0000e+01"; "NA"; "NA"]).
Proof.
  apply (line_has_one_field_per_cell "PB.1.1" ["3.0000e+01"; "NA"; "NA"]).
  - reflexivity.
  - repeat constructor.
Defined.

End ChainTableFacts.

(** * The collapse runner: files, validation and the grouping loop *)

Module CollapseMoreFacts.
Import PyStr PyStrFacts PyStrMore PathFacts.
Import CollapseIsoforms EffFacts CollapseIsoformsSpec CollapseIsoformsFacts.
Import CollapseExampleData CollapseMoreSpec.
Local Open Scope Z_scope.

(** ** File names *)



(** ** Validation *)

Lemma run_from_validate env self oracle tr tr' res :
  (b <- Branch_init (isoform_filename self) (sam_filename self)
                    (min_flnc_coverage self)
                    (min_aln_coverage self) (min_aln_identity self);;
   _ <- Branch_run env b (allow_extra_5exon self) (skip_5_exon_alt self)
                   (ignored_ids_txt_fn (files self)) (good_unfuzzy_gff_fn (files self))
                   (bad_unfuzzy_gff_fn (files self)) (unfuzzy_group_fn (files self)) 100;;
   _ <- (if shall_collapse_fuzzy_junctions self then
           _ <- Eff.call (collapse_fuzzy_junctions
                            (good_unfuzzy_gff_fn (files self)) (unfuzzy_group_fn (files self))
                            (good_fuzzy_gff_fn (files self)) (fuzzy_group_fn (files self))
                            (allow_extra_5exon self) (max_fuzzy_junction self));;
           _ <- Eff.call (ln (good_fuzzy_gff_fn (files self)) (good_gff_fn (files self)));;
           Eff.call (ln (fuzzy_group_fn (files self)) (group_fn (files self)))
         else
           _ <- Eff.call (ln (good_unfuzzy_gff_fn (files self)) (good_gff_fn (files self)));;
           Eff.call (ln (unfuzzy_group_fn (files self)) (group_fn (files self))));;
   Eff.call (pick_rep (isoform_filename self) (good_gff_fn (files self))
                      (group_fn (files self)) (collapsed_isoform_filename self)
                      (negb (allow_extra_5exon self)) (bad_gff_fn (files self))))%eff
    oracle tr = (tr', res) ->
  exists ext, tr' = tr ++ ext.
Proof.
  intros H.
  destruct (bind_silent_inv is_late _ _ _ _ _ _ (silent_Branch_init _ _ _ _ _) H)
    as (e1 & _ & [[_ ->]|(b & H1)]); [eauto|].
  destruct (bind_silent_inv is_late _ _ _ _ _ _
              (silent_Branch_run _ _ _ _ _ _ _ _ _) H1)
    as (e2 & _ & [[_ ->]|(u & H2)]); [rewrite <- app_assoc; eauto|].
  rewrite late_part_is_calls in H2.
  apply calls_trace in H2 as (pre & -> & _). rewrite <- !app_assoc. eauto.
Qed.

(** X19 (CollapseIsoformsRunner.validate_inputs, run): the inputs are
    checked before anything else is done. When the isoforms file, or else
    the SAM file, does not exist, the run raises IOError naming that file
    and has made no call; when both exist, the first call checks that the
    ids of the isoforms are unique, and if that check raises, the run
    raises the same error and makes no other call. *)
Theorem run_validates_inputs_first env self oracle :
  (path_exists env (isoform_filename self) = false ->
   Eff.run (run env self) oracle
   = ([], Raise (IOError ("Input isoforms file " +:+ isoform_filename self
                                                 +:+ " does not exist")))) /\
  (path_exists env (isoform_filename self) = true ->
   path_exists env (sam_filename self) = false ->
   Eff.run (run env self) oracle
   = ([], Raise (IOError ("Input SAM file " +:+ sam_filename self
                                            +:+ " does not exist")))) /\
  (path_exists env (isoform_filename self) = true ->
   path_exists env (sam_filename self) = true ->
   (exists rest,
       fst (Eff.run (run env self) oracle)
       = check_ids_unique (isoform_filename self) :: rest) /\
   (forall e, oracle [] (check_ids_unique (isoform_filename self)) = Some e ->
              Eff.run (run env self) oracle
              = ([check_ids_unique (isoform_filename self)], Raise e))).
Proof.
  unfold Eff.run. rewrite run_late_part. split; [|split].
  - intros H. unfold validate_inputs. rewrite H. cbn [negb]. now rewrite bind_lift.
  - intros H1 H2. unfold validate_inputs. rewrite H1, H2. cbn [negb].
    now rewrite bind_lift.
  - intros H1 H2. unfold validate_inputs. rewrite H1, H2. cbn [negb].
    rewrite bind_call. split.
    + destruct (oracle [] _) as [e|]; [now eexists|].
      match goal with |- context [fst (?m oracle ?tr)] =>
        destruct (m oracle tr) as [tr' res] eqn:E end.
      apply run_from_validate in E as (ext & ->). now eexists.
    + intros e ->. reflexivity.
Qed.

Lemma run_validates_inputs_first_witness :
  Eff.run (run (env_without "hq.fasta") (runner 5 false)) Eff.no_failure
  = ([], Raise (IOError "Input isoforms file hq.fasta does not exist")) /\
  Eff.run (run (env_without "sorted.sam") (runner 5 false)) Eff.no_failure
  = ([], Raise (IOError "Input SAM file sorted.sam does not exist")) /\
  exists rest,
    fst (Eff.run (run env (runner 5 false)) Eff.no_failure)
    = check_ids_unique "hq.fasta" :: rest.
Proof.
  split; [|split].
  - apply (run_validates_inputs_first (env_without "hq.fasta") (runner 5 false)
             Eff.no_failure). reflexivity.
  - apply (run_validates_inputs_first (env_without "sorted.sam") (runner 5 false)
             Eff.no_failure); reflexivity.
  - apply (run_validates_inputs_first env (runner 5 false) Eff.no_failure); reflexivity.
Defined.

(** ** The grouping loop *)

Lemma Z_from_app i n m :
  Z_from i (n + m) = Z_from i n ++ Z_from (i + Z.of_nat n) m.
Proof.
  revert i. induction n as [|n IH]; intros i.
  - cbn. now rewrite Z.add_0_r.
  - cbn [Nat.add Z_from app]. rewrite IH. do 3 f_equal. lia.
Qed.

Lemma Z_from_lookup i n k j : Z_from i n !! k = Some j -> j = i + Z.of_nat k.
Proof.
  revert i k. induction n as [|n IH]; intros i k H; [discriminate|].
  destruct k as [|k]; cbn in H.
  - injection H as <-. lia.
  - apply IH in H. lia.
Qed.

Lemma cuff_indices_app tr1 tr2 :
  cuff_indices (tr1 ++ tr2) = cuff_indices tr1 ++ cuff_indices tr2.
Proof. apply omap_app. Qed.

Lemma cuff_indices_collapse records i cov a5 s5 gw bw grw te ext :
  cuff_indices (collapse_sam_records records i cov a5 s5 gw bw grw te :: ext)
  = i :: cuff_indices ext.
Proof. reflexivity. Qed.

Section Loop.
Variables (self : Branch) (a5 s5 : bool) (iw gw bw grw : option string) (te : Z).

Lemma collapse_group_numbered by_strand :
  forall i oracle tr tr' res,
    collapse_group self a5 s5 gw bw grw te by_strand i oracle tr = (tr', res) ->
    exists ext, tr' = tr ++ ext /\ numbered self a5 s5 gw bw grw te i ext res.
Proof.
  induction by_strand as [|records rest IH]; intros i oracle tr tr' res H.
  - injection H as <- <-. exists []. rewrite app_nil_r. split; [reflexivity|].
    split; [reflexivity|]. split; [|constructor].
    intros j Hj. injection Hj as <-. cbn. lia.
  - destruct records as [|r rs]; [exact (IH _ _ _ _ _ H)|].
    cbn [collapse_group] in H. rewrite bind_call in H.
    assert (Hc : collapses_for self a5 s5 gw bw grw te
                   (collapse_sam_records (r :: rs) i (cov_threshold self) a5 s5 gw bw grw te)).
    { cbn. repeat split. discriminate. }
    destruct (oracle tr _) as [e|].
    + injection H as <- <-. eexists. split; [reflexivity|].
      split; [reflexivity|]. split; [discriminate|]. now repeat constructor.
    + destruct (IH _ _ _ _ _ H) as (ext & -> & Hi & Hj & Hf).
      eexists. rewrite <- app_assoc. split; [reflexivity|]. cbn [app].
      unfold numbered. rewrite cuff_indices_collapse. cbn [length Z_from].
      split; [|split].
      * f_equal. exact Hi.
      * intros j E. rewrite (Hj j E). lia.
      * constructor; assumption.
Qed.

Lemma numbered_app i ext1 j ext2 res :
  numbered self a5 s5 gw bw grw te i ext1 (Ok j) -> numbered self a5 s5 gw bw grw te j ext2 res -> numbered self a5 s5 gw bw grw te i (ext1 ++ ext2) res.
Proof.
  intros (H1 & Hj & Hf1) (H2 & Hres & Hf2).
  specialize (Hj j eq_refl). subst j. unfold numbered.
  rewrite cuff_indices_app, length_app. split; [|split].
  - rewrite Z_from_app, <- H1, <- H2. reflexivity.
  - intros k E. rewrite (Hres k E). lia.
  - apply Forall_app. now split.
Qed.

Lemma collapse_items_numbered items :
  forall i oracle tr tr' res,
    collapse_items self a5 s5 iw gw bw grw te items i oracle tr = (tr', res) ->
    exists ext, tr' = tr ++ ext /\ numbered self a5 s5 gw bw grw te i ext res.
Proof.
  induction items as [|[id|g|e] items IH]; intros i oracle tr tr' res H.
  - injection H as <- <-. exists []. rewrite app_nil_r. split; [reflexivity|].
    split; [reflexivity|]. split; [|constructor].
    intros j Hj. injection Hj as <-. cbn. lia.
  - cbn [collapse_items] in H. rewrite bind_call in H.
    destruct (oracle tr _) as [e|].
    + injection H as <- <-. eexists. split; [reflexivity|].
      split; [reflexivity|]. split; [discriminate|]. now repeat constructor.
    + destruct (IH _ _ _ _ _ H) as (ext & -> & Hi & Hj & Hf).
      eexists. rewrite <- app_assoc. split; [reflexivity|]. cbn [app].
      split; [exact Hi|]. split; [exact Hj|]. constructor; [exact I | exact Hf].
  - cbn [collapse_items] in H. unfold Eff.bind in H.
    destruct (collapse_group self a5 s5 gw bw grw te g i oracle tr) as [tr1 [j|e]] eqn:E;
      destruct (collapse_group_numbered _ _ _ _ _ _ E) as (ext1 & -> & H1).
    + destruct (IH _ _ _ _ _ H) as (ext2 & -> & H2).
      exists (ext1 ++ ext2). rewrite app_assoc. split; [reflexivity|].
      eapply numbered_app; eauto.
    + injection H as <- <-. now exists ext1.
  - injection H as <- <-. exists []. rewrite app_nil_r. split; [reflexivity|].
    split; [reflexivity|]. split; [discriminate | constructor].
Qed.

Lemma collapse_group_silent P by_strand :
  (forall c, is_loop_call c = true -> P c = false) ->
  forall i, silent P (collapse_group self a5 s5 gw bw grw te by_strand i).
Proof.
  intros HP. induction by_strand as [|records rest IH]; intros i; simpl;
    [apply silent_ret|].
  destruct records; [apply IH|].
  apply silent_bind; [apply silent_call; now apply HP|]. intros _. apply IH.
Qed.

Lemma collapse_items_silent P items :
  (forall c, is_loop_call c = true -> P c = false) ->
  forall i, silent P (collapse_items self a5 s5 iw gw bw grw te items i).
Proof.
  intros HP. induction items as [|[id|g|e] items IH]; intros i; simpl.
  - apply silent_ret.
  - apply silent_bind; [apply silent_call; now apply HP|]. intros _. apply IH.
  - apply silent_bind; [now apply collapse_group_silent|]. intros j. apply IH.
  - apply silent_lift.
Qed.

End Loop.

Lemma close_writers_calls ws oracle tr :
  close_writers ws oracle tr = calls (map close_writer (omap id ws)) oracle tr.
Proof.
  revert tr. induction ws as [|[w|] ws IH]; intros tr; [reflexivity| |apply IH].
  cbn [close_writers]. change (omap id (Some w :: ws)) with (w :: omap id ws).
  cbn [map calls]. rewrite !bind_call.
  destruct (oracle tr _); [reflexivity | apply IH].
Qed.

Lemma close_writers_cuff_indices ws oracle tr tr' res :
  close_writers ws oracle tr = (tr', res) ->
  exists ext, tr' = tr ++ ext /\ cuff_indices ext = [] /\
              Forall (fun c => is_close_writer c = true) ext /\
              ext `prefix_of` map close_writer (omap id ws) /\
              (is_ok res = true -> ext = map close_writer (omap id ws)).
Proof.
  rewrite close_writers_calls. intros H.
  apply calls_trace in H as (pre & -> & Hpre & Hok).
  exists pre. split; [reflexivity|].
  assert (Forall (fun c => is_close_writer c = true) pre) as Hall.
  { destruct Hpre as [k Hk]. 
    assert (Forall (fun c => is_close_writer c = true) (pre ++ k)) as Hf.
    { rewrite <- Hk. apply Forall_fmap, Forall_true. reflexivity. }
    now apply Forall_app in Hf as [? _]. }
  split; [|split; [exact Hall | split; assumption]].
  clear -Hall. induction Hall as [|c l Hc _ IH]; [reflexivity|].
  destruct c; try discriminate Hc. exact IH.
Qed.

(** X20 (Branch.run, the loop over the groups): whatever the external
    calls do, the calls of collapse_sam_records are numbered 1, 2, 3, ...
    in the order they are made, and each is made on a list of records that
    is not empty, with the coverage threshold of the branch and the flags
    and writers of the run. *)
Theorem Branch_run_numbers_calls_from_one env self a5 s5 f1 f2 f3 f4 te oracle :
  let tr := fst (Eff.run (Branch_run env self a5 s5 f1 f2 f3 f4 te) oracle) in
  (forall k i, cuff_indices tr !! k = Some i -> i = 1 + Z.of_nat k) /\
  (forall records i cov a5' s5' gw bw grw te',
      collapse_sam_records records i cov a5' s5' gw bw grw te' ∈ tr ->
      records <> [] /\ cov = cov_threshold self /\ a5' = a5 /\ s5' = s5 /\
      gw = writer_of f2 /\ bw = writer_of f3 /\ grw = writer_of f4 /\ te' = te).
Proof.
  intros tr. subst tr. unfold Eff.run, Branch_run, Eff.bind.
  destruct (collapse_items _ _ _ _ _ _ _ _ _ _ oracle []) as [tr1 r1] eqn:E.
  destruct (collapse_items_numbered _ _ _ _ _ _ _ _ _ _ _ _ _ _ E)
    as (ext & -> & Hi & _ & Hf).
  cbn [app] in *.
  assert (Hgoal : forall tr,
             (exists cl, tr = ext ++ cl /\ cuff_indices cl = [] /\
                         Forall (fun c => is_close_writer c = true) cl) ->
             (forall k i, cuff_indices tr !! k = Some i -> i = 1 + Z.of_nat k) /\
             (forall records i cov a5' s5' gw bw grw te',
                 collapse_sam_records records i cov a5' s5' gw bw grw te' ∈ tr ->
                 records <> [] /\ cov = cov_threshold self /\ a5' = a5 /\ s5' = s5 /\
                 gw = writer_of f2 /\ bw = writer_of f3 /\ grw = writer_of f4 /\ te' = te)).
  { intros tr (cl & -> & Hcl & Hclose). split.
    - intros k i Hk. rewrite cuff_indices_app, Hcl, app_nil_r, Hi in Hk.
      now apply Z_from_lookup in Hk.
    - intros records i cov a5' s5' gw bw grw te' Hin.
      apply elem_of_app in Hin as [Hin|Hin].
      + rewrite Forall_forall in Hf. exact (Hf _ Hin).
      + rewrite Forall_forall in Hclose. specialize (Hclose _ Hin). discriminate. }
  destruct r1 as [j|e].
  - destruct (close_writers _ oracle ext) as [tr2 r2] eqn:Ec. cbn [fst].
    apply close_writers_cuff_indices in Ec as (cl & -> & Hcl & Hclose & _).
    apply Hgoal. now exists cl.
  - cbn [fst]. apply Hgoal. exists []. rewrite app_nil_r. now repeat split.
Qed.

Lemma omap_writer_of fs : omap id (map writer_of fs) = omap writer_of fs.
Proof. induction fs as [|f fs IH]; [reflexivity|]. cbn. rewrite IH. now destruct (writer_of f). Qed.

(** X21 (Branch.run, closing the writers): whatever the external calls
    do, the writers are closed only after the loop over the groups, in the
    order ignored ids, good gff, bad gff, and bad gff a second time; a
    writer is closed only if its file name is not empty. The group writer
    is not among them: no call closes a file other than these three. *)
Theorem Branch_run_closes_three_writers env self a5 s5 f1 f2 f3 f4 te oracle :
  let tr := fst (Eff.run (Branch_run env self a5 s5 f1 f2 f3 f4 te) oracle) in
  let res := snd (Eff.run (Branch_run env self a5 s5 f1 f2 f3 f4 te) oracle) in
  List.filter is_close_writer tr `prefix_of` closed_writers f1 f2 f3 /\
  (is_ok res = true -> List.filter is_close_writer tr = closed_writers f1 f2 f3) /\
  (forall w, close_writer w ∈ tr -> w <> "" /\ w ∈ [f1; f2; f3]) /\
  (forall tr1 w tr2, tr = tr1 ++ close_writer w :: tr2 ->
                     Forall (fun c => is_close_writer c = true) tr2).
Proof.
  intros tr res. subst tr res. unfold Eff.run, Branch_run, Eff.bind.
  destruct (collapse_items _ _ _ _ _ _ _ _ _ _ oracle []) as [tr1 r1] eqn:E.
  destruct (collapse_items_silent self a5 s5 (writer_of f1) (writer_of f2) (writer_of f3)
              (writer_of f4) te is_close_writer _
              (fun c H => ltac:(destruct c; try discriminate H; reflexivity))
              _ _ _ _ _ E) as (ext & -> & Hsil).
  cbn [app] in *.
  assert (Hmem : forall w, close_writer w ∈ closed_writers f1 f2 f3 ->
                           w <> "" /\ w ∈ [f1; f2; f3]).
  { intros w Hin. unfold closed_writers in Hin.
    apply list_elem_of_fmap in Hin as (w' & Hw & Hin). injection Hw as <-.
    apply list_elem_of_omap in Hin as (f & Hf & Hw). unfold writer_of in Hw.
    destruct (String.eqb_spec f ""); [discriminate|]. injection Hw as <-.
    split; [assumption|].
    apply list_elem_of_In in Hf. apply list_elem_of_In. cbn in *. tauto. }
  assert (Hno : forall c, c ∈ ext -> is_close_writer c = false).
  { intros c Hin. destruct (is_close_writer c) eqn:Hc; [|reflexivity].
    assert (c ∈ List.filter is_close_writer ext) as Hin'.
    { apply list_elem_of_In, filter_In. split; [now apply list_elem_of_In | exact Hc]. }
    rewrite Hsil in Hin'. inversion Hin'. }
  assert (Hgoal : forall cl (r : Res unit),
             Forall (fun c => is_close_writer c = true) cl ->
             cl `prefix_of` closed_writers f1 f2 f3 ->
             (is_ok r = true -> cl = closed_writers f1 f2 f3) ->
             List.filter is_close_writer (ext ++ cl) `prefix_of` closed_writers f1 f2 f3 /\
             (is_ok r = true ->
              List.filter is_close_writer (ext ++ cl) = closed_writers f1 f2 f3) /\
             (forall w, close_writer w ∈ ext ++ cl -> w <> "" /\ w ∈ [f1; f2; f3]) /\
             (forall tr1 w tr2, ext ++ cl = tr1 ++ close_writer w :: tr2 ->
                                Forall (fun c => is_close_writer c = true) tr2)).
  { intros cl r Hall Hpre Hok.
    assert (List.filter is_close_writer (ext ++ cl) = cl) as Hfil.
    { rewrite List.filter_app, Hsil. cbn [app].
      clear -Hall. induction Hall as [|c l Hc _ IH]; [reflexivity|].
      cbn. now rewrite Hc, IH. }
    rewrite Hfil. split; [exact Hpre|]. split; [exact Hok|]. split.
    - intros w Hin. apply elem_of_app in Hin as [Hin|Hin].
      + specialize (Hno _ Hin). discriminate.
      + apply Hmem. destruct Hpre as [k ->]. apply elem_of_app. now left.
    - intros tr1 w tr2 Heq.
      assert (exists pre, tr1 = ext ++ pre /\ cl = pre ++ close_writer w :: tr2)
        as (pre & -> & ->).
      { clear -Heq Hno. revert tr1 Heq. induction ext as [|c ext IH]; intros tr1 Heq.
        - exists tr1. now split.
        - destruct tr1 as [|c1 tr1].
          + cbn in Heq. injection Heq as -> _.
            specialize (Hno (close_writer w) (list_elem_of_here _ _)). discriminate.
          + cbn in Heq. injection Heq as <- Heq.
            destruct (IH (fun c Hc => Hno c (list_elem_of_further _ _ _ Hc)) _ Heq)
              as (pre & -> & ->).
            exists pre. now split. }
      apply Forall_app in Hall as [_ Hall]. now inversion Hall. }
  destruct r1 as [j|e].
  - destruct (close_writers _ oracle ext) as [tr2 r2] eqn:Ec. cbn [fst snd].
    apply close_writers_cuff_indices in Ec as (cl & -> & _ & Hclose & Hpre & Hok).
    change [writer_of f1; writer_of f2; writer_of f3; writer_of f3]
      with (map writer_of [f1; f2; f3; f3]) in Hpre, Hok.
    rewrite omap_writer_of in Hpre, Hok.
    now apply Hgoal.
  - cbn [fst snd]. rewrite <- (app_nil_r ext).
    apply (Hgoal [] (Raise e)); [constructor | apply prefix_nil | discriminate].
Qed.

(** ** The output prefix *)

(** X22 (CollapseIsoformsRunner.__init__): the prefix of the output files
    is the path of the collapsed isoforms file without the extensions of
    its file name. For a file name [b.ext] in no directory it is [b]; for
    [d/b.ext] in a directory [d] that does not end with a slash it is
    [d/b]. Here [b] has no dot and no slash and [ext] has no slash. *)
Theorem runner_prefix_drops_extensions iso sam b ext cov idt flnc fuzzy a5 s5 :
  contains slash b = false -> contains "."%char b = false ->
  contains slash ext = false ->
  prefix (files (new iso sam (b +:+ "." +:+ ext) cov idt flnc fuzzy a5 s5)) = b /\
  forall d,
    d <> "" -> ends_with_slash d = false ->
    prefix (files (new iso sam (d +:+ "/" +:+ b +:+ "." +:+ ext) cov idt flnc fuzzy a5 s5))
    = d +:+ "/" +:+ b.
Proof.
  intros Hb Hdot Hext.
  assert (Hfile : contains slash (b +:+ "." +:+ ext) = false).
  { rewrite !contains_app, Hb, Hext. reflexivity. }
  assert (Hsplit : hd "" (split "."%char (b +:+ "." +:+ ext)) = b).
  { change (b +:+ "." +:+ ext) with (b +:+ String "."%char ext).
    now rewrite (split_app_sep _ _ _ Hdot). }
  unfold new. cbn [files prefix]. split.
  - rewrite (dirname_no_slash _ Hfile), (basename_no_slash _ Hfile), Hsplit.
    now apply path_join_empty.
  - intros d Hd Hend.
    change (d +:+ "/" +:+ b +:+ "." +:+ ext) with (d +:+ String slash (b +:+ "." +:+ ext)).
    rewrite (dirname_app _ _ Hd Hend Hfile), (basename_app _ _ Hfile), Hsplit.
    now apply path_join_dir.
Qed.

Lemma runner_prefix_drops_extensions_witness :
  prefix (files (new "hq.fasta" "sorted.sam" ("collapsed" +:+ "." +:+ "min_fl_2.fastq")
                     MIN_ALN_COVERAGE_DEFAULT MIN_ALN_IDENTITY_DEFAULT 2 5 false false))
  = "collapsed" /\
  forall d,
    d <> "" -> ends_with_slash d = false ->
    prefix (files (new "hq.fasta" "sorted.sam"
                       (d +:+ "/" +:+ "collapsed" +:+ "." +:+ "min_fl_2.fastq")
                       MIN_ALN_COVERAGE_DEFAULT MIN_ALN_IDENTITY_DEFAULT 2 5 false false))
    = d +:+ "/" +:+ "collapsed".
Proof.
  apply (runner_prefix_drops_extensions
           "hq.fasta" "sorted.sam" "collapsed" "min_fl_2.fastq"); reflexivity.
Defined.

End CollapseMoreFacts.

(** * The count runner: sample prefixes, pickles and the order of the calls *)

Module CountMoreFacts.
Import PyStrMore Count EffFacts CountSpec CountMoreSpec.

Lemma strip_bar_cons c k :
  k <> "" -> strip_bar (String c k) = String c (strip_bar k).
Proof. destruct k; [congruence | reflexivity]. Qed.

Lemma strip_bar_snoc k : strip_bar (k +:+ "|") = k.
Proof.
  induction k as [|c k IH]; [reflexivity|].
  rewrite str_app_cons, strip_bar_cons, IH; [reflexivity|].
  destruct k; discriminate.
Qed.

Lemma strip_bar_cases k : strip_bar k = k \/ k = strip_bar k +:+ "|".
Proof.
  induction k as [|c k IH]; [now left|].
  destruct k as [|d k].
  - cbn [strip_bar]. destruct (Ascii.eqb_spec c "|"%char) as [->|]; [now right | now left].
  - rewrite strip_bar_cons by discriminate. rewrite str_app_cons.
    destruct IH as [->| <-]; [now left | now right].
Qed.

(** X23 (CountRunner.sample_prefixes): a sample prefix is its key in the
    prefix dict without one final '|'. A key ending with '|' loses exactly
    that character, also when another '|' precedes it; any other key is
    kept as it is. *)
Theorem strip_bar_removes_one_final_bar k :
  strip_bar (k +:+ "|") = k /\
  (strip_bar k = k \/ k = strip_bar k +:+ "|") /\
  (strip_bar k = k <-> forall k', k <> k' +:+ "|").
Proof.
  split; [apply strip_bar_snoc|]. split; [apply strip_bar_cases|]. split.
  - intros H k' ->. rewrite strip_bar_snoc in H.
    symmetry in H. now apply str_app_neq_self in H.
  - intros H. destruct (strip_bar_cases k) as [E|E]; [exact E|].
    now apply H in E.
Qed.

(** ** Pickles *)

Lemma pickle_tuples_cons env fn kind k d items :
  pickle_tuples env fn kind ((k, d) :: items)
  = if negb (path_exists env (fn d)) then
      Raise (IOError (missing_msg kind (fn d) (strip_bar k)))
    else (ret <- pickle_tuples env fn kind items;;
          Ok ((strip_bar k, fn d) :: ret))%res.
Proof. reflexivity. Qed.

Lemma pickle_tuples_ok env fn kind items l :
  pickle_tuples env fn kind items = Ok l ->
  l = map (fun kv => (strip_bar (fst kv), fn (snd kv))) items /\
  Forall (fun t => path_exists env (snd t) = true) l.
Proof.
  revert l. induction items as [|[k d] items IH]; intros l H.
  - injection H as <-. now split.
  - rewrite pickle_tuples_cons in H.
    destruct (path_exists env (fn d)) eqn:E; [|discriminate]. cbn [negb] in H.
    destruct (pickle_tuples env fn kind items) as [l'|e]; [|discriminate].
    injection H as <-. destruct (IH _ eq_refl) as [-> Hall].
    split; [reflexivity|]. now constructor.
Qed.

Lemma pickle_tuples_raise env fn kind items e :
  pickle_tuples env fn kind items = Raise e ->
  exists k d, (k, d) ∈ items /\ path_exists env (fn d) = false /\
              e = IOError (missing_msg kind (fn d) (strip_bar k)).
Proof.
  induction items as [|[k d] items IH]; intros H; [discriminate|].
  rewrite pickle_tuples_cons in H.
  destruct (path_exists env (fn d)) eqn:E; cbn [negb] in H.
  - destruct (pickle_tuples env fn kind items) as [l'|e'] eqn:El; [discriminate|].
    injection H as <-. destruct (IH eq_refl) as (k' & d' & Hin & Hp & He).
    exists k', d'. split; [now right | now split].
  - injection H as <-. exists k, d. split; [left | now split].
Qed.

(** X24 (CountRunner.prefix_fl_pickle_tuples, prefix_nfl_pickle_tuples,
    sample_prefixes): when the FL (or nFL) tuples are obtained, their
    prefixes are the sample prefixes in the same order, each paired with
    the pickle of its cluster directory, and every pickle exists; when they
    are not, the IOError names a pickle that does not exist and the sample
    prefix of an entry of the prefix dict. *)
Theorem pickle_tuples_follow_sample_prefixes env self :
  (forall fl,
      prefix_fl_pickle_tuples env self = Ok fl ->
      map fst fl = sample_prefixes self /\
      map snd fl = map (fun kv => final_pickle_fn env (snd kv)) (map_to_list (prefix_dict self)) /\
      Forall (fun t => path_exists env (snd t) = true) fl) /\
  (forall nfl,
      prefix_nfl_pickle_tuples env self = Ok nfl ->
      map fst nfl = sample_prefixes self /\
      map snd nfl
      = map (fun kv => nfl_all_pickle_fn env (snd kv)) (map_to_list (prefix_dict self)) /\
      Forall (fun t => path_exists env (snd t) = true) nfl) /\
  (forall e,
      prefix_fl_pickle_tuples env self = Raise e ->
      exists k d,
        prefix_dict self !! k = Some d /\
        path_exists env (final_pickle_fn env d) = false /\
        e = IOError (missing_msg "FL" (final_pickle_fn env d) (strip_bar k))) /\
  (forall e,
      prefix_nfl_pickle_tuples env self = Raise e ->
      exists k d,
        prefix_dict self !! k = Some d /\
        path_exists env (nfl_all_pickle_fn env d) = false /\
        e = IOError (missing_msg "NFL" (nfl_all_pickle_fn env d) (strip_bar k))).
Proof.
  unfold prefix_fl_pickle_tuples, prefix_nfl_pickle_tuples, sample_prefixes.
  assert (Hok : forall fn kind l,
             pickle_tuples env fn kind (map_to_list (prefix_dict self)) = Ok l ->
             map fst l = map (fun kv => strip_bar (fst kv)) (map_to_list (prefix_dict self)) /\
             map snd l = map (fun kv => fn (snd kv)) (map_to_list (prefix_dict self)) /\
             Forall (fun t => path_exists env (snd t) = true) l).
  { intros fn kind l H. destruct (pickle_tuples_ok _ _ _ _ _ H) as [E Hall].
    split; [|split; [|exact Hall]]; rewrite E, map_map; reflexivity. }
  assert (Hraise : forall fn kind e,
             pickle_tuples env fn kind (map_to_list (prefix_dict self)) = Raise e ->
             exists k d, prefix_dict self !! k = Some d /\
                         path_exists env (fn d) = false /\
                         e = IOError (missing_msg kind (fn d) (strip_bar k))).
  { intros fn kind e H. destruct (pickle_tuples_raise _ _ _ _ _ H) as (k & d & Hin & ?).
    exists k, d. split; [|assumption]. now apply elem_of_map_to_list in Hin. }
  repeat split; intros; eauto; eapply Hok; eauto.
Qed.

Lemma pickle_tuples_follow_sample_prefixes_witness :
  map fst [("s1", "d1/final.pickle"); ("s2", "d2/final.pickle")]
    = sample_prefixes two_samples /\
  exists k d,
    prefix_dict two_samples !! k = Some d /\
    path_exists no_nfl_env (nfl_all_pickle_fn no_nfl_env d) = false /\
    IOError (missing_msg "NFL" "d2/nfl.pickle" "s2")
    = IOError (missing_msg "NFL" (nfl_all_pickle_fn no_nfl_env d) (strip_bar k)).
Proof.
  destruct (pickle_tuples_follow_sample_prefixes no_nfl_env two_samples)
    as (Hfl & _ & _ & Hnfl).
  split.
  - apply (Hfl [("s1", "d1/final.pickle"); ("s2", "d2/final.pickle")]).
    vm_compute. reflexivity.
  - apply Hnfl. vm_compute. reflexivity.
Defined.

(** ** The calls of a run *)

Lemma run_trace env self oracle :
  fst (Eff.run (run env self) oracle) `prefix_of` expected_calls env self /\
  (fst (Eff.run (run env self) oracle) = expected_calls env self ->
   (forall tr c, oracle tr c = None) ->
   snd (Eff.run (run env self) oracle) = expected_result env self) /\
  (is_ok (snd (Eff.run (run env self) oracle)) = true ->
   fst (Eff.run (run env self) oracle) = expected_calls env self /\
   expected_result env self = Ok tt) /\
  ((forall tr c, oracle tr c = None) ->
   Eff.run (run env self) oracle = (expected_calls env self, expected_result env self)).
Proof.
  unfold Eff.run, run, expected_calls, expected_result.
  rewrite bind_call. cbn [app].
  destruct (oracle [] _) as [e0|] eqn:E0.
  { cbn [fst snd]. split; [apply prefix_cons, prefix_nil|].
    split; [intros _ H; rewrite H in E0; discriminate|].
    split; [discriminate|]. intros H. rewrite H in E0. discriminate. }
  rewrite bind_lift.
  destruct (prefix_fl_pickle_tuples env self) as [fl|e].
  2:{ cbn [fst snd]. repeat split; reflexivity || discriminate. }
  rewrite bind_call.
  destruct (oracle [_] _) as [e1|] eqn:E1.
  { cbn [fst snd app]. split; [apply prefix_cons, prefix_cons, prefix_nil|].
    split; [intros _ H; rewrite H in E1; discriminate|].
    split; [discriminate|]. intros H. rewrite H in E1. discriminate. }
  rewrite bind_lift. cbn [app].
  destruct (prefix_nfl_pickle_tuples env self) as [nfl|e].
  2:{ cbn [fst snd]. repeat split; reflexivity || discriminate. }
  rewrite bind_call.
  destruct (oracle [_; _] _) as [e2|] eqn:E2.
  { cbn [fst snd app]. split; [do 3 apply prefix_cons; apply prefix_nil|].
    split; [intros _ H; rewrite H in E2; discriminate|].
    split; [discriminate|]. intros H. rewrite H in E2. discriminate. }
  cbn [app]. unfold Eff.call.
  destruct (oracle [_; _; _] _) as [e3|] eqn:E3; cbn [fst snd app].
  - split; [reflexivity|].
    split; [intros _ H; rewrite H in E3; discriminate|].
    split; [discriminate|]. intros H. rewrite H in E3. discriminate.
  - repeat split; reflexivity.
Qed.

(** X25 (CountRunner.run): whatever the external calls do, a run reads the
    group file, then writes the read status of the FL reads (mode 'w'),
    then appends that of the nFL reads (mode 'a'), then makes the
    abundance file, and stops at the first step that fails; the FL pickles
    are looked for only after the group file was read, the nFL pickles
    only after the FL read status was written. A run that completes has
    made the four calls. *)
Theorem run_calls_in_order env self oracle :
  let tr := fst (Eff.run (run env self) oracle) in
  let res := snd (Eff.run (run env self) oracle) in
  tr `prefix_of` expected_calls env self /\
  (is_ok res = true ->
   exists fl nfl,
     prefix_fl_pickle_tuples env self = Ok fl /\
     prefix_nfl_pickle_tuples env self = Ok nfl /\
     tr = [read_group_file (group_filename self) (sample_prefixes self);
           output_read_count_FL fl (read_stat_fn self) "w";
           output_read_count_nFL nfl (read_stat_fn self) "a";
           make_abundance_file (read_stat_fn self) (abundance_fn self)]).
Proof.
  intros tr res. subst tr res.
  destruct (run_trace env self oracle) as (Hpre & _ & Hok & _).
  split; [exact Hpre|]. intros H. destruct (Hok H) as [-> Hres].
  unfold expected_calls, expected_result in *.
  destruct (prefix_fl_pickle_tuples env self) as [fl|e]; [|discriminate].
  destruct (prefix_nfl_pickle_tuples env self) as [nfl|e]; [|discriminate].
  now exists fl, nfl.
Qed.

(** X26 (CountRunner.run, prefix_nfl_pickle_tuples): a missing nFL pickle
    is found only after the FL read status has been written. When every
    FL pickle exists and an nFL pickle does not, a run in which no call
    fails reads the group file, writes the FL read status and then raises
    the IOError of the missing pickle; in no run is the nFL read status
    appended or the abundance file made. *)
Theorem run_writes_FL_status_before_missing_nFL_pickle env self fl e :
  prefix_fl_pickle_tuples env self = Ok fl ->
  prefix_nfl_pickle_tuples env self = Raise e ->
  Eff.run (run env self) Eff.no_failure
  = ([read_group_file (group_filename self) (sample_prefixes self);
      output_read_count_FL fl (read_stat_fn self) "w"], Raise e) /\
  forall oracle,
    is_ok (snd (Eff.run (run env self) oracle)) = false /\
    (forall a b c, output_read_count_nFL a b c ∉ fst (Eff.run (run env self) oracle)) /\
    (forall a b, make_abundance_file a b ∉ fst (Eff.run (run env self) oracle)).
Proof.
  intros Hfl Hnfl.
  assert (Hexp : expected_calls env self
                 = [read_group_file (group_filename self) (sample_prefixes self);
                    output_read_count_FL fl (read_stat_fn self) "w"]).
  { unfold expected_calls. now rewrite Hfl, Hnfl. }
  assert (Hres : expected_result env self = Raise e).
  { unfold expected_result. now rewrite Hfl, Hnfl. }
  split.
  - destruct (run_trace env self Eff.no_failure) as (_ & _ & _ & H).
    rewrite H by reflexivity. now rewrite Hexp, Hres.
  - intros oracle. destruct (run_trace env self oracle) as (Hpre & _ & Hok & _).
    rewrite Hexp in Hpre.
    assert (Hin : forall c, c ∈ fst (Eff.run (run env self) oracle) ->
                            c = read_group_file (group_filename self) (sample_prefixes self) \/
                            c = output_read_count_FL fl (read_stat_fn self) "w").
    { intros c Hc. destruct Hpre as [k Hk].
      assert (c ∈ [read_group_file (group_filename self) (sample_prefixes self);
                   output_read_count_FL fl (read_stat_fn self) "w"]) as Hc'.
      { rewrite Hk. apply elem_of_app. now left. }
      apply list_elem_of_In in Hc'. cbn in Hc'. intuition. }
    split; [|split].
    + destruct (is_ok _) eqn:E; [|reflexivity].
      destruct (Hok eq_refl) as [_ Hbad]. congruence.
    + intros a b c Hc. destruct (Hin _ Hc); discriminate.
    + intros a b Hc. destruct (Hin _ Hc); discriminate.
Qed.

Lemma run_writes_FL_status_before_missing_nFL_pickle_witness :
  Eff.run (run no_nfl_env two_samples) Eff.no_failure
  = ([read_group_file (group_filename two_samples) (sample_prefixes two_samples);
      output_read_count_FL [("s1", "d1/final.pickle"); ("s2", "d2/final.pickle")]
                           (read_stat_fn two_samples) "w"],
     Raise (IOError (missing_msg "NFL" "d2/nfl.pickle" "s2"))) /\
  forall oracle,
    is_ok (snd (Eff.run (run no_nfl_env two_samples) oracle)) = false /\
    (forall a b c,
        output_read_count_nFL a b c ∉ fst (Eff.run (run no_nfl_env two_samples) oracle)) /\
    (forall a b,
        make_abundance_file a b ∉ fst (Eff.run (run no_nfl_env two_samples) oracle)).
Proof.
  apply (run_writes_FL_status_before_missing_nFL_pickle no_nfl_env two_samples);
    vm_compute; reflexivity.
Defined.

End CountMoreFacts.

(** * Mapping isoforms to a genome: where the GMAP database is taken from *)

Module MapIsoformsFacts.
Import PyStr PyStrFacts PyStrMore PathFacts CollapseIsoforms.
Import EffFacts MapIsoformsToGenome MapIsoformsSpec.
Local Open Scope Z_scope.

(** X27 (gmap_db_and_name_from_ds): when the first resource of the first
    resource of the reference set is the file [db/name/file], the GMAP
    database directory is [db] and the database name is [name]. Here [db]
    is not empty and does not end with a slash, [name] is not empty, and
    neither [name] nor [file] contains a slash. *)
Theorem gmap_db_and_name_from_ds_splits_json_path env fn db name file inner rest :
  GmapReferenceSet env fn = Ok (((db +:+ "/" +:+ name +:+ "/" +:+ file) :: inner) :: rest) ->
  db <> "" -> ends_with_slash db = false ->
  name <> "" -> contains slash name = false ->
  contains slash file = false ->
  gmap_db_and_name_from_ds env fn = Ok (db, name).
Proof.
  intros Hds Hdb Hend Hname Hn Hfile.
  unfold gmap_db_and_name_from_ds. rewrite Hds. cbv beta iota delta [bindR first_of].
  assert (Hpath : db +:+ "/" +:+ name +:+ "/" +:+ file
                  = (db +:+ String slash name) +:+ String slash file).
  { now rewrite str_app_assoc. }
  assert (Hdir : dirname (db +:+ "/" +:+ name +:+ "/" +:+ file) = db +:+ String slash name).
  { rewrite Hpath. apply dirname_app; [|now apply ends_with_slash_app | exact Hfile].
    destruct db; [congruence | discriminate]. }
  rewrite Hdir, (dirname_app _ _ Hdb Hend Hn), (basename_app _ _ Hn). reflexivity.
Qed.

Lemma gmap_db_and_name_from_ds_splits_json_path_witness :
  gmap_db_and_name_from_ds gmap_env "sirv.gmapreferenceset.xml" = Ok ("/db", "SIRV").
Proof.
  apply (gmap_db_and_name_from_ds_splits_json_path
           gmap_env "sirv.gmapreferenceset.xml" "/db" "SIRV" "gmap_build.json" [] []);
    reflexivity || discriminate.
Defined.

(** X28 (gmap_db_and_name_from_ds): when the reference set can be read,
    the function fails exactly when the set has no resource or its first
    resource has none, and then it raises the IOError that names the
    reference set file, never the IndexError of the failed indexing; an
    exception [GmapReferenceSet] itself raises is passed on unchanged. *)
Theorem gmap_db_and_name_from_ds_reports_missing_json env fn :
  (forall ds,
      GmapReferenceSet env fn = Ok ds ->
      (is_ok (gmap_db_and_name_from_ds env fn) = false <-> (ds = [] \/ hd_error ds = Some [])) /\
      (is_ok (gmap_db_and_name_from_ds env fn) = false ->
       gmap_db_and_name_from_ds env fn = Raise (IOError (no_json_msg fn)))) /\
  (forall e,
      GmapReferenceSet env fn = Raise e ->
      gmap_db_and_name_from_ds env fn = Raise e).
Proof.
  unfold gmap_db_and_name_from_ds. split.
  - intros ds ->. cbv beta iota delta [bindR first_of].
    destruct ds as [|[|json inner] rest]; cbn [is_ok hd_error].
    + split; [split; auto | reflexivity].
    + split; [split; auto | reflexivity].
    + split; [|discriminate]. split; [discriminate|]. intros [H|H]; discriminate.
  - intros e ->. reflexivity.
Qed.

Lemma gmap_db_and_name_from_ds_reports_missing_json_witness :
  gmap_db_and_name_from_ds gmap_env "empty.gmapreferenceset.xml"
    = Raise (IOError (no_json_msg "empty.gmapreferenceset.xml")) /\
  gmap_db_and_name_from_ds gmap_env "missing.xml" = Raise (IOError "missing.xml").
Proof.
  split.
  - apply (proj1 (gmap_db_and_name_from_ds_reports_missing_json
                    gmap_env "empty.gmapreferenceset.xml") []); reflexivity.
  - apply (proj2 (gmap_db_and_name_from_ds_reports_missing_json gmap_env "missing.xml")).
    reflexivity.
Defined.

(** X29 (args_runner): when --gmap_ds is given, the database directory and
    name handed to map_isoforms_and_sort are those of the reference set,
    whatever --gmap_db and --gmap_name are; if they cannot be obtained the
    error is raised before anything is mapped. Without --gmap_ds no
    reference set is read and the two options are handed on as they
    are. *)
Theorem args_runner_prefers_reference_set env input sam name db nproc oracle :
  (forall ds,
      (forall name' db',
          Eff.run (args_runner env (mkArgs input sam name db (Some ds) nproc)) oracle
          = Eff.run (args_runner env (mkArgs input sam name' db' (Some ds) nproc)) oracle) /\
      (forall d n,
          gmap_db_and_name_from_ds env ds = Ok (d, n) ->
          fst (Eff.run (args_runner env (mkArgs input sam name db (Some ds) nproc)) oracle)
          = [map_isoforms_and_sort input sam (Some d) (Some n) nproc]) /\
      (forall e,
          gmap_db_and_name_from_ds env ds = Raise e ->
          Eff.run (args_runner env (mkArgs input sam name db (Some ds) nproc)) oracle
          = ([], Raise e))) /\
  fst (Eff.run (args_runner env (mkArgs input sam name db None nproc)) oracle)
  = [map_isoforms_and_sort input sam db name nproc] /\
  (oracle [] (map_isoforms_and_sort input sam db name nproc) = None ->
   snd (Eff.run (args_runner env (mkArgs input sam name db None nproc)) oracle) = Ok 0).
Proof.
  unfold Eff.run, args_runner. cbn [gmap_ds gmap_db gmap_name input_filename
                                     sam_filename gmap_nproc].
  split; [|split].
  - intros ds. split; [reflexivity|]. split.
    + intros d n H. rewrite bind_lift, H. cbv beta iota delta [bindR fst snd].
      rewrite bind_call. now destruct (oracle [] _).
    + intros e H. rewrite bind_lift, H. reflexivity.
  - rewrite bind_lift, bind_call. cbn [fst snd]. now destruct (oracle [] _).
  - intros H. rewrite bind_lift, bind_call. cbn [fst snd]. now rewrite H.
Qed.

Lemma args_runner_prefers_reference_set_witness :
  fst (Eff.run (args_runner gmap_env (with_ds "sirv.gmapreferenceset.xml")) Eff.no_failure)
    = [map_isoforms_and_sort "hq_isoforms.fastq" "out.sam" (Some "/db") (Some "SIRV") 24] /\
  Eff.run (args_runner gmap_env (with_ds "empty.gmapreferenceset.xml")) Eff.no_failure
    = ([], Raise (IOError (no_json_msg "empty.gmapreferenceset.xml"))).
Proof.
  destruct (args_runner_prefers_reference_set
              gmap_env "hq_isoforms.fastq" "out.sam" (Some "ignored_name")
              (Some "/ignored_db") 24 Eff.no_failure) as (H & _).
  split.
  - apply (proj1 (proj2 (H "sirv.gmapreferenceset.xml"))). reflexivity.
  - apply (proj2 (proj2 (H "empty.gmapreferenceset.xml"))). reflexivity.
Defined.

(** The tool-contract runner reads the reference set from its second
    input file: with fewer than two input files it raises IndexError and
    maps nothing. *)
Lemma resolved_tool_contract_runner_needs_two_inputs env rtc oracle :
  (length (input_files rtc) < 2)%nat ->
  Eff.run (resolved_tool_contract_runner env rtc) oracle = ([], Raise IndexError).
Proof.
  intros H. unfold Eff.run, resolved_tool_contract_runner. rewrite bind_lift.
  destruct (input_files rtc) as [|a [|b l]]; cbn in H; try lia; reflexivity.
Qed.

End MapIsoformsFacts.

(** * Merging the logs of the polishing chunks *)

Module IceQuiverMergeFacts.
Import EffFacts IceQuiverMerge IceQuiverMergeSpec.
Local Open Scope Z_scope.

Lemma check_logs_ok env src :
  check_logs env src = Ok tt <-> Forall (fun f => nfs_exists env f = true) src.
Proof.
  induction src as [|f src IH]; cbn [check_logs].
  - split; [constructor | reflexivity].
  - destruct (nfs_exists env f) eqn:E; cbn [negb].
    + rewrite IH. split; [now constructor | now inversion 1].
    + split; [discriminate|]. inversion 1; congruence.
Qed.

Lemma check_logs_raise env src e :
  check_logs env src = Raise e ->
  exists before f after,
    src = before ++ f :: after /\
    Forall (fun f => nfs_exists env f = true) before /\
    nfs_exists env f = false /\ e = IOError (no_log_msg f).
Proof.
  induction src as [|f src IH]; cbn [check_logs]; [discriminate|].
  destruct (nfs_exists env f) eqn:E; cbn [negb].
  - intros H. destruct (IH H) as (before & f' & after & -> & Hb & Hf & He).
    exists (f :: before), f', after. repeat split; try assumption. now constructor.
  - intros H. injection H as <-. exists [], f, src. now repeat split.
Qed.

Lemma range_nonpositive n : n <= 0 -> range n = [].
Proof. intros H. unfold range. now replace (Z.to_nat n) with 0%nat by lia. Qed.

Ltac call_step H :=
  rewrite bind_call in H;
  match type of H with
  | context [match ?o ?t ?c with Some _ => _ | None => _ end] =>
      let E := fresh "E" in destruct (o t c) eqn:E
  end.

(** The calls of a run are an initial part of those of a run in which no
    call fails. *)
Lemma merge_run_trace env self oracle tr res :
  run env self oracle [] = (tr, res) ->
  tr `prefix_of` expected_calls env self /\
  (is_ok res = true ->
   tr = expected_calls env self /\ check_logs env (chunk_logs env self) = Ok tt) /\
  ((forall t c, oracle t c = None) ->
   tr = expected_calls env self /\ res = expected_result env self).
Proof.
  unfold run, expected_calls, expected_result. fold (chunk_logs env self). intros H.
  call_step H.
  { injection H as <- <-. split; [apply prefix_cons, prefix_nil|].
    split; [discriminate|]. intros Hn. now rewrite Hn in E. }
  call_step H.
  { injection H as <- <-. split; [do 2 apply prefix_cons; apply prefix_nil|].
    split; [discriminate|]. intros Hn. now rewrite Hn in E0. }
  call_step H.
  { injection H as <- <-. split; [do 3 apply prefix_cons; apply prefix_nil|].
    split; [discriminate|]. intros Hn. now rewrite Hn in E1. }
  call_step H.
  { injection H as <- <-. split; [do 4 apply prefix_cons; apply prefix_nil|].
    split; [discriminate|]. intros Hn. now rewrite Hn in E2. }
  rewrite bind_lift in H.
  destruct (check_logs env (chunk_logs env self)) as [[]|e].
  2:{ injection H as <- <-. cbn [app].
      split; [reflexivity|]. split; [discriminate|]. now intros _. }
  call_step H.
  { injection H as <- <-. split; [do 5 apply prefix_cons; apply prefix_nil|].
    split; [discriminate|]. intros Hn. now rewrite Hn in E3. }
  call_step H.
  { injection H as <- <-. split; [do 6 apply prefix_cons; apply prefix_nil|].
    split; [discriminate|]. intros Hn. now rewrite Hn in E4. }
  unfold Eff.call in H. injection H as <- <-. cbn [app].
  split; [reflexivity|]. split.
  - destruct (oracle _ close_log); [discriminate|]. now intros _.
  - intros Hn. now rewrite Hn.
Qed.

(** X30 (IceQuiverMerge.run): whatever the external calls do, the chunk
    logs are concatenated at most once, and only after each of the N logs,
    chunks 0 to N-1 in order, was found to exist; the destination is the
    log of all submitted jobs. When a chunk log is missing the run fails
    without concatenating anything and without closing its own log, and if
    no call fails it raises the IOError naming the first missing log. For
    N <= 0 there is no log to look for. *)
Theorem run_merges_only_existing_logs env self oracle :
  let tr := fst (Eff.run (run env self) oracle) in
  let res := snd (Eff.run (run env self) oracle) in
  (forall src dst,
      cat_files src dst ∈ tr ->
      src = chunk_logs env self /\
      dst = submitted_quiver_jobs_log env (root_dir self) /\
      Forall (fun f => nfs_exists env f = true) (chunk_logs env self)) /\
  (forall f,
      f ∈ chunk_logs env self -> nfs_exists env f = false ->
      is_ok res = false /\ (forall src dst, cat_files src dst ∉ tr) /\ close_log ∉ tr) /\
  (forall before f after,
      chunk_logs env self = before ++ f :: after ->
      Forall (fun f => nfs_exists env f = true) before ->
      nfs_exists env f = false ->
      snd (Eff.run (run env self) Eff.no_failure) = Raise (IOError (no_log_msg f))) /\
  length (chunk_logs env self) = Z.to_nat (N self) /\
  (N self <= 0 -> chunk_logs env self = []).
Proof.
  intros tr res. subst tr res.
  assert (Hlen : length (chunk_logs env self) = Z.to_nat (N self)).
  { unfold chunk_logs, range. now rewrite !length_map, length_seq. }
  assert (Hnone : N self <= 0 -> chunk_logs env self = []).
  { intros H. unfold chunk_logs. now rewrite range_nonpositive. }
  assert (Hfirst : forall before f after,
             chunk_logs env self = before ++ f :: after ->
             Forall (fun f => nfs_exists env f = true) before ->
             nfs_exists env f = false ->
             check_logs env (chunk_logs env self) = Raise (IOError (no_log_msg f))).
  { intros before f after -> Hb Hf. induction Hb as [|x l Hx _ IH]; cbn [app check_logs].
    - now rewrite Hf.
    - now rewrite Hx. }
  assert (Hmiss : forall f, f ∈ chunk_logs env self -> nfs_exists env f = false ->
                            exists e, check_logs env (chunk_logs env self) = Raise e).
  { intros f Hin Hf. destruct (check_logs env (chunk_logs env self)) as [[]|e] eqn:E; [|eauto].
    apply check_logs_ok in E. rewrite Forall_forall in E. specialize (E _ Hin). congruence. }
  unfold Eff.run.
  split; [|split; [|split; [|split; [exact Hlen | exact Hnone]]]].
  - destruct (run env self oracle []) as [tr res] eqn:E. cbn [fst].
    destruct (merge_run_trace _ _ _ _ _ E) as ([k Hk] & _).
    intros src dst Hin.
    assert (cat_files src dst ∈ expected_calls env self) as Hin'.
    { rewrite Hk. apply elem_of_app. now left. }
    unfold expected_calls in Hin'.
    destruct (check_logs env (chunk_logs env self)) as [[]|e] eqn:Ec;
      apply list_elem_of_In in Hin'; cbn in Hin'.
    + apply check_logs_ok in Ec.
      destruct Hin' as [H|[H|[H|[H|[H|[H|[H|[]]]]]]]]; try discriminate H.
      injection H as <- <-. now repeat split.
    + destruct Hin' as [H|[H|[H|[H|[]]]]]; discriminate H.
  - intros f Hin Hf. destruct (Hmiss f Hin Hf) as [e He].
    destruct (run env self oracle []) as [tr res] eqn:E. cbn [fst snd].
    destruct (merge_run_trace _ _ _ _ _ E) as ([k Hk] & Hok & _).
    unfold expected_calls in Hk. rewrite He in Hk, Hok.
    split; [|split].
    + destruct (is_ok res); [|reflexivity]. destruct (Hok eq_refl) as [_ Hbad]. discriminate.
    + intros src dst Hc.
      assert (In (cat_files src dst) (tr ++ k)) as Hc'.
      { apply in_or_app. left. now apply list_elem_of_In. }
      rewrite <- Hk in Hc'. cbn in Hc'.
      destruct Hc' as [H|[H|[H|[H|[]]]]]; discriminate H.
    + intros Hc.
      assert (In close_log (tr ++ k)) as Hc'.
      { apply in_or_app. left. now apply list_elem_of_In. }
      rewrite <- Hk in Hc'. cbn in Hc'.
      destruct Hc' as [H|[H|[H|[H|[]]]]]; discriminate H.
  - intros before f after Hsrc Hb Hf.
    destruct (run env self Eff.no_failure []) as [tr res] eqn:E. cbn [snd].
    destruct (merge_run_trace _ _ _ _ _ E) as (_ & _ & Hn).
    destruct (Hn (fun _ _ => eq_refl)) as [_ ->].
    unfold expected_result. now rewrite (Hfirst _ _ _ Hsrc Hb Hf).
Qed.

Lemma run_merges_only_existing_logs_witness :
  snd (Eff.run (run chunk_env three_chunks) Eff.no_failure)
    = Raise (IOError (no_log_msg "out/log/jobs.1of3.txt")) /\
  close_log ∉ fst (Eff.run (run chunk_env three_chunks) Eff.no_failure).
Proof.
  destruct (run_merges_only_existing_logs chunk_env three_chunks Eff.no_failure)
    as (_ & Hmiss & Hfirst & _).
  split.
  - apply (Hfirst ["out/log/jobs.0of3.txt"] "out/log/jobs.1of3.txt" ["out/log/jobs.2of3.txt"]).
    + vm_compute. reflexivity.
    + repeat constructor.
    + reflexivity.
  - apply (Hmiss "out/log/jobs.1of3.txt"); [|reflexivity].
    vm_compute. apply list_elem_of_In. cbn. tauto.
Defined.

(** The command-line runner never raises: it returns 0 when the merge
    completed and 1 when the merge raised, in particular when a chunk log
    is missing. *)
Lemma Runner_run_return_code env root_dir N oracle :
  fst (Eff.run (Runner_run env root_dir N) oracle)
    = fst (Eff.run (run env (mkIceQuiverMerge root_dir N)) oracle) /\
  snd (Eff.run (Runner_run env root_dir N) oracle)
    = Ok (if is_ok (snd (Eff.run (run env (mkIceQuiverMerge root_dir N)) oracle))
          then 0 else 1).
Proof.
  unfold Eff.run, Runner_run.
  now destruct (run env (mkIceQuiverMerge root_dir N) oracle []) as [tr [u|e]].
Qed.

End IceQuiverMergeFacts.
